(** * MrLYDownload: a shallow embedding of the downloader core

    The development follows [MrLYDownload.py]: the license key helpers,
    the text utilities ([slugify], [detect_platform],
    [build_url_from_username], [derive_folder_name]), the [Worker] thread
    body and its progress hook.

    Conventions.
    - A Python [str] is a [string]; a character is read as the code point
      of the same number (U+0000 to U+00FF).  The character classes below
      are the ones CPython uses on that range.
    - An exception is a value of [exn]; a function that may raise returns
      a [result].
    - What the program reads from its surroundings (the wall clock, the
      random generator, the file system, the child process, the stop
      flag) is an explicit argument. *)

From Stdlib Require Import ZArith List String Ascii Bool Lia.
From Stdlib Require Import Floats.SpecFloat.
From stdpp Require Import base gmap strings.

Import ListNotations.
Local Open Scope string_scope.

(** ** Exceptions *)

Inductive exn : Type :=
| ValueError
| OverflowError
| UnboundLocalError
| IndexError
| TypeError
| OSError.

Inductive result (A : Type) : Type :=
| Ok (a : A)
| Raise (e : exn).

Arguments Ok {A} a.
Arguments Raise {A} e.

#[global] Instance result_ret : MRet result := fun A a => Ok a.

#[global] Instance result_bind : MBind result := fun A B k r =>
  match r with
  | Ok a => k a
  | Raise e => Raise e
  end.

(** [try: ... except: ...] around a computation. *)
Definition try_except {A : Type} (r : result A) (handler : A) : A :=
  match r with
  | Ok a => a
  | Raise _ => handler
  end.

(** ** Python string methods *)

Module PyStr.

Definition code (c : ascii) : nat := nat_of_ascii c.

Definition between (lo hi : nat) (c : ascii) : bool :=
  (lo <=? code c)%nat && (code c <=? hi)%nat.

(** [str.isspace] on one character. *)
Definition isspace (c : ascii) : bool :=
  between 9 13 c || between 28 32 c
  || (code c =? 133)%nat || (code c =? 160)%nat.

(** [\d] of the [re] module. *)
Definition isdigit (c : ascii) : bool := between 48 57 c.

(** [c.isascii() and c.isalpha()]. *)
Definition isasciialpha (c : ascii) : bool :=
  between 65 90 c || between 97 122 c.

(** Membership of a character in a string of characters. *)
Fixpoint mem (c : ascii) (chars : string) : bool :=
  match chars with
  | EmptyString => false
  | String d r => Ascii.eqb c d || mem c r
  end.

Definition lower_char (c : ascii) : ascii :=
  if between 65 90 c || (between 192 222 c && negb (code c =? 215)%nat)
  then ascii_of_nat (code c + 32) else c.

(** The three characters of the range whose upper case lies outside it
    (U+00B5, U+00DF, U+00FF) are left unchanged. *)
Definition upper_char (c : ascii) : ascii :=
  if between 97 122 c || (between 224 254 c && negb (code c =? 247)%nat)
  then ascii_of_nat (code c - 32) else c.

Fixpoint map (f : ascii -> ascii) (s : string) : string :=
  match s with
  | EmptyString => EmptyString
  | String c r => String (f c) (map f r)
  end.

Definition lower : string -> string := map lower_char.
Definition upper : string -> string := map upper_char.

(** [s.lstrip(chars)], [s.rstrip(chars)], [s.strip(chars)], with the set
    of characters given as a predicate. *)
Fixpoint lstrip_by (p : ascii -> bool) (s : string) : string :=
  match s with
  | EmptyString => EmptyString
  | String c r => if p c then lstrip_by p r else s
  end.

Fixpoint rstrip_by (p : ascii -> bool) (s : string) : string :=
  match s with
  | EmptyString => EmptyString
  | String c r =>
      match rstrip_by p r with
      | EmptyString => if p c then EmptyString else String c EmptyString
      | r' => String c r'
      end
  end.

Definition strip_by (p : ascii -> bool) (s : string) : string :=
  rstrip_by p (lstrip_by p s).

Definition strip : string -> string := strip_by isspace.
Definition lstrip (chars : string) : string -> string :=
  lstrip_by (fun c => mem c chars).
Definition rstrip (chars : string) : string -> string :=
  rstrip_by (fun c => mem c chars).
Definition strip_chars (chars : string) : string -> string :=
  strip_by (fun c => mem c chars).

(** [s.startswith(p)]. *)
Fixpoint startswith (s p : string) {struct p} : bool :=
  match p, s with
  | EmptyString, _ => true
  | String _ _, EmptyString => false
  | String a p', String b s' => Ascii.eqb a b && startswith s' p'
  end.

(** [p in s]. *)
Fixpoint contains (p s : string) : bool :=
  startswith s p ||
  match s with
  | EmptyString => false
  | String _ r => contains p r
  end.

(** [s.split(sep)] for a separator of one character. *)
Fixpoint split (sep : ascii) (s : string) : list string :=
  match s with
  | EmptyString => [EmptyString]
  | String c r =>
      if Ascii.eqb c sep then EmptyString :: split sep r
      else match split sep r with
           | h :: t => String c h :: t
           | [] => [String c EmptyString]
           end
  end.

(** [s.partition(sep)]: the text before the first [sep] and the text
    after it, or nothing when [sep] does not occur. *)
Fixpoint partition (sep : ascii) (s : string) : option (string * string) :=
  match s with
  | EmptyString => None
  | String c r =>
      if Ascii.eqb c sep then Some (EmptyString, r)
      else match partition sep r with
           | Some (a, b) => Some (String c a, b)
           | None => None
           end
  end.

(** [s.split(sep, 1)[0]]. *)
Definition before (sep : ascii) (s : string) : string :=
  match partition sep s with
  | Some (a, _) => a
  | None => s
  end.

(** [s.replace(c, "")]. *)
Fixpoint remove (p : ascii -> bool) (s : string) : string :=
  match s with
  | EmptyString => EmptyString
  | String c r => if p c then remove p r else String c (remove p r)
  end.

Fixpoint all (p : ascii -> bool) (s : string) : bool :=
  match s with
  | EmptyString => true
  | String c r => p c && all p r
  end.

(** [sep.join(parts)]. *)
Fixpoint join (sep : string) (parts : list string) : string :=
  match parts with
  | [] => EmptyString
  | [x] => x
  | x :: rest => x ++ sep ++ join sep rest
  end.

(** Truth value of a string: [bool(s)]. *)
Definition truthy (s : string) : bool :=
  match s with
  | EmptyString => false
  | String _ _ => true
  end.

(** [a or b] on strings. *)
Definition or_else (a b : string) : string := if truthy a then a else b.

End PyStr.

(** ** [urllib.parse.urlparse]

    The library function as CPython 3.11 defines it for [str] arguments,
    as far as the scheme, the network location and the path go.  The
    check [_checknetloc] (a [ValueError] when NFKC normalisation turns
    the network location into one that holds [/], [?], [#], [@] or [:])
    never fails on characters up to U+00FF, the only ones a [string]
    holds here, and is left out: what is proved of [urlparse] is proved
    of texts in that range.  The validation of a bracketed host (an IP
    literal) is left to the parameter [check_bracketed_netloc]. *)

Module UrlParse.
Import PyStr.

Record ParseResult : Type := mkParseResult {
  scheme : string;
  netloc : string;
  path : string
}.

Definition scheme_chars : string :=
  "abcdefghijklmnopqrstuvwxyzABCDEFGHIJKLMNOPQRSTUVWXYZ0123456789+-.".

Definition uses_params : list string :=
  [""; "ftp"; "hdl"; "prospero"; "http"; "imap"; "https"; "shttp"; "rtsp";
   "rtspu"; "sip"; "sips"; "mms"; "sftp"; "tel"].

Definition c0_control_or_space (c : ascii) : bool := (code c <=? 32)%nat.

Definition unsafe_to_remove (c : ascii) : bool :=
  (code c =? 9)%nat || (code c =? 13)%nat || (code c =? 10)%nat.

(** [_splitnetloc(url, 2)], given the text after the two slashes. *)
Fixpoint splitnetloc (s : string) : string * string :=
  match s with
  | EmptyString => (EmptyString, EmptyString)
  | String c r =>
      if mem c "/?#" then (EmptyString, s)
      else let (n, rest) := splitnetloc r in (String c n, rest)
  end.

(** The text before the last [sep] and the text after it. *)
Fixpoint rpartition (sep : ascii) (s : string) : option (string * string) :=
  match s with
  | EmptyString => None
  | String c r =>
      match rpartition sep r with
      | Some (a, b) => Some (String c a, b)
      | None => if Ascii.eqb c sep then Some (EmptyString, r) else None
      end
  end.

(** First component of [_splitparams(url)]. *)
Definition splitparams (url : string) : string :=
  match rpartition "/" url with
  | Some (a, b) => a ++ "/" ++ before ";" b
  | None => before ";" url
  end.

Definition split_scheme (url : string) : string * string :=
  match url, partition ":" url with
  | String c0 _, Some (pre, post) =>
      if truthy pre && isasciialpha c0
         && all (fun c => mem c scheme_chars) pre
      then (lower pre, post)
      else (EmptyString, url)
  | _, _ => (EmptyString, url)
  end.

Section Parse.

Variable check_bracketed_netloc : string -> bool.

Definition split_authority (url : string) : result (string * string) :=
  match url with
  | String "/" (String "/" rest) =>
      let (nl, url') := splitnetloc rest in
      if (mem "[" nl && negb (mem "]" nl)) || (mem "]" nl && negb (mem "[" nl))
      then Raise ValueError
      else if mem "[" nl && mem "]" nl && negb (check_bracketed_netloc nl)
      then Raise ValueError
      else Ok (nl, url')
  | _ => Ok (EmptyString, url)
  end.

Definition urlsplit (url : string) : result ParseResult :=
  let url := lstrip_by c0_control_or_space url in
  let url := remove unsafe_to_remove url in
  let (sch, url) := split_scheme url in
  '(nl, url) ← split_authority url;
  let url := before "#" url in
  let url := before "?" url in
  Ok (mkParseResult sch nl url).

Definition urlparse (url : string) : result ParseResult :=
  r ← urlsplit url;
  if existsb (String.eqb (scheme r)) uses_params && mem ";" (path r)
  then Ok (mkParseResult (scheme r) (netloc r) (splitparams (path r)))
  else Ok r.

End Parse.
End UrlParse.

(** ** Utilities of [MrLYDownload.py] *)

Section Utilities.
Import PyStr.

Variable check_bracketed_netloc : string -> bool.

Let urlparse := UrlParse.urlparse check_bracketed_netloc.

(** The character class [[A-Za-z0-9._-]]. *)
Definition slug_char (c : ascii) : bool :=
  between 65 90 c || between 97 122 c || between 48 57 c || mem c "._-".

(** [re.sub(r"[^A-Za-z0-9._-]+", "_", s)]: every maximal run of characters
    outside the class becomes one underscore.  [in_run] tells that the
    previous character was outside the class. *)
Fixpoint sub_runs (in_run : bool) (s : string) : string :=
  match s with
  | EmptyString => EmptyString
  | String c r =>
      if slug_char c then String c (sub_runs false r)
      else if in_run then sub_runs true r
      else String "_" (sub_runs true r)
  end.

Definition slugify (s : string) : string :=
  let s := sub_runs false (strip s) in
  or_else (strip_chars "_" s) "download".

Definition detect_platform (url_or_user : string) : result string :=
  let text := lower (strip url_or_user) in
  if startswith text "http" then
    p ← urlparse text;
    let host := lower (UrlParse.netloc p) in
    if contains "youtu" host then Ok "YouTube"
    else if contains "tiktok.com" host then Ok "TikTok"
    else if contains "instagram.com" host then Ok "Instagram"
    else if contains "facebook.com" host || contains "fb.watch" host
    then Ok "Facebook"
    else Ok "Auto Detect"
  else Ok "Auto Detect".

Definition build_url_from_username (platform username : string)
  : option string :=
  let u := lstrip "@" (strip username) in
  if negb (truthy u) then None
  else if String.eqb platform "YouTube"
  then Some ("https://www.youtube.com/@" ++ u)
  else if String.eqb platform "TikTok"
  then Some ("https://www.tiktok.com/@" ++ u)
  else if String.eqb platform "Instagram"
  then Some ("https://www.instagram.com/" ++ u ++ "/")
  else if String.eqb platform "Facebook"
  then Some ("https://www.facebook.com/" ++ u)
  else None.

Definition derive_folder_name (platform url : string) : string :=
  try_except
    (p ← urlparse url;
     let last :=
       slugify (List.last
                  (split "/" (or_else (rstrip "/" (UrlParse.path p)) "/"))
                  EmptyString) in
     let host := List.hd EmptyString (split ":" (UrlParse.netloc p)) in
     let last := if negb (truthy last) then slugify (UrlParse.netloc p)
                 else last in
     Ok (slugify (host ++ "_" ++ last)))
    (slugify url).

End Utilities.

(** ** [datetime]: naive date-times, day arithmetic, [%Y%m%d]

    [datetime.now()], [+ timedelta(days=n)], [strftime] and [strptime] as
    CPython 3.11 defines them, for the one format the program uses. *)

Module DateTime.
Import PyStr.
Local Open Scope Z_scope.

Record datetime : Type := mkdatetime {
  year : Z;
  month : Z;
  day : Z;
  hour : Z;
  minute : Z;
  second : Z;
  microsecond : Z
}.

Definition MINYEAR : Z := 1.
Definition MAXYEAR : Z := 9999.

Definition is_leap (y : Z) : bool :=
  (y mod 4 =? 0) && (negb (y mod 100 =? 0) || (y mod 400 =? 0)).

Definition days_in_month (y m : Z) : Z :=
  if m =? 2 then (if is_leap y then 29 else 28)
  else if (m =? 4) || (m =? 6) || (m =? 9) || (m =? 11) then 30
  else 31.

(** The checks of the [date(year, month, day)] constructor. *)
Definition check_date_fields (y m d : Z) : bool :=
  (MINYEAR <=? y) && (y <=? MAXYEAR) && (1 <=? m) && (m <=? 12)
  && (1 <=? d) && (d <=? days_in_month y m).

(** What [datetime.now()] can return. *)
Definition valid_datetime (t : datetime) : bool :=
  check_date_fields (year t) (month t) (day t)
  && (0 <=? hour t) && (hour t <? 24)
  && (0 <=? minute t) && (minute t <? 60)
  && (0 <=? second t) && (second t <? 60)
  && (0 <=? microsecond t) && (microsecond t <? 1000000).

(** [datetime(y, m, d)]: midnight at the start of the day. *)
Definition midnight (y m d : Z) : result datetime :=
  if check_date_fields y m d then Ok (mkdatetime y m d 0 0 0 0)
  else Raise ValueError.

(** [a > b] on naive date-times: the fields compared in order. *)
Definition fields (t : datetime) : list Z :=
  [year t; month t; day t; hour t; minute t; second t; microsecond t].

Fixpoint lex_gt (a b : list Z) : bool :=
  match a, b with
  | x :: a', y :: b' => (y <? x) || ((x =? y) && lex_gt a' b')
  | _ :: _, [] => true
  | [], _ => false
  end.

Definition gt (a b : datetime) : bool := lex_gt (fields a) (fields b).

(** One day later, one day earlier; the time of day is kept. *)
Definition next_day (t : datetime) : result datetime :=
  let (y, m, d, hh, mm, ss, us) := t in
  if d <? days_in_month y m then Ok (mkdatetime y m (d + 1) hh mm ss us)
  else if m <? 12 then Ok (mkdatetime y (m + 1) 1 hh mm ss us)
  else if y <? MAXYEAR then Ok (mkdatetime (y + 1) 1 1 hh mm ss us)
  else Raise OverflowError.

Definition prev_day (t : datetime) : result datetime :=
  let (y, m, d, hh, mm, ss, us) := t in
  if 1 <? d then Ok (mkdatetime y m (d - 1) hh mm ss us)
  else if 1 <? m
  then Ok (mkdatetime y (m - 1) (days_in_month y (m - 1)) hh mm ss us)
  else if MINYEAR <? y then Ok (mkdatetime (y - 1) 12 31 hh mm ss us)
  else Raise OverflowError.

(** [t + timedelta(days=n)]: [n] steps of one day.  A [timedelta] holds
    at most 999999999 days, and a date outside years 1 to 9999 is an
    [OverflowError]. *)
Definition add_days (t : datetime) (n : Z) : result datetime :=
  if 999999999 <? Z.abs n then Raise OverflowError
  else if 0 <=? n
  then Z.iter n (fun r => r ≫= next_day) (Ok t)
  else Z.iter (- n) (fun r => r ≫= prev_day) (Ok t).

(** Decimal digits. *)
Definition digit_char (n : Z) : ascii := ascii_of_nat (48 + Z.to_nat n).
Definition digit_val (c : ascii) : Z := Z.of_nat (code c) - 48.

(** The [w] lowest decimal digits of [n], highest first. *)
Fixpoint dec (w : nat) (n : Z) : string :=
  match w with
  | O => EmptyString
  | S w' => dec w' (n / 10) ++ String (digit_char (n mod 10)) EmptyString
  end.

(** [%Y] as glibc prints it: no padding of a year below 1000. *)
Definition str_year (y : Z) : string :=
  if y <? 10 then dec 1 y
  else if y <? 100 then dec 2 y
  else if y <? 1000 then dec 3 y
  else dec 4 y.

(** [t.strftime("%Y%m%d")]. *)
Definition strftime_Ymd (t : datetime) : string :=
  str_year (year t) ++ dec 2 (month t) ++ dec 2 (day t).

(** The groups of the regular expression that [_strptime] builds for
    ["%Y%m%d"]; each returns its matches in the order the alternatives
    are tried, with the value read and the text left. *)
Definition match_Y (s : string) : option (Z * string) :=
  match s with
  | String a (String b (String c (String d r))) =>
      if isdigit a && isdigit b && isdigit c && isdigit d
      then Some (1000 * digit_val a + 100 * digit_val b
                 + 10 * digit_val c + digit_val d, r)
      else None
  | _ => None
  end.

(** Two characters [a], [b] with [p1 a] and [p2 b], read by [int()]: a
    leading blank counts for nothing. *)
Definition alt2 (p1 p2 : ascii -> bool) (s : string) : list (Z * string) :=
  match s with
  | String a (String b r) =>
      if p1 a && p2 b
      then [(10 * (if isdigit a then digit_val a else 0) + digit_val b, r)]
      else []
  | _ => []
  end.

Definition alt1 (p : ascii -> bool) (s : string) : list (Z * string) :=
  match s with
  | String a r => if p a then [(digit_val a, r)] else []
  | _ => []
  end.

(** [1[0-2]|0[1-9]|[1-9]] *)
Definition match_m (s : string) : list (Z * string) :=
  alt2 (Ascii.eqb "1") (between 48 50) s
  ++ alt2 (Ascii.eqb "0") (between 49 57) s
  ++ alt1 (between 49 57) s.

(** [3[0-1]|[1-2]\d|0[1-9]|[1-9]| [1-9]] *)
Definition match_d (s : string) : list (Z * string) :=
  alt2 (Ascii.eqb "3") (between 48 49) s
  ++ alt2 (between 49 50) isdigit s
  ++ alt2 (Ascii.eqb "0") (between 49 57) s
  ++ alt1 (between 49 57) s
  ++ alt2 (Ascii.eqb " ") (between 49 57) s.

(** The month and day groups: the first match in backtracking order. *)
Definition match_md (s : string) : option (Z * Z * string) :=
  List.hd_error
    (List.flat_map
       (fun '(m, r2) => List.map (fun '(d, r3) => (m, d, r3)) (match_d r2))
       (match_m s)).

(** [format_regex.match(data_string)]. *)
Definition regex_match (s : string) : option (Z * Z * Z * string) :=
  match match_Y s with
  | None => None
  | Some (y, r1) =>
      match match_md r1 with
      | Some (m, d, r3) => Some (y, m, d, r3)
      | None => None
      end
  end.

(** [datetime.strptime(s, "%Y%m%d")]. *)
Definition strptime_Ymd (s : string) : result datetime :=
  match regex_match s with
  | None => Raise ValueError
  | Some (y, m, d, rest) =>
      if truthy rest then Raise ValueError else midnight y m d
  end.

(** The day of [a] is before the day of [b]; both have the same time of
    day. *)
Definition date_before (a b : datetime) : Prop :=
  year a < year b
  \/ (year a = year b
      /\ (month a < month b \/ (month a = month b /\ day a < day b))).

Definition same_time (a b : datetime) : Prop :=
  hour a = hour b /\ minute a = minute b /\ second a = second b
  /\ microsecond a = microsecond b.

(** The ten digits, and a check of [match_md] on four of them against
    the reading by position (used by enumeration). *)
Definition digit_chars : list ascii :=
  ["0"; "1"; "2"; "3"; "4"; "5"; "6"; "7"; "8"; "9"]%char.

Definition month_day_in_range (m d : Z) : bool :=
  (1 <=? m) && (m <=? 12) && (1 <=? d) && (d <=? 31).

Definition check_md (m1 m2 d1 d2 : ascii) : bool :=
  let m := 10 * digit_val m1 + digit_val m2 in
  let d := 10 * digit_val d1 + digit_val d2 in
  match match_md (String m1 (String m2 (String d1 (String d2 EmptyString)))) with
  | Some (m', d', EmptyString) =>
      (m' =? m) && (d' =? d) && month_day_in_range m d
  | _ => negb (month_day_in_range m d)
  end.

End DateTime.

(** ** License key *)

Module License.
Import PyStr DateTime.

(** [string.ascii_uppercase + string.digits] *)
Definition chars : string := "ABCDEFGHIJKLMNOPQRSTUVWXYZ0123456789".

Definition getitem (population : string) (i : nat) : ascii :=
  match String.get i population with
  | Some c => c
  | None => "000"%char
  end.

(** [''.join(random.choices(population, k=k))].  The generator is the
    sequence [rng] of the indices it draws, the [i]-th draw being
    [floor(random() * len(population))]; [start] counts the draws made
    before. *)
Definition choices (rng : nat -> nat) (population : string) (start k : nat)
  : string :=
  string_of_list_ascii
    (List.map (fun i => getitem population (rng i)) (List.seq start k)).

Definition generate_license (now : datetime) (rng : nat -> nat)
    (exp_days : Z) : result string :=
  let parts := List.map (fun j => choices rng chars (4 * j) 4) (List.seq 0 3) in
  exp ← add_days now exp_days;
  let exp_date := strftime_Ymd exp in
  let key := join "-" (parts ++ [exp_date]) in
  Ok key.

Definition validate_license (now : datetime) (key : string) : bool :=
  try_except
    (let parts := split "-" (strip key) in
     if negb (List.length parts =? 4)%nat then Ok false
     else
       exp_date ← strptime_Ymd (List.nth 3 parts EmptyString);
       if gt now exp_date then Ok false
       else Ok true)
    false.

End License.

(** ** Python [float] arithmetic (IEEE 754 binary64, round to nearest even)

    Only what [int(((ok + fail) / max(1, total)) * 100)] needs: finite,
    non-negative values.  A value is a mantissa and an exponent. *)

Module PyFloat.
Local Open Scope Z_scope.

Record float : Type := mkfloat { mant : Z; expo : Z }.

Definition prec : Z := 53.
Definition emin : Z := -1074.

(** The quotient [a / b] rounded to the nearest integer, ties to even. *)
Definition div_half_even (a b : Z) : Z :=
  let q := a / b in
  match 2 * (a mod b) ?= b with
  | Lt => q
  | Gt => q + 1
  | Eq => if Z.even q then q else q + 1
  end.

(** The fraction [a / (b * 2^e)] as a pair of integers. *)
Definition scaled (a b e : Z) : Z * Z :=
  if 0 <=? e then (a, b * 2 ^ e) else (a * 2 ^ (- e), b).

(** The float nearest to the rational [a / b], for [0 <= a] and [0 < b]:
    the exponent [e] is the one that puts [a / (b * 2^e)] between [2^52]
    and [2^53] (or [emin] for a subnormal), the mantissa is that scaled
    quotient rounded.  No overflow is modelled (the values met are at
    most 100). *)
Definition round_frac (a b : Z) : float :=
  if a =? 0 then mkfloat 0 0
  else
    let e0 := Z.log2 a - Z.log2 b - prec in
    let (n0, d0) := scaled a b e0 in
    let e := Z.max (if 2 ^ prec * d0 <=? n0 then e0 + 1 else e0) emin in
    let (n, d) := scaled a b e in
    mkfloat (div_half_even n d) e.

(** [a / b] on integers (true division, correctly rounded). *)
Definition truediv (a b : Z) : float := round_frac a b.

(** [x * c] for a float [x] and a small integer [c]. *)
Definition mul_int (x : float) (c : Z) : float :=
  if 0 <=? expo x then round_frac (mant x * c * 2 ^ expo x) 1
  else round_frac (mant x * c) (2 ^ (- expo x)).

(** [int(x)]: truncation. *)
Definition to_int (x : float) : Z :=
  if 0 <=? expo x then mant x * 2 ^ expo x
  else mant x / 2 ^ (- expo x).

End PyFloat.

(** The percentage of [Worker.run]:
    [int(((self.ok + self.fail) / max(1, self.total)) * 100)]. *)
Definition percent (ok fail total : Z) : Z :=
  PyFloat.to_int
    (PyFloat.mul_int (PyFloat.truediv (ok + fail) (Z.max 1 total)) 100).

(** The same computation with the IEEE 754 specification of the Standard
    Library, at the parameters of binary64; it serves to check the model
    above. *)
Definition sf_of_Z (n : Z) : spec_float := binary_normalize 53 1024 n 0 false.

Definition sf_to_int (x : spec_float) : Z :=
  match x with
  | S754_finite s m e =>
      let v := if (0 <=? e)%Z then (Z.pos m * 2 ^ e)%Z
               else (Z.pos m / 2 ^ (- e))%Z in
      if s then (- v)%Z else v
  | _ => 0%Z
  end.

Definition percent_ieee (ok fail total : Z) : Z :=
  sf_to_int
    (SFmul 53 1024
       (SFdiv 53 1024 (sf_of_Z (ok + fail)) (sf_of_Z (Z.max 1 total)))
       (sf_of_Z 100)).

Definition agree_upto (N : nat) : bool :=
  forallb
    (fun n =>
       forallb
         (fun k =>
            (percent (Z.of_nat k) 0 (Z.of_nat n)
             =? percent_ieee (Z.of_nat k) 0 (Z.of_nat n))%Z)
         (List.seq 0 (S n)))
    (List.seq 0 (S N)).

(** ** [os.path.join] (POSIX flavour) *)

Module PosixPath.
Import PyStr.

Fixpoint endswith_char (s : string) (c : ascii) : bool :=
  match s with
  | EmptyString => false
  | String a EmptyString => Ascii.eqb a c
  | String _ r => endswith_char r c
  end.

Definition join2 (path b : string) : string :=
  if startswith b "/" then b
  else if negb (truthy path) || endswith_char path "/" then path ++ b
  else path ++ "/" ++ b.

Definition join (a : string) (p : list string) : string :=
  List.fold_left join2 p a.

End PosixPath.

(** ** Items, signals and the worker's surroundings *)

Record DownloadItem : Type := mkDownloadItem {
  platform : string;
  input_type : string;
  raw_text : string;
  resolved_url : option string;
  out_dir : option string
}.

(** Values held by the dictionaries of the program. *)
Inductive pyval : Type :=
| VNone
| VInt (n : Z)
| VStr (s : string)
| VBool (b : bool)
| VLogger (prefix : string)
| VHooks
| VDict (d : gmap string string).

(** The lines of text the program emits, by the format string that
    builds them. *)
Inductive message : Type :=
| NotInstalled
| Preparing (idx : nat) (total : Z) (raw : string)
| Downloading (idx : nat) (total : Z) (url : string)
| UsingCookieFile (cookie_path : string)
| DownloadKilled
| Finished (url outdir : string)
| Failed (url : string)
| Error (e : exn)
| HookPercent (pct : Z) (filename : pyval)
| PostProcessing (filename : pyval).

(** [DownloaderSignals]. *)
Inductive signal : Type :=
| log (m : message)
| progress (pct : Z)
| item_progress (m : message)
| counts (total ok fail : Z)
| done.

(** What the worker does to the outside, in order. *)
Inductive effect : Type :=
| Emit (s : signal)
| Makedirs (outdir : string)
| Popen (cmd : list string)
| Kill.

(** What one child process does, as [Popen] and the polling loop see it. *)
Inductive child_run : Type :=
| popen_raises
| exits (returncode : Z)
| killed (returncode : option Z)
| hangs.

(** The surroundings of one pass through the loop of [Worker.run]:
    - [stop_is_set]: [stop_flag.is_set()] at the top of the loop;
    - [makedirs_raises]: [os.makedirs] fails;
    - [path_exists]: [os.path.exists];
    - [child]: [popen_raises] when [subprocess.Popen] fails; [exits rc]
      when [poll()] ends up returning [rc] with the flag never seen set;
      [killed rc] when the flag is seen set while the child is alive,
      [rc] being [proc.returncode] after [proc.kill()]; [hangs] when the
      child never exits and the flag is never set. *)
Record item_env : Type := mkitem_env {
  stop_is_set : bool;
  makedirs_raises : bool;
  path_exists : string -> bool;
  child : child_run
}.

(** The fields of [Worker] that change. *)
Record wstate : Type := mkwstate {
  ok : Z;
  fail : Z;
  items : list DownloadItem;
  processes : list (list string)
}.

(** A statement of the worker: from a state to the effects made, the new
    state, and how it ended: [Some (Ok a)] normally, [Some (Raise e)] by
    an exception, [None] when it never ends. *)
Definition io (A : Type) : Type :=
  wstate -> list effect * wstate * option (result A).

#[global] Instance io_ret : MRet io := fun A a s => ([], s, Some (Ok a)).

#[global] Instance io_bind : MBind io := fun A B k m s =>
  match m s with
  | (w, s', Some (Ok a)) =>
      let '(w', s'', r) := k a s' in ((w ++ w')%list, s'', r)
  | (w, s', Some (Raise e)) => (w, s', Some (Raise e))
  | (w, s', None) => (w, s', None)
  end.

Definition perform (e : effect) : io unit := fun s => ([e], s, Some (Ok tt)).
Definition emit (x : signal) : io unit := perform (Emit x).
Definition lift {A : Type} (r : result A) : io A := fun s => ([], s, Some r).
Definition raise {A : Type} (e : exn) : io A := lift (Raise e).
Definition never {A : Type} : io A := fun s => ([], s, None).
Definition get_state : io wstate := fun s => ([], s, Some (Ok s)).
Definition modify (f : wstate -> wstate) : io unit :=
  fun s => ([], f s, Some (Ok tt)).

(** [try: body  except Exception as e: handler e  finally: final]. *)
Definition try_except_finally (body : io unit) (handler : exn -> io unit)
    (final : io unit) : io unit :=
  fun s =>
    match body s with
    | (w, s', Some (Ok tt)) =>
        let '(w', s'', r) := final s' in ((w ++ w')%list, s'', r)
    | (w, s', Some (Raise e)) =>
        let '(w', s'', r) := (handler e ;; final) s' in ((w ++ w')%list, s'', r)
    | (w, s', None) => (w, s', None)
    end.

(** ** [Worker] *)

Section Worker.
Import PyStr.

(** [sys.executable], the [yt_dlp] module ([false] when the import
    failed and the name is [None]), and the arguments of
    [Worker.__init__]. *)
Variable check_bracketed_netloc : string -> bool.
Variable executable : string.
Variable yt_dlp : bool.
Variable items0 : list DownloadItem.
Variable cookie_text0 : string.
Variable base_dir : string.
Variable env : nat -> item_env.

Definition cookie_text : string := strip cookie_text0.
Definition total : Z := Z.of_nat (List.length items0).
Definition init : wstate := mkwstate 0 0 items0 [].

Definition outtmpl : string := "%(title).80s [%(id)s].%(ext)s".

(** [fmt] and [merge_fmt] for a platform. *)
Definition select_format (platform : string) : string * option string :=
  if existsb (String.eqb platform) ["TikTok"; "Instagram"; "Facebook"]
  then ("best[ext=mp4][height<=1080]", None)
  else ("bestvideo[height<=1080]+bestaudio/best", Some "mp4").

(** [self.cookie_text.split(":",1)[1].strip()] *)
Definition cookie_file_path : result string :=
  match partition ":" cookie_text with
  | Some (_, rest) => Ok (strip rest)
  | None => Raise IndexError
  end.

(** The dictionary [ydl_opts] as first written, then with
    [merge_output_format]. *)
Definition base_opts (platform outdir fmt : string)
    (merge_fmt : option string) : gmap string pyval :=
  let ydl_opts : gmap string pyval :=
    <["logger" := VLogger ("[" ++ platform ++ "] ")]>
    (<["progress_hooks" := VHooks]>
    (<["outtmpl" := VStr (PosixPath.join outdir [outtmpl])]>
    (<["concurrent_fragment_downloads" := VInt 4]>
    (<["retries" := VInt 5]>
    (<["ignoreerrors" := VStr "only_download"]>
    (<["noprogress" := VBool true]>
    (<["format" := VStr fmt]> ∅))))))) in
  match merge_fmt with
  | Some m => if truthy m then <["merge_output_format" := VStr m]> ydl_opts
              else ydl_opts
  | None => ydl_opts
  end.

(** The cookie part of the options: [if self.cookie_text: ...] up to
    [if headers: ...]. *)
Definition cookie_opts (idx : nat) (ydl_opts : gmap string pyval)
  : io (gmap string pyval) :=
  let headers : gmap string string := ∅ in
  '(ydl_opts, headers) ←
    (if truthy cookie_text then
       if startswith (upper cookie_text) "COOKIEFILE:" then
         cookie_path ← lift cookie_file_path;
         if path_exists (env idx) cookie_path then
           emit (log (UsingCookieFile cookie_path));;
           mret (<["cookiefile" := VStr cookie_path]> ydl_opts, headers)
         else mret (ydl_opts, headers)
       else mret (ydl_opts, <["Cookie" := cookie_text]> headers)
     else mret (ydl_opts, headers));
  mret (if bool_decide (headers = ∅) then ydl_opts
        else <["http_headers" := VDict headers]> ydl_opts).

(** The command line [cmd]. *)
Definition build_cmd (url outdir fmt : string) (merge_fmt : option string)
  : result (list string) :=
  let cmd := [executable; "-m"; "yt_dlp"; url; "-o";
              PosixPath.join outdir [outtmpl]; "-f"; fmt] in
  let cmd := match merge_fmt with
             | Some m => if truthy m
                         then (cmd ++ ["--merge-output-format"; m])%list
                         else cmd
             | None => cmd
             end in
  if startswith (upper cookie_text) "COOKIEFILE:" then
    p ← cookie_file_path;
    Ok (cmd ++ ["--cookies"; p])%list
  else Ok cmd.

(** [os.makedirs(outdir, exist_ok=True)]. *)
Definition makedirs (idx : nat) (outdir : string) : io unit :=
  perform (Makedirs outdir);;
  if makedirs_raises (env idx) then raise OSError else mret tt.

(** [item.out_dir = outdir]; the item is the one at position [idx],
    counted from 1. *)
Definition set_out_dir (idx : nat) (outdir : string) : io unit :=
  modify (fun s =>
    mkwstate (ok s) (fail s)
      (alter (fun it => mkDownloadItem (platform it) (input_type it)
                          (raw_text it) (resolved_url it) (Some outdir))
             (pred idx) (items s))
      (processes s)).

(** [proc = subprocess.Popen(cmd)], [self.processes.append(proc)] and the
    polling loop; the value is [proc.returncode] after the loop. *)
Definition popen_and_poll (idx : nat) (cmd : list string) : io (option Z) :=
  perform (Popen cmd);;
  match child (env idx) with
  | popen_raises => raise OSError
  | c =>
      modify (fun s => mkwstate (ok s) (fail s) (items s)
                         (processes s ++ [cmd])%list);;
      match c with
      | exits rc => mret (Some rc)
      | killed rc =>
          perform Kill;; emit (log DownloadKilled);; mret rc
      | _ => never
      end
  end.

Definition incr_ok : io unit :=
  modify (fun s => mkwstate (ok s + 1) (fail s) (items s) (processes s)).
Definition incr_fail : io unit :=
  modify (fun s => mkwstate (ok s) (fail s + 1) (items s) (processes s)).

(** [item.resolved_url or item.raw_text.strip()] *)
Definition fetch_url (item : DownloadItem) : string :=
  match resolved_url item with
  | Some u => or_else u (strip (raw_text item))
  | None => strip (raw_text item)
  end.

(** [item.platform if item.platform != "Auto Detect" else
    detect_platform(url)] *)
Definition resolve_platform (item : DownloadItem) (url : string)
  : result string :=
  if negb (String.eqb (platform item) "Auto Detect") then Ok (platform item)
  else detect_platform check_bracketed_netloc url.

(** [folder_name] and [outdir]. *)
Definition outdir_for (platform url : string) : string :=
  let folder_name :=
    derive_folder_name check_bracketed_netloc (or_else platform "Auto") url in
  PosixPath.join base_dir [or_else platform "Auto"; folder_name].

(** The body of the [try]. *)
Definition try_body (idx : nat) (item : DownloadItem) : io unit :=
  emit (item_progress (Preparing idx total (raw_text item)));;
  let url := fetch_url item in
  platform ← lift (resolve_platform item url);
  let outdir := outdir_for platform url in
  makedirs idx outdir;;
  set_out_dir idx outdir;;
  let '(fmt, merge_fmt) := select_format platform in
  let ydl_opts := base_opts platform outdir fmt merge_fmt in
  ydl_opts ← cookie_opts idx ydl_opts;
  cmd ← lift (build_cmd url outdir fmt merge_fmt);
  emit (item_progress (Downloading idx total url));;
  returncode ← popen_and_poll idx cmd;
  if bool_decide (returncode = Some 0%Z) then
    incr_ok;; emit (log (Finished url outdir))
  else
    incr_fail;; emit (log (Failed url)).

Definition except_handler (e : exn) : io unit :=
  incr_fail;; emit (log (Error e)).

Definition finally_block : io unit :=
  s ← get_state;
  emit (counts total (ok s) (fail s));;
  let pct := percent (ok s) (fail s) total in
  emit (progress pct).

(** The [for] loop; [idx] is the number of the first item of [its]. *)
Fixpoint loop (idx : nat) (its : list DownloadItem) : io unit :=
  match its with
  | [] => mret tt
  | item :: rest =>
      if stop_is_set (env idx) then mret tt
      else
        try_except_finally (try_body idx item) except_handler finally_block;;
        loop (S idx) rest
  end.

Definition run : io unit :=
  if negb yt_dlp then
    emit (log NotInstalled);;
    emit done
  else
    loop 1 items0;;
    emit done.

(** The signals of a run, in order. *)
Definition signals_of (w : list effect) : list signal :=
  omap (fun e => match e with Emit x => Some x | _ => None end) w.

End Worker.

(** ** [Worker._hook] *)

Section Hook.
Import PyStr.

Definition val_truthy (v : pyval) : bool :=
  match v with
  | VNone => false
  | VInt n => negb (n =? 0)%Z
  | VStr s => truthy s
  | VBool b => b
  | VDict d => negb (bool_decide (d = ∅))
  | _ => true
  end.

(** [d.get(key)] and [d.get(key, default)]. *)
Definition dict_get (d : gmap string pyval) (key : string) (dflt : pyval)
  : pyval :=
  default dflt (d !! key).

Definition val_or (a b : pyval) : pyval := if val_truthy a then a else b.

Definition is_str (v : pyval) (s : string) : bool :=
  match v with
  | VStr t => String.eqb t s
  | _ => false
  end.

(** [int(downloaded*100/max(1,total))] on integers. *)
Definition hook_percent (downloaded total : pyval) : result Z :=
  match downloaded, total with
  | VInt a, VInt b =>
      let n := (a * 100)%Z in
      if (0 <=? n)%Z
      then Ok (PyFloat.to_int (PyFloat.truediv n (Z.max 1 b)))
      else Ok (- PyFloat.to_int (PyFloat.truediv (- n) (Z.max 1 b)))%Z
  | _, _ => Raise TypeError
  end.

(** The local variable [pct] is [None] while it is not bound; reading it
    then is an [UnboundLocalError]. *)
Definition read_local (pct : option Z) : result Z :=
  match pct with
  | Some p => Ok p
  | None => Raise UnboundLocalError
  end.

Definition _hook (d : gmap string pyval) : io unit :=
  if is_str (dict_get d "status" VNone) "downloading" then
    let total := val_or (dict_get d "total_bytes" VNone)
                        (dict_get d "total_bytes_estimate" VNone) in
    let downloaded := dict_get d "downloaded_bytes" (VInt 0) in
    pct ← (if val_truthy total
           then p ← lift (hook_percent downloaded total); mret (Some p)
           else mret None);
    p ← lift (read_local pct);
    emit (item_progress (HookPercent p (dict_get d "filename" (VStr ""))))
  else if is_str (dict_get d "status" VNone) "finished" then
    emit (item_progress (PostProcessing (dict_get d "filename" (VStr ""))))
  else mret tt.

End Hook.

(** ** [MrLYDownloader._start]

    [lines] is [self.link_box.toPlainText().splitlines()].  The value is
    the list of items handed to the [Worker], or nothing when a warning
    box is shown instead. *)

Definition _start (now : DateTime.datetime) (license_text : string)
    (platform_choice input_choice : string) (lines : list string)
  : option (list DownloadItem) :=
  if negb (License.validate_license now license_text) then None
  else
    let lines := List.filter PyStr.truthy (List.map PyStr.strip lines) in
    match lines with
    | [] => None
    | _ =>
        Some (List.map
                (fun line => mkDownloadItem platform_choice input_choice line
                               None None)
                lines)
    end.

(** ** Reading a trace *)

(** The lines logged. *)
Definition logged (w : list effect) : list message :=
  omap (fun e => match e with Emit (log m) => Some m | _ => None end) w.

(** The [counts] and [progress] signals. *)
Definition tally (w : list effect) : list signal :=
  omap (fun e => match e with
                 | Emit (counts t o f) => Some (counts t o f)
                 | Emit (progress p) => Some (progress p)
                 | _ => None
                 end) w.

(** The number of items started: each pass through the [try] begins with
    one "Preparing" line. *)
Definition started (w : list effect) : nat :=
  List.length
    (omap (fun e => match e with
                    | Emit (item_progress (Preparing i t r)) => Some i
                    | _ => None
                    end) w).

(** The number of [done] signals. *)
Definition count_done (w : list effect) : nat :=
  List.length
    (omap (fun e => match e with Emit done => Some tt | _ => None end) w).

(** The child processes launched. *)
Definition launched (w : list effect) : list (list string) :=
  omap (fun e => match e with Popen cmd => Some cmd | _ => None end) w.

(** The number of passes the loop makes over [n] items numbered from
    [idx] when no child hangs: it stops at the first pass that finds the
    stop flag set. *)
Fixpoint planned (env : nat -> item_env) (idx n : nat) : nat :=
  match n with
  | O => O
  | S n' => if stop_is_set (env idx) then O else S (planned env (S idx) n')
  end.

(** A [counts] signal that fits a batch of [total] items. *)
Definition counts_within (total : Z) (x : signal) : Prop :=
  match x with
  | counts t o f => t = total /\ (0 <= o)%Z /\ (0 <= f)%Z /\ (o + f <= total)%Z
  | _ => True
  end.

(** A trace without [counts], [progress], [done] or "Preparing". *)
Definition silent (w : list effect) : Prop :=
  tally w = [] /\ count_done w = 0%nat /\ started w = 0%nat.

(** A statement that is silent and leaves both counters alone. *)
Definition quiet {A : Type} (m : io A) : Prop :=
  forall s,
    match m s with
    | (w, s', _) => silent w /\ ok s' = ok s /\ fail s' = fail s
    end.

(** One counter up by one, the other unchanged. *)
Definition one_more (s s' : wstate) : Prop :=
  (ok s' = ok s + 1 /\ fail s' = fail s)%Z
  \/ (ok s' = ok s /\ fail s' = fail s + 1)%Z.

(** A statement that is silent and counts one item when it ends
    normally, none otherwise. *)
Definition counted {A : Type} (m : io A) : Prop :=
  forall s,
    match m s with
    | (w, s', Some (Ok _)) => silent w /\ one_more s s'
    | (w, s', _) => silent w /\ ok s' = ok s /\ fail s' = fail s
    end.

(** The [counts] and [progress] signals of a batch of [total] items come
    in pairs, the percentage being computed from the counts before it. *)
Fixpoint well_tallied (total : Z) (l : list signal) : Prop :=
  match l with
  | [] => True
  | counts t o f :: progress p :: l' =>
      t = total /\ p = percent o f t /\ well_tallied total l'
  | _ => False
  end.

(** The [counts] and [progress] signals come in pairs, and each percentage
    is the quotient [100 * (ok + fail) / max(1, total)] cut to an integer:
    the floor [q], or [q - 1] when the quotient is the integer [q] and the
    two roundings of the floating-point computation end below it. *)
Fixpoint tally_truncated (l : list signal) : Prop :=
  match l with
  | [] => True
  | counts t o f :: progress p :: l' =>
      (p = percent o f t
       /\ let n := Z.max 1 t in
          let q := (100 * (o + f) / n)%Z in
          (q - 1 <= p <= q)%Z
          /\ ((100 * (o + f)) mod n <> 0 -> p = q)%Z
          /\ (o + f = n -> p = 100)%Z)
      /\ tally_truncated l'
  | _ => False
  end.

(** The pairs of a batch of [total] items after [k] items: each is a
    [counts] signal that carries the total and counters adding up to one
    item more than the pair before, followed by the percentage computed
    from those counters. *)
Fixpoint tally_counts_up (total k : Z) (l : list signal) : Prop :=
  match l with
  | [] => True
  | counts t o f :: progress p :: l' =>
      t = total /\ (o + f = k + 1)%Z /\ p = percent o f total
      /\ tally_counts_up total (k + 1) l'
  | _ => False
  end.

(** ** The statements of the specification that the program does not meet

    Each is written after the words of the specification, to be compared
    with the program. *)

(** The stop flag was seen set at some point of a run over [n] items. *)
Definition cancellation_seen (env : nat -> item_env) (n : nat) : Prop :=
  exists i, (1 <= i <= n)%nat
    /\ (stop_is_set (env i) = true \/ exists rc, child (env i) = killed rc).

(** "At [BatchDone] time, [succeeded + failed == total] unless
    cancellation occurred." *)
Definition C3_claimed_totals : Prop :=
  forall check_bracketed_netloc executable yt_dlp items0 cookie_text0
         base_dir env,
    match run check_bracketed_netloc executable yt_dlp items0 cookie_text0
            base_dir env (init items0) with
    | (w, s, r) =>
        In (Emit done) w ->
        ~ cancellation_seen env (List.length items0) ->
        (ok s + fail s)%Z = Z.of_nat (List.length items0)
    end.

(** "[round(100 * (succeeded+failed)/total)], with [total] floored at 1":
    the quotient rounded to the nearest integer. *)
Definition C4_claimed_percent (ok fail total : Z) : Z :=
  PyFloat.div_half_even (100 * (ok + fail)) (Z.max 1 total).

(** The destination the TikTok scenario names. *)
Definition C7_claimed_destination (base_dir : string) : string :=
  PosixPath.join base_dir ["TikTok"; "tiktok.com_123"].

(** "If the supplied cookie string begins with the literal prefix
    [COOKIEFILE:], the remainder is treated as a filesystem path and
    passed as a cookie-jar file only if that path exists (missing path:
    log a warning, proceed without cookies); otherwise the raw string, if
    non-empty, is passed as a literal [Cookie] request header."  The
    value is what is handed to the fetch process and whether a warning is
    logged. *)
Inductive cookie_pass : Type :=
| NoCookies
| CookieJar (cookie_path : string)
| CookieHeader (text : string).

Definition C5_claimed_policy (path_exists : string -> bool) (cookie : string)
  : cookie_pass * bool :=
  if PyStr.startswith cookie "COOKIEFILE:" then
    let cookie_path := String.substring 11 (String.length cookie - 11) cookie in
    if path_exists cookie_path then (CookieJar cookie_path, false)
    else (NoCookies, true)
  else if PyStr.truthy cookie then (CookieHeader cookie, false)
  else (NoCookies, false).

(** "A string of the shape [XXXX-XXXX-XXXX-YYYYMMDD] (three 4-character
    alphanumeric groups plus an 8-digit date) is accepted only if it
    parses and the date is not in the past, relative to the caller's
    clock": a date is taken as not in the past while the clock is not
    later than 00:00 of that day. *)
Definition isalnum (c : ascii) : bool :=
  PyStr.isasciialpha c || PyStr.isdigit c.

Definition is_group (g : string) : bool :=
  (String.length g =? 4)%nat && PyStr.all isalnum g.

Definition is_date8 (s : string) : bool :=
  (String.length s =? 8)%nat && PyStr.all PyStr.isdigit s.

(** The date written [YYYYMMDD], read digit by digit. *)
Definition embedded_date (s : string) : option DateTime.datetime :=
  match s with
  | String y1 (String y2 (String y3 (String y4
      (String m1 (String m2 (String d1 (String d2 EmptyString))))))) =>
      let dv := DateTime.digit_val in
      let y := (1000 * dv y1 + 100 * dv y2 + 10 * dv y3 + dv y4)%Z in
      let m := (10 * dv m1 + dv m2)%Z in
      let d := (10 * dv d1 + dv d2)%Z in
      if DateTime.check_date_fields y m d
      then Some (DateTime.mkdatetime y m d 0 0 0 0)
      else None
  | _ => None
  end.

Definition C2_shape (key : string) : bool :=
  match PyStr.split "-" key with
  | [a; b; c; d] => is_group a && is_group b && is_group c && is_date8 d
  | _ => false
  end.

Definition C2_claimed_validity (now : DateTime.datetime) (key : string)
  : bool :=
  C2_shape key
  && match embedded_date (List.nth 3 (PyStr.split "-" key) EmptyString) with
     | Some exp_date => negb (DateTime.gt now exp_date)
     | None => false
     end.

(** * The rest of the program *)

(** ** Constants *)

Definition PLATFORMS : list string :=
  ["Auto Detect"; "YouTube"; "TikTok"; "Instagram"; "Facebook"].

Definition INPUT_TYPES : list string := ["Auto Detect"; "URL"; "Username"].

(** ** Handlers of the window

    The state of the window is passed explicitly: each handler takes what
    it reads and returns what it writes. *)

(** [MrLYDownloader._pick_cookie_file].  [chosen] is the file name that
    [QFileDialog.getOpenFileName] returns, empty when the dialog is
    cancelled; the value is the new text of the cookie box. *)
Definition _pick_cookie_file (chosen cookie_box : string) : string :=
  if PyStr.truthy chosen then "COOKIEFILE:" ++ chosen else cookie_box.

(** ** Relations kept along a run

    A relation [R s w s'] between the state before, the effects made and
    the state after.  [keeps R m] says that every execution of the
    statement [m] is in [R], however it ends (normally, by an exception,
    or never). *)

Definition keeps {A : Type} (R : wstate -> list effect -> wstate -> Prop)
    (m : io A) : Prop :=
  forall s, match m s with (w, s', _) => R s w s' end.

(** [R] holds of doing nothing, and of one execution after another. *)
Record chained (R : wstate -> list effect -> wstate -> Prop) : Prop := {
  chained_nil : forall s, R s [] s;
  chained_app : forall s w s' w' s'',
      R s w s' -> R s' w' s'' -> R s (w ++ w')%list s''
}.

(** The steps of [Worker.run]: each field is one thing the worker does,
    with what is known at that point.  [url], [p] and [outdir] are the
    address, the platform and the directory of the item at hand. *)
Section Steps.

Variable check_bracketed_netloc : string -> bool.
Variable executable : string.
Variable items0 : list DownloadItem.
Variable cookie_text0 : string.
Variable base_dir : string.
Variable R : wstate -> list effect -> wstate -> Prop.

Definition counted_ok (s : wstate) : wstate :=
  mkwstate (ok s + 1) (fail s) (items s) (processes s).

Definition counted_fail (s : wstate) : wstate :=
  mkwstate (ok s) (fail s + 1) (items s) (processes s).

Definition with_out_dir (idx : nat) (outdir : string) (s : wstate) : wstate :=
  mkwstate (ok s) (fail s)
    (alter (fun it => mkDownloadItem (platform it) (input_type it)
                        (raw_text it) (resolved_url it) (Some outdir))
           (pred idx) (items s))
    (processes s).

Definition with_process (cmd : list string) (s : wstate) : wstate :=
  mkwstate (ok s) (fail s) (items s) (processes s ++ [cmd])%list.

(** The item at hand, its address, platform and directory. *)
Definition at_hand (item : DownloadItem) (url p outdir : string) : Prop :=
  In item items0
  /\ url = fetch_url item
  /\ resolve_platform check_bracketed_netloc item url = Ok p
  /\ outdir = outdir_for check_bracketed_netloc base_dir p url.

Record respects : Prop := {
  step_not_installed : forall s, R s [Emit (log NotInstalled)] s;
  step_preparing : forall idx item s,
      In item items0 ->
      R s [Emit (item_progress
                   (Preparing idx (total items0) (raw_text item)))] s;
  step_makedirs : forall item url p outdir s,
      at_hand item url p outdir -> R s [Makedirs outdir] s;
  step_out_dir : forall idx item url p outdir s,
      at_hand item url p outdir -> R s [] (with_out_dir idx outdir s);
  step_cookie_file : forall cookie_path s,
      R s [Emit (log (UsingCookieFile cookie_path))] s;
  step_downloading : forall idx url s,
      R s [Emit (item_progress (Downloading idx (total items0) url))] s;
  step_popen : forall item url p outdir cmd s,
      at_hand item url p outdir ->
      build_cmd executable cookie_text0 url outdir
        (fst (select_format p)) (snd (select_format p)) = Ok cmd ->
      R s [Popen cmd] s;
  step_process : forall cmd s, R s [] (with_process cmd s);
  step_kill : forall s, R s [Kill] s;
  step_killed : forall s, R s [Emit (log DownloadKilled)] s;
  step_finished : forall item url p outdir s,
      at_hand item url p outdir ->
      R s [Emit (log (Finished url outdir))] (counted_ok s);
  step_failed : forall url s,
      R s [Emit (log (Failed url))] (counted_fail s);
  step_error : forall e s, R s [Emit (log (Error e))] (counted_fail s);
  step_counts : forall s,
      R s [Emit (counts (total items0) (ok s) (fail s))] s;
  step_progress : forall s,
      R s [Emit (progress (percent (ok s) (fail s) (total items0)))] s;
  step_done : forall s, R s [Emit done] s
}.

End Steps.

(** ** Reading a trace, further *)

(** The percentages sent to the progress bar. *)
Definition percentages (w : list effect) : list Z :=
  omap (fun e => match e with Emit (progress p) => Some p | _ => None end) w.

(** The "Preparing" lines: the number and the text of the item. *)
Definition prepared (w : list effect) : list (nat * string) :=
  omap (fun e => match e with
                 | Emit (item_progress (Preparing i t r)) => Some (i, r)
                 | _ => None
                 end) w.

(** The number of "Finished" lines, and of "Failed" and "Error" lines. *)
Definition finished_lines (w : list effect) : Z :=
  Z.of_nat (List.length
    (omap (fun e => match e with
                    | Emit (log (Finished _ _)) => Some tt
                    | _ => None
                    end) w)).

Definition failed_lines (w : list effect) : Z :=
  Z.of_nat (List.length
    (omap (fun e => match e with
                    | Emit (log (Failed _)) => Some tt
                    | Emit (log (Error _)) => Some tt
                    | _ => None
                    end) w)).

(** What the worker never writes in an item. *)
Definition entered (it : DownloadItem) : string * string * string * option string :=
  (platform it, input_type it, raw_text it, resolved_url it).

(** A directory created or a child launched for an item of the list:
    the directory is the one [outdir_for] gives for the item's address
    and platform, the command line is the one [build_cmd] gives for
    them. *)
Definition for_an_item (check_bracketed_netloc : string -> bool)
    (executable : string) (items0 : list DownloadItem)
    (cookie_text0 base_dir : string) (e : effect) : Prop :=
  match e with
  | Makedirs d =>
      exists item url p,
        at_hand check_bracketed_netloc items0 base_dir item url p d
  | Popen cmd =>
      exists item url p outdir,
        at_hand check_bracketed_netloc items0 base_dir item url p outdir
        /\ build_cmd executable cookie_text0 url outdir
             (fst (select_format p)) (snd (select_format p)) = Ok cmd
  | _ => True
  end.

(** Three relations kept by every run. *)

(** The counters move with the lines of the log. *)
Definition with_the_log (s : wstate) (w : list effect) (s' : wstate) : Prop :=
  ok s' = (ok s + finished_lines w)%Z /\ fail s' = (fail s + failed_lines w)%Z.

(** What is created and launched is for an item of the list. *)
Definition all_for_items (check_bracketed_netloc : string -> bool)
    (executable : string) (items0 : list DownloadItem)
    (cookie_text0 base_dir : string)
    (s : wstate) (w : list effect) (s' : wstate) : Prop :=
  Forall (for_an_item check_bracketed_netloc executable items0 cookie_text0
            base_dir) w.

(** The items keep what was entered. *)
Definition same_entries (s : wstate) (w : list effect) (s' : wstate) : Prop :=
  List.map entered (items s') = List.map entered (items s).

(** ** The window: timers, stop and shutdown

    The part of [MrLYDownloader] that the two [QTimer]s, the stop button
    and the [done] signal act on.  A timer is [true] while it is active;
    its [timeout] signal reaches the handler only then. *)

(** The lines the handlers add to the log and the texts they put in the
    status label, by the string that builds them. *)
Inductive window_line : Type :=
| DownloadStarted
| DownloadStopped
| AllTasksFinished
| ShuttingDownNow
| ShutdownCanceledLine.

Inductive status_text : Type :=
| Idle
| ShutdownIn (seconds : Z)
| ShutdownCanceled.

(** What a handler does outside the window. *)
Inductive window_action : Type :=
| SubprocessCall (command : string)
| Warning (title : string).

Record window : Type := mkwindow {
  stop_flag : bool;
  download_seconds : Z;
  download_timer : bool;
  lbl_timer : string;
  shutdown_seconds : Z;
  shutdown_timer : bool;
  cancel_shutdown_btn : bool;
  shutdown_check : bool;
  item_status : status_text;
  log_box : list window_line
}.

(** [MrLYDownloader.__init__] and [_build_ui], for a given state of the
    check box. *)
Definition new_window (checked : bool) : window :=
  mkwindow false 0 false "00:00:00" 0 false false checked Idle [].

(** [str(n)] for [n >= 0]: the decimal digits, by repeated division;
    [fuel] bounds the number of digits. *)
Fixpoint digits (fuel : nat) (n : Z) : string :=
  match fuel with
  | O => EmptyString
  | S fuel' =>
      if (n <? 10)%Z then String (DateTime.digit_char n) EmptyString
      else digits fuel' (n / 10)
           ++ String (DateTime.digit_char (n mod 10)) EmptyString
  end.

Definition str_int (n : Z) : string := digits (S (Z.to_nat (Z.log2 n))) n.

(** [f"{n:02}"] for [n >= 0]: at least two digits. *)
Definition format_02 (n : Z) : string :=
  if (n <? 10)%Z then String "0" (str_int n) else str_int n.

(** [_tick_download] *)
Definition _tick_download (w : window) : window :=
  let download_seconds := (download_seconds w + 1)%Z in
  let h := (download_seconds / 3600)%Z in
  let m := ((download_seconds mod 3600) / 60)%Z in
  let s := (download_seconds mod 60)%Z in
  mkwindow (stop_flag w) download_seconds (download_timer w)
    (format_02 h ++ ":" ++ format_02 m ++ ":" ++ format_02 s)
    (shutdown_seconds w) (shutdown_timer w) (cancel_shutdown_btn w)
    (shutdown_check w) (item_status w) (log_box w).

(** [_start_shutdown_timer] *)
Definition _start_shutdown_timer (seconds : Z) (w : window) : window :=
  mkwindow (stop_flag w) (download_seconds w) (download_timer w)
    (lbl_timer w) seconds true true (shutdown_check w) (item_status w)
    (log_box w).

(** [_tick_shutdown]; [sys_platform] is [sys.platform]. *)
Definition _tick_shutdown (sys_platform : string) (w : window)
  : window * list window_action :=
  if (shutdown_seconds w <=? 0)%Z then
    (mkwindow (stop_flag w) (download_seconds w) (download_timer w)
       (lbl_timer w) (shutdown_seconds w) false false (shutdown_check w)
       (item_status w) (log_box w ++ [ShuttingDownNow]),
     if PyStr.startswith sys_platform "win"
     then [SubprocessCall "shutdown /s /t 0"]
     else [SubprocessCall "shutdown now"])
  else
    (mkwindow (stop_flag w) (download_seconds w) (download_timer w)
       (lbl_timer w) (shutdown_seconds w - 1) (shutdown_timer w)
       (cancel_shutdown_btn w) (shutdown_check w)
       (ShutdownIn (shutdown_seconds w)) (log_box w),
     []).

(** [_cancel_shutdown] *)
Definition _cancel_shutdown (w : window) : window :=
  mkwindow (stop_flag w) (download_seconds w) (download_timer w)
    (lbl_timer w) (shutdown_seconds w) false false (shutdown_check w)
    ShutdownCanceled (log_box w ++ [ShutdownCanceledLine]).

(** [_stop] *)
Definition _stop (w : window) : window :=
  mkwindow true (download_seconds w) false (lbl_timer w)
    (shutdown_seconds w) (shutdown_timer w) (cancel_shutdown_btn w)
    (shutdown_check w) (item_status w) (log_box w ++ [DownloadStopped]).

(** [_on_done] *)
Definition _on_done (w : window) : window :=
  let w := mkwindow (stop_flag w) (download_seconds w) false (lbl_timer w)
             (shutdown_seconds w) (shutdown_timer w) (cancel_shutdown_btn w)
             (shutdown_check w) (item_status w)
             (log_box w ++ [AllTasksFinished]) in
  if shutdown_check w then _start_shutdown_timer 60 w else w.

(** [_start] as the window sees it: the warning shown, or the items
    handed to a new [Worker] with the flag cleared and the download timer
    started from zero. *)
Definition _start_window (now : DateTime.datetime) (license_text : string)
    (platform_choice input_choice : string) (lines : list string)
    (w : window) : window * list window_action * option (list DownloadItem) :=
  if negb (License.validate_license now license_text)
  then (w, [Warning "Invalid License"], None)
  else
    let lines := List.filter PyStr.truthy (List.map PyStr.strip lines) in
    if bool_decide (lines = []) then (w, [Warning "No links"], None)
    else
      let items := List.map
                     (fun line => mkDownloadItem platform_choice input_choice
                                    line None None) lines in
      (mkwindow false 0 true (lbl_timer w) (shutdown_seconds w)
         (shutdown_timer w) (cancel_shutdown_btn w) (shutdown_check w)
         (item_status w) (log_box w ++ [DownloadStarted]),
       [], Some items).

(** What reaches the window: the [timeout] of a timer, a click (the
    click on Start with the clock and what the boxes hold at that
    moment), the worker's [done] signal, the user ticking the check
    box. *)
Inductive event : Type :=
| DownloadTimeout
| ShutdownTimeout
| ClickStart (now : DateTime.datetime)
    (license_text platform_choice input_choice : string)
    (lines : list string)
| ClickStop
| ClickCancelShutdown
| DoneSignal
| SetShutdownCheck (checked : bool).

Definition deliver (sys_platform : string) (e : event) (w : window)
  : window * list window_action :=
  match e with
  | DownloadTimeout =>
      if download_timer w then (_tick_download w, []) else (w, [])
  | ShutdownTimeout =>
      if shutdown_timer w then _tick_shutdown sys_platform w else (w, [])
  | ClickStart now license_text platform_choice input_choice lines =>
      let '(w', a, _) :=
        _start_window now license_text platform_choice input_choice lines w in
      (w', a)
  | ClickStop => (_stop w, [])
  | ClickCancelShutdown => (_cancel_shutdown w, [])
  | DoneSignal => (_on_done w, [])
  | SetShutdownCheck checked =>
      (mkwindow (stop_flag w) (download_seconds w) (download_timer w)
         (lbl_timer w) (shutdown_seconds w) (shutdown_timer w)
         (cancel_shutdown_btn w) checked (item_status w) (log_box w),
       [])
  end.

(** The events of a list, one after the other. *)
Fixpoint deliver_all (sys_platform : string) (es : list event) (w : window)
  : window * list window_action :=
  match es with
  | [] => (w, [])
  | e :: es' =>
      let '(w1, a1) := deliver sys_platform e w in
      let '(w2, a2) := deliver_all sys_platform es' w1 in
      (w2, (a1 ++ a2)%list)
  end.

(** The command that shuts the machine down. *)
Definition shutdown_command (sys_platform : string) : string :=
  if PyStr.startswith sys_platform "win" then "shutdown /s /t 0"
  else "shutdown now".

(** The commands among the actions, and the number of timeouts of the
    shutdown timer among the events. *)
Definition commands (a : list window_action) : list string :=
  omap (fun x => match x with SubprocessCall c => Some c | _ => None end) a.

Definition shutdown_timeouts (es : list event) : nat :=
  List.length
    (List.filter (fun e => match e with ShutdownTimeout => true | _ => false end)
       es).

(** An event that neither cancels a countdown nor starts one. *)
Definition lets_count (e : event) : Prop :=
  e <> ClickCancelShutdown /\ e <> DoneSignal.

(** A statement that ends, normally or by an exception, from every
    state. *)
Definition ends {A : Type} (m : io A) : Prop :=
  forall s, snd (m s) <> None.

(** ** The counters shown

    [MrLYDownloader._update_counts], which [_wire_signals] connects to the
    [counts] signal, writes the three labels under the buttons. *)

Record labels : Type := mklabels {
  lbl_total : string;
  lbl_ok : string;
  lbl_fail : string
}.

(** The labels as [_build_ui] makes them. *)
Definition new_labels : labels := mklabels "Total: 0" "Success: 0" "Failed: 0".

Definition _update_counts (total ok fail : Z) : labels :=
  mklabels ("Total: " ++ str_int total) ("Success: " ++ str_int ok)
    ("Failed: " ++ str_int fail).

(** The labels after the signals of a trace have been delivered. *)
Definition labels_after (w : list effect) (l : labels) : labels :=
  List.fold_left
    (fun l e => match e with
                | Emit (counts total ok fail) => _update_counts total ok fail
                | _ => l
                end) w l.

(** * Properties *)

(** ** The library models on known values

    Values of the CPython 3.11 functions, as a check of the models. *)

Section LibraryExamples.
Local Open Scope Z_scope.

Let ok_brackets (s : string) : bool := true.

Example urlparse_full :
  UrlParse.urlparse ok_brackets "https://example.com:8080/a/b;x=1/c d;p?q#f"
  = Ok (UrlParse.mkParseResult "https" "example.com:8080" "/a/b;x=1/c d").
Proof. reflexivity. Qed.

Example urlparse_upper_scheme :
  UrlParse.urlparse ok_brackets "  HTTP://Ex/a"
  = Ok (UrlParse.mkParseResult "http" "Ex" "/a").
Proof. reflexivity. Qed.

Example urlparse_digit_first :
  UrlParse.urlparse ok_brackets "1a:b"
  = Ok (UrlParse.mkParseResult "" "" "1a:b").
Proof. reflexivity. Qed.

Example urlparse_query_in_netloc :
  UrlParse.urlparse ok_brackets "//x?y/z"
  = Ok (UrlParse.mkParseResult "" "x" "").
Proof. reflexivity. Qed.

Example urlparse_params :
  UrlParse.urlparse ok_brackets "a;b/c;d;e"
  = Ok (UrlParse.mkParseResult "" "" "a;b/c").
Proof. reflexivity. Qed.

Example urlparse_open_bracket :
  UrlParse.urlparse ok_brackets "http://[::1" = Raise ValueError.
Proof. reflexivity. Qed.

Example strptime_values :
  List.map DateTime.strptime_Ymd
    ["20280229"; "20300229"; "2030111"; "2030110"; "203011 5"; "20301301";
     "00000101"; "20300101 "]
  = [Ok (DateTime.mkdatetime 2028 2 29 0 0 0 0); Raise ValueError;
     Ok (DateTime.mkdatetime 2030 11 1 0 0 0 0);
     Ok (DateTime.mkdatetime 2030 1 10 0 0 0 0);
     Ok (DateTime.mkdatetime 2030 11 5 0 0 0 0); Raise ValueError;
     Raise ValueError; Raise ValueError].
Proof. vm_compute. reflexivity. Qed.

Example add_days_values :
  DateTime.add_days (DateTime.mkdatetime 2024 2 28 13 5 0 0) 2
  = Ok (DateTime.mkdatetime 2024 3 1 13 5 0 0)
  /\ DateTime.add_days (DateTime.mkdatetime 2023 12 31 0 0 0 0) 366
     = Ok (DateTime.mkdatetime 2024 12 31 0 0 0 0)
  /\ DateTime.add_days (DateTime.mkdatetime 2024 3 1 0 0 0 0) (-1)
     = Ok (DateTime.mkdatetime 2024 2 29 0 0 0 0)
  /\ DateTime.add_days (DateTime.mkdatetime 9999 12 1 0 0 0 0) 31
     = Raise OverflowError.
Proof. repeat split; vm_compute; reflexivity. Qed.

Example percent_values :
  List.map (fun '(k, n) => percent k 0 n)
    [(0, 0); (1, 3); (2, 3); (3, 3); (7, 25); (29, 100); (57, 100); (1, 7)]
  = [0; 33; 66; 100; 28; 28; 56; 14].
Proof. vm_compute. reflexivity. Qed.

Example join_values :
  PosixPath.join "/base" ["TikTok"; "x"] = "/base/TikTok/x"
  /\ PosixPath.join "/base/" ["TikTok"; "x"] = "/base/TikTok/x"
  /\ PosixPath.join "" ["TikTok"; "x"] = "TikTok/x"
  /\ PosixPath.join "/base" ["/abs"; "x"] = "/abs/x".
Proof. repeat split. Qed.

End LibraryExamples.

(** ** Strings *)

Section StringFacts.
Import PyStr.

Lemma all_app (p : ascii -> bool) (s t : string) :
  all p (s ++ t) = all p s && all p t.
Proof.
  induction s as [|c s IH]; simpl; [reflexivity|].
  rewrite IH. apply andb_assoc.
Qed.

Lemma all_lstrip_by (p q : ascii -> bool) (s : string) :
  all p s = true -> all p (lstrip_by q s) = true.
Proof.
  induction s as [|c s IH]; simpl; [reflexivity|].
  intros H. destruct (q c).
  - apply IH. apply andb_true_iff in H. tauto.
  - exact H.
Qed.

Lemma all_rstrip_by (p q : ascii -> bool) (s : string) :
  all p s = true -> all p (rstrip_by q s) = true.
Proof.
  induction s as [|c s IH]; simpl; [reflexivity|].
  intros H. apply andb_true_iff in H. destruct H as [Hc Hs].
  specialize (IH Hs).
  destruct (rstrip_by q s) as [|d r].
  - destruct (q c); simpl; [reflexivity|]. rewrite Hc. reflexivity.
  - change (p c && all p (String d r) = true). rewrite Hc. exact IH.
Qed.

Lemma all_strip_by (p q : ascii -> bool) (s : string) :
  all p s = true -> all p (strip_by q s) = true.
Proof.
  intros H. unfold strip_by. apply all_rstrip_by, all_lstrip_by, H.
Qed.

Lemma or_else_truthy (a b : string) :
  truthy b = true -> truthy (or_else a b) = true.
Proof.
  intros Hb. unfold or_else. destruct (truthy a) eqn:Ha; assumption.
Qed.

Lemma truthy_nonempty (s : string) : truthy s = true <-> s <> "".
Proof.
  destruct s; simpl; split; intros H; congruence.
Qed.

End StringFacts.

(** ** [slugify] and [derive_folder_name] *)

Section SlugFacts.
Import PyStr.

Lemma slug_char_underscore : slug_char "_" = true.
Proof. reflexivity. Qed.

Lemma sub_runs_slug_chars (in_run : bool) (s : string) :
  all slug_char (sub_runs in_run s) = true.
Proof.
  revert in_run. induction s as [|c s IH]; intros in_run; simpl.
  - reflexivity.
  - destruct (slug_char c) eqn:Hc.
    + cbn [all]. rewrite Hc. apply IH.
    + destruct in_run; [apply IH|].
      cbn [all]. rewrite slug_char_underscore. apply IH.
Qed.

Lemma slugify_slug_chars (s : string) : all slug_char (slugify s) = true.
Proof.
  unfold slugify, or_else, strip_chars.
  destruct (truthy _) eqn:Ht.
  - apply all_strip_by, sub_runs_slug_chars.
  - reflexivity.
Qed.

Lemma slugify_truthy (s : string) : truthy (slugify s) = true.
Proof. unfold slugify. apply or_else_truthy. reflexivity. Qed.

Lemma slugify_fallback (s : string) :
  strip_chars "_" (sub_runs false (strip s)) = "" -> slugify s = "download".
Proof. unfold slugify. intros ->. reflexivity. Qed.

Lemma derive_folder_name_is_slug cb (platform url : string) :
  exists t, derive_folder_name cb platform url = slugify t.
Proof.
  unfold derive_folder_name.
  destruct (UrlParse.urlparse cb url) as [p|e]; simpl; eauto.
Qed.

End SlugFacts.

(** C9. For every platform string and every URL string, the derived
    destination folder name is a non-empty string made only of characters
    of [[A-Za-z0-9._-]] ([slug_char]); it is always a result of [slugify],
    which falls back to the literal ["download"] when nothing is left
    after the underscores are trimmed. *)
Theorem C9_derive_folder_name_safe
    (check_bracketed_netloc : string -> bool) (platform url : string) :
  let name := derive_folder_name check_bracketed_netloc platform url in
  name <> ""
  /\ PyStr.all slug_char name = true
  /\ (exists t, name = slugify t)
  /\ (forall t,
        PyStr.strip_chars "_" (sub_runs false (PyStr.strip t)) = "" ->
        slugify t = "download").
Proof.
  intros name.
  destruct (derive_folder_name_is_slug check_bracketed_netloc platform url)
    as [t Ht].
  fold name in Ht.
  split; [|split; [|split]].
  - rewrite Ht. apply truthy_nonempty, slugify_truthy.
  - rewrite Ht. apply slugify_slug_chars.
  - exists t. exact Ht.
  - apply slugify_fallback.
Qed.

(** ** The TikTok scenario *)

(** C7 (amended). For the single input
    [https://www.tiktok.com/@foo/video/123] with platform Auto Detect
    (whatever the input type), the URL fetched is the input, the platform
    is classified as TikTok, the format is the single pre-merged stream
    capped at 1080p with no merge container, the folder name is
    [www.tiktok.com_123] (the host is kept whole), and the destination
    directory is [<base>/TikTok/www.tiktok.com_123]. *)
Theorem C7_tiktok_scenario
    (check_bracketed_netloc : string -> bool)
    (base_dir input_choice : string) :
  let url := "https://www.tiktok.com/@foo/video/123" in
  let item := mkDownloadItem "Auto Detect" input_choice url None None in
  fetch_url item = url
  /\ resolve_platform check_bracketed_netloc item url = Ok "TikTok"
  /\ select_format "TikTok" = ("best[ext=mp4][height<=1080]", None)
  /\ derive_folder_name check_bracketed_netloc "TikTok" url
     = "www.tiktok.com_123"
  /\ outdir_for check_bracketed_netloc base_dir "TikTok" url
     = PosixPath.join base_dir ["TikTok"; "www.tiktok.com_123"].
Proof.
  intros url item.
  assert (Hf : derive_folder_name check_bracketed_netloc "TikTok" url
               = "www.tiktok.com_123") by (vm_compute; reflexivity).
  split; [|split; [|split; [|split]]].
  - reflexivity.
  - vm_compute. reflexivity.
  - reflexivity.
  - exact Hf.
  - unfold outdir_for.
    change (PyStr.or_else "TikTok" "Auto") with "TikTok".
    rewrite Hf. reflexivity.
Qed.

(** C7, counterexample: under [/base] the destination of the scenario is
    [/base/TikTok/www.tiktok.com_123], not [/base/TikTok/tiktok.com_123]. *)
Lemma C7_counterexample :
  C7_claimed_destination "/base" = "/base/TikTok/tiktok.com_123"
  /\ outdir_for (fun _ => true) "/base" "TikTok"
       "https://www.tiktok.com/@foo/video/123"
     = "/base/TikTok/www.tiktok.com_123"
  /\ outdir_for (fun _ => true) "/base" "TikTok"
       "https://www.tiktok.com/@foo/video/123"
     <> C7_claimed_destination "/base".
Proof.
  split; [|split]; [vm_compute; reflexivity ..|].
  vm_compute. discriminate.
Qed.

(** ** Usernames *)

Section UsernameFacts.
Import PyStr.

(** What [build_url_from_username] returns for the four platforms. *)
Lemma build_url_from_username_templates (username : string) :
  let u := lstrip "@" (strip username) in
  truthy u = true ->
  build_url_from_username "YouTube" username
    = Some ("https://www.youtube.com/@" ++ u)
  /\ build_url_from_username "TikTok" username
    = Some ("https://www.tiktok.com/@" ++ u)
  /\ build_url_from_username "Instagram" username
    = Some ("https://www.instagram.com/" ++ u ++ "/")
  /\ build_url_from_username "Facebook" username
    = Some ("https://www.facebook.com/" ++ u).
Proof.
  intros u Hu. unfold build_url_from_username. fold u. rewrite Hu.
  simpl. auto.
Qed.

Lemma build_url_from_username_empty (platform username : string) :
  truthy (lstrip "@" (strip username)) = false ->
  build_url_from_username platform username = None.
Proof.
  intros Hu. unfold build_url_from_username. rewrite Hu. reflexivity.
Qed.

(** The items [_start] makes carry no resolved URL. *)
Lemma _start_items_unresolved now license_text platform_choice input_choice
    lines its :
  _start now license_text platform_choice input_choice lines = Some its ->
  Forall (fun it => resolved_url it = None
                    /\ platform it = platform_choice
                    /\ input_type it = input_choice) its.
Proof.
  unfold _start. destruct (negb _); [discriminate|].
  destruct (List.filter _ _) as [|l ls]; [discriminate|].
  intros [= <-]. constructor; [simpl; auto|].
  clear. induction ls as [|x L IH]; simpl; constructor; simpl; auto.
Qed.

Lemma fetch_url_unresolved (it : DownloadItem) :
  resolved_url it = None -> fetch_url it = strip (raw_text it).
Proof. unfold fetch_url. intros ->. reflexivity. Qed.

End UsernameFacts.

(** C1 (the code at the failing input). With platform YouTube and input
    type Username, the line [bar] gives an item without resolved URL; the
    worker fetches the raw text [bar], although
    [build_url_from_username] would give [https://www.youtube.com/@bar].
    The line [@], whose username is empty after trimming, is fetched as
    [@] and not refused. *)
Theorem C1_username_is_fetched_raw :
  let now := DateTime.mkdatetime 2024 1 1 12 0 0 0 in
  let env := fun _ : nat => mkitem_env false false (fun _ => false) (exits 0) in
  let bar := mkDownloadItem "YouTube" "Username" "bar" None None in
  let at_ := mkDownloadItem "YouTube" "Username" "@" None None in
  _start now "AB12-CD34-EF56-99991231" "YouTube" "Username" ["bar"; "@"]
    = Some [bar; at_]
  /\ build_url_from_username "YouTube" "bar"
     = Some "https://www.youtube.com/@bar"
  /\ build_url_from_username "YouTube" "@" = None
  /\ fetch_url bar = "bar"
  /\ fetch_url at_ = "@"
  /\ fst (fst (run (fun _ => true) "python" true [bar; at_] "" "/base" env
                 (init [bar; at_])))
     = [Emit (item_progress (Preparing 1 2 "bar"));
        Makedirs "/base/YouTube/bar";
        Emit (item_progress (Downloading 1 2 "bar"));
        Popen ["python"; "-m"; "yt_dlp"; "bar"; "-o";
               "/base/YouTube/bar/%(title).80s [%(id)s].%(ext)s"; "-f";
               "bestvideo[height<=1080]+bestaudio/best";
               "--merge-output-format"; "mp4"];
        Emit (log (Finished "bar" "/base/YouTube/bar"));
        Emit (counts 2 1 0); Emit (progress 50);
        Emit (item_progress (Preparing 2 2 "@"));
        Makedirs "/base/YouTube/download";
        Emit (item_progress (Downloading 2 2 "@"));
        Popen ["python"; "-m"; "yt_dlp"; "@"; "-o";
               "/base/YouTube/download/%(title).80s [%(id)s].%(ext)s"; "-f";
               "bestvideo[height<=1080]+bestaudio/best";
               "--merge-output-format"; "mp4"];
        Emit (log (Finished "@" "/base/YouTube/download"));
        Emit (counts 2 2 0); Emit (progress 100);
        Emit done].
Proof.
  repeat (split; [vm_compute; reflexivity|]).
  vm_compute. reflexivity.
Qed.

(** ** The command line of the child *)

Lemma build_cmd_shape executable cookie_text0 url outdir fmt merge_fmt cmd :
  build_cmd executable cookie_text0 url outdir fmt merge_fmt = Ok cmd ->
  exists m c,
    cmd = ([executable; "-m"; "yt_dlp"; url; "-o";
            PosixPath.join outdir [outtmpl]; "-f"; fmt] ++ m ++ c)%list
    /\ (m = [] \/ exists x, m = ["--merge-output-format"; x])
    /\ (c = [] \/ exists p, c = ["--cookies"; p]).
Proof.
  unfold build_cmd.
  set (head := [executable; "-m"; "yt_dlp"; url; "-o";
                PosixPath.join outdir [outtmpl]; "-f"; fmt]).
  set (cmd1 := match merge_fmt with
               | Some m => if PyStr.truthy m
                           then (head ++ ["--merge-output-format"; m])%list
                           else head
               | None => head
               end).
  assert (Hm : exists m, cmd1 = (head ++ m)%list
               /\ (m = [] \/ exists x, m = ["--merge-output-format"; x])).
  { subst cmd1. destruct merge_fmt as [x|]; [destruct (PyStr.truthy x)|].
    - exists ["--merge-output-format"; x]. eauto.
    - exists []. rewrite app_nil_r. auto.
    - exists []. rewrite app_nil_r. auto. }
  destruct Hm as [m [-> Hm]].
  destruct (PyStr.startswith _ _).
  - destruct (cookie_file_path cookie_text0) as [p|e]; simpl; [|discriminate].
    intros [= <-]. exists m, ["--cookies"; p].
    split; [reflexivity|]. eauto.
  - intros [= <-]. exists m, []. rewrite app_nil_r. auto.
Qed.

(** C6 (the code at the failing input). For a YouTube video URL the
    dictionary [ydl_opts] holds 5 retries, fragment concurrency 4 and
    [ignoreerrors = "only_download"], but the child process is started
    with a command line that has none of them: it is the interpreter,
    [-m yt_dlp], the URL, [-o], the output template, [-f], the format and
    [--merge-output-format mp4]. *)
Theorem C6_child_command_line :
  let url := "https://www.youtube.com/watch?v=abc" in
  let item := mkDownloadItem "YouTube" "URL" url None None in
  let env := fun _ : nat => mkitem_env false false (fun _ => false) (exits 0) in
  let outdir := "/base/YouTube/www.youtube.com_watch" in
  let opts := base_opts "YouTube" outdir
                "bestvideo[height<=1080]+bestaudio/best" (Some "mp4") in
  opts !! "retries" = Some (VInt 5)
  /\ opts !! "concurrent_fragment_downloads" = Some (VInt 4)
  /\ opts !! "ignoreerrors" = Some (VStr "only_download")
  /\ fst (fst (run (fun _ => true) "python" true [item] "" "/base" env
                 (init [item])))
     = [Emit (item_progress (Preparing 1 1 url));
        Makedirs outdir;
        Emit (item_progress (Downloading 1 1 url));
        Popen ["python"; "-m"; "yt_dlp"; url; "-o";
               "/base/YouTube/www.youtube.com_watch/%(title).80s [%(id)s].%(ext)s";
               "-f"; "bestvideo[height<=1080]+bestaudio/best";
               "--merge-output-format"; "mp4"];
        Emit (log (Finished url outdir));
        Emit (counts 1 1 0); Emit (progress 100);
        Emit done].
Proof.
  repeat (split; [vm_compute; reflexivity|]).
  vm_compute. reflexivity.
Qed.

(** ** The progress hook *)

(** C8 (the code at the failing input). In the downloading phase, when
    neither [total_bytes] nor [total_bytes_estimate] is present, the hook
    emits nothing and ends with [UnboundLocalError]: [pct] is read
    without having been bound. *)
Theorem C8_hook_raises_without_total (d : gmap string pyval) (s : wstate) :
  d !! "status" = Some (VStr "downloading") ->
  d !! "total_bytes" = None ->
  d !! "total_bytes_estimate" = None ->
  _hook d s = ([], s, Some (Raise UnboundLocalError)).
Proof.
  intros Hs Ht He. unfold _hook, dict_get.
  rewrite Hs, Ht, He. reflexivity.
Qed.

(** C8, an instance: a callback with 1024 bytes downloaded and no total. *)
Lemma C8_hook_raises_without_total_witness :
  let d : gmap string pyval :=
    <["status" := VStr "downloading"]>
      (<["downloaded_bytes" := VInt 1024]>
         (<["filename" := VStr "clip.mp4"]> ∅)) in
  _hook d (mkwstate 0 0 [] [])
  = ([], mkwstate 0 0 [] [], Some (Raise UnboundLocalError)).
Proof.
  intros d.
  apply (C8_hook_raises_without_total d (mkwstate 0 0 [] []));
    vm_compute; reflexivity.
Defined.

(** ** Cookies *)

Section CookieFacts.
Import PyStr.

Lemma upper_char_colon (a : ascii) : upper_char a = ":"%char -> a = ":"%char.
Proof.
  destruct a as [[] [] [] [] [] [] [] []]; vm_compute; congruence.
Qed.

Lemma startswith_String (a b : ascii) (s p : string) :
  startswith (String b s) (String a p) = Ascii.eqb a b && startswith s p.
Proof. reflexivity. Qed.

(** A text whose upper case starts with [p ++ ":"], where [p] has no
    colon, has its first colon right after a part that reads [p]. *)
Lemma partition_upper_prefix (p : string) :
  all (fun c => negb (Ascii.eqb c ":")) p = true ->
  forall s,
    startswith (upper s) (p ++ ":") = true ->
    exists pre rest,
      s = pre ++ String ":" rest
      /\ upper pre = p
      /\ partition ":" s = Some (pre, rest).
Proof.
  induction p as [|x p IH]; intros Hp s Hs.
  - destruct s as [|a r]; [discriminate|].
    change (startswith (String (upper_char a) (upper r)) (String ":" "")
            = true) in Hs.
    rewrite startswith_String in Hs.
    apply andb_true_iff in Hs. destruct Hs as [Ha _].
    apply Ascii.eqb_eq in Ha. symmetry in Ha.
    apply upper_char_colon in Ha. subst a.
    exists "", r. simpl. auto.
  - destruct s as [|a r]; [discriminate|].
    simpl in Hp. apply andb_true_iff in Hp. destruct Hp as [Hx Hp].
    change (startswith (String (upper_char a) (upper r)) (String x (p ++ ":"))
            = true) in Hs.
    rewrite startswith_String in Hs.
    apply andb_true_iff in Hs. destruct Hs as [Ha Hs].
    apply Ascii.eqb_eq in Ha.
    destruct (IH Hp r Hs) as [pre [rest [Hr [Hu Hpart]]]].
    exists (String a pre), rest.
    assert (Hne : Ascii.eqb a ":" = false).
    { apply Ascii.eqb_neq. intros ->. subst x. discriminate. }
    split; [rewrite Hr; reflexivity|]. split.
    + change (String (upper_char a) (upper pre) = String x p). congruence.
    + simpl. rewrite Hne, Hpart. reflexivity.
Qed.

Lemma upper_app (s t : string) : upper (s ++ t) = upper s ++ upper t.
Proof.
  induction s as [|a s IH]; [reflexivity|].
  change (String (upper_char a) (upper (s ++ t))
          = String (upper_char a) (upper s ++ upper t)).
  rewrite IH. reflexivity.
Qed.

Lemma startswith_app (p s : string) : startswith (p ++ s) p = true.
Proof.
  induction p as [|a p IH]; [reflexivity|].
  change (startswith (String a (p ++ s)) (String a p) = true).
  rewrite startswith_String, Ascii.eqb_refl. exact IH.
Qed.

(** The test of the program accepts the prefix in any letter case, the
    literal one included. *)
Lemma cookiefile_prefix_any_case (pre rest : string) :
  upper pre = "COOKIEFILE" ->
  startswith (upper (pre ++ String ":" rest)) "COOKIEFILE:" = true.
Proof.
  intros Hpre. rewrite upper_app, Hpre.
  change (upper (String ":" rest)) with (String ":" (upper rest)).
  change ("COOKIEFILE" ++ String ":" (upper rest))
    with ("COOKIEFILE:" ++ upper rest).
  apply startswith_app.
Qed.

End CookieFacts.

(** The cookie part of [ydl_opts].  The cookie string is trimmed first.
    If it then begins with [COOKIEFILE:] in any letter case, the text
    after that first colon, trimmed, is a path: when the path exists it
    is entered in [ydl_opts] as [cookiefile] and one line "Using cookie
    file" is logged; when it does not exist nothing is entered, nothing
    is logged and no error is raised.  Otherwise a non-empty string is
    entered in [ydl_opts] as the [Cookie] entry of [http_headers], and an
    empty one changes nothing.  In every case the statement ends normally
    and leaves the worker's state as it was.  The dictionary is handed to
    nothing afterwards. *)
Lemma cookie_opts_policy (cookie_text0 : string) (env : nat -> item_env)
    (idx : nat) (ydl_opts : gmap string pyval) (s : wstate) :
  let c := PyStr.strip cookie_text0 in
  exists w ydl_opts',
    cookie_opts cookie_text0 env idx ydl_opts s = (w, s, Some (Ok ydl_opts'))
    /\ if PyStr.startswith (PyStr.upper c) "COOKIEFILE:" then
         exists pre rest,
           c = pre ++ String ":" rest
           /\ PyStr.upper pre = "COOKIEFILE"
           /\ if path_exists (env idx) (PyStr.strip rest)
              then w = [Emit (log (UsingCookieFile (PyStr.strip rest)))]
                   /\ ydl_opts'
                      = <["cookiefile" := VStr (PyStr.strip rest)]> ydl_opts
              else w = [] /\ ydl_opts' = ydl_opts
       else if PyStr.truthy c
       then w = []
            /\ ydl_opts'
               = <["http_headers" := VDict {["Cookie" := c]}]> ydl_opts
       else w = [] /\ ydl_opts' = ydl_opts.
Proof.
  intros c. unfold cookie_opts, cookie_file_path. fold (cookie_text cookie_text0).
  change (cookie_text cookie_text0) with c.
  destruct (PyStr.startswith (PyStr.upper c) "COOKIEFILE:") eqn:Hpre.
  - assert (Ht : PyStr.truthy c = true) by (destruct c; [discriminate|reflexivity]).
    rewrite Ht.
    destruct (partition_upper_prefix "COOKIEFILE" eq_refl c Hpre)
      as [pre [rest [Hc [Hu Hpart]]]].
    rewrite Hpart.
    destruct (path_exists (env idx) (PyStr.strip rest)) eqn:Hex.
    + eexists _, _. split.
      * unfold mbind, io_bind, lift, emit, perform, mret, io_ret. simpl.
        rewrite Hex. simpl. reflexivity.
      * exists pre, rest. rewrite Hex. auto.
    + eexists _, _. split.
      * unfold mbind, io_bind, lift, emit, perform, mret, io_ret. simpl.
        rewrite Hex. simpl. reflexivity.
      * exists pre, rest. rewrite Hex. auto.
  - destruct (PyStr.truthy c) eqn:Ht.
    + eexists _, _. split.
      * unfold mbind, io_bind, mret, io_ret. simpl.
        rewrite bool_decide_eq_false_2; [reflexivity|].
        intros Habs. apply (f_equal (fun m => m !! "Cookie")) in Habs.
        rewrite lookup_insert_eq, lookup_empty in Habs. discriminate.
      * rewrite insert_empty. auto.
    + eexists _, _. split; [reflexivity|auto].
Qed.

(** C5 (the code at the failing input). What the child process gets of
    the cookie string is decided by the command line, which is built
    beside [ydl_opts] and without its tests.  For every cookie string:
    once trimmed, if it begins with [COOKIEFILE:] in any letter case the
    command line is the one of an empty cookie string followed by
    [--cookies] and the trimmed text after the first colon (no question
    whether that path exists); otherwise the command line is the one of
    an empty cookie string (the [Cookie] header is not on it).  At the
    two failing inputs: with [COOKIEFILE:/missing/cookies.txt], a path
    that does not exist, the specification has no cookies passed and a
    warning logged, and the run launches the child with
    [--cookies /missing/cookies.txt] and logs the "Finished" line only;
    with [sessionid=abc] the specification has the string passed as the
    [Cookie] header, and the run enters it in [ydl_opts] but launches the
    child with no cookie at all. *)
Theorem C5_cookies_reach_child_unchecked :
  (forall (executable cookie_text0 url outdir fmt : string)
          (merge_fmt : option string),
     exists cmd0,
       build_cmd executable "" url outdir fmt merge_fmt = Ok cmd0
       /\ if PyStr.startswith (PyStr.upper (PyStr.strip cookie_text0))
               "COOKIEFILE:"
          then exists pre rest,
                 PyStr.strip cookie_text0 = pre ++ String ":" rest
                 /\ PyStr.upper pre = "COOKIEFILE"
                 /\ build_cmd executable cookie_text0 url outdir fmt merge_fmt
                    = Ok (cmd0 ++ ["--cookies"; PyStr.strip rest])%list
          else build_cmd executable cookie_text0 url outdir fmt merge_fmt
               = Ok cmd0)
  /\ (let cookie := "COOKIEFILE:/missing/cookies.txt" in
      let url := "https://youtu.be/x" in
      let item := mkDownloadItem "YouTube" "URL" url None None in
      let env := fun _ : nat =>
                   mkitem_env false false (fun _ => false) (exits 0) in
      C5_claimed_policy (fun _ => false) cookie = (NoCookies, true)
      /\ fst (fst (run (fun _ => true) "python" true [item] cookie "/base"
                     env (init [item])))
         = [Emit (item_progress (Preparing 1 1 url));
            Makedirs "/base/YouTube/youtu.be_x";
            Emit (item_progress (Downloading 1 1 url));
            Popen ["python"; "-m"; "yt_dlp"; url; "-o";
                   "/base/YouTube/youtu.be_x/%(title).80s [%(id)s].%(ext)s";
                   "-f"; "bestvideo[height<=1080]+bestaudio/best";
                   "--merge-output-format"; "mp4";
                   "--cookies"; "/missing/cookies.txt"];
            Emit (log (Finished url "/base/YouTube/youtu.be_x"));
            Emit (counts 1 1 0); Emit (progress 100);
            Emit done])
  /\ (let cookie := "sessionid=abc" in
      let url := "https://youtu.be/x" in
      let item := mkDownloadItem "YouTube" "URL" url None None in
      let env := fun _ : nat =>
                   mkitem_env false false (fun _ => false) (exits 0) in
      C5_claimed_policy (fun _ => false) cookie = (CookieHeader cookie, false)
      /\ cookie_opts cookie env 1 ∅ (init [item])
         = ([], init [item],
            Some (Ok {["http_headers" := VDict {["Cookie" := cookie]}]}))
      /\ fst (fst (run (fun _ => true) "python" true [item] cookie "/base"
                     env (init [item])))
         = [Emit (item_progress (Preparing 1 1 url));
            Makedirs "/base/YouTube/youtu.be_x";
            Emit (item_progress (Downloading 1 1 url));
            Popen ["python"; "-m"; "yt_dlp"; url; "-o";
                   "/base/YouTube/youtu.be_x/%(title).80s [%(id)s].%(ext)s";
                   "-f"; "bestvideo[height<=1080]+bestaudio/best";
                   "--merge-output-format"; "mp4"];
            Emit (log (Finished url "/base/YouTube/youtu.be_x"));
            Emit (counts 1 1 0); Emit (progress 100);
            Emit done]).
Proof.
  split; [|split].
  - intros executable cookie_text0 url outdir fmt merge_fmt.
    unfold build_cmd, cookie_file_path, cookie_text.
    change (PyStr.startswith (PyStr.upper (PyStr.strip "")) "COOKIEFILE:")
      with false.
    eexists. split; [reflexivity|].
    destruct (PyStr.startswith (PyStr.upper (PyStr.strip cookie_text0))
                "COOKIEFILE:") eqn:Hpre; [|reflexivity].
    destruct (partition_upper_prefix "COOKIEFILE" eq_refl _ Hpre)
      as (pre & rest & Hc & Hu & Hpart).
    exists pre, rest. rewrite Hpart. auto.
  - repeat split; vm_compute; reflexivity.
  - repeat split; vm_compute; reflexivity.
Qed.

(** ** The loop of [Worker.run] *)

Section MonadFacts.

Lemma tally_app (w w' : list effect) : tally (w ++ w') = (tally w ++ tally w')%list.
Proof. apply omap_app. Qed.

Lemma started_app (w w' : list effect) :
  started (w ++ w') = (started w + started w')%nat.
Proof. unfold started. rewrite omap_app. apply length_app. Qed.

Lemma count_done_app (w w' : list effect) :
  count_done (w ++ w') = (count_done w + count_done w')%nat.
Proof. unfold count_done. rewrite omap_app. apply length_app. Qed.

Lemma silent_app (w w' : list effect) :
  silent w -> silent w' -> silent (w ++ w').
Proof.
  unfold silent. intros (Ht & Hd & Hs) (Ht' & Hd' & Hs').
  rewrite tally_app, count_done_app, started_app, Ht, Ht', Hd, Hd', Hs, Hs'.
  auto.
Qed.

Lemma silent_nil : silent [].
Proof. repeat split. Qed.

Context {A B : Type}.

Lemma quiet_bind (m : io A) (k : A -> io B) :
  quiet m -> (forall a, quiet (k a)) -> quiet (m ≫= k).
Proof.
  intros Hm Hk s. specialize (Hm s).
  unfold mbind, io_bind.
  destruct (m s) as [[w s'] [[a|e]|]]; [|exact Hm ..].
  specialize (Hk a s'). destruct (k a s') as [[w' s''] r].
  destruct Hm as (Hw & Ho & Hf), Hk as (Hw' & Ho' & Hf').
  split; [apply silent_app; assumption|]. split; congruence.
Qed.

Lemma counted_bind (m : io A) (k : A -> io B) :
  quiet m -> (forall a, counted (k a)) -> counted (m ≫= k).
Proof.
  intros Hm Hk s. specialize (Hm s).
  unfold mbind, io_bind.
  destruct (m s) as [[w s'] [[a|e]|]]; [|exact Hm ..].
  specialize (Hk a s'). destruct (k a s') as [[w' s''] r].
  destruct Hm as (Hw & Ho & Hf).
  destruct r as [[b|e]|].
  - destruct Hk as (Hw' & Hk). split; [apply silent_app; assumption|].
    unfold one_more in *. rewrite <- Ho, <- Hf. exact Hk.
  - destruct Hk as (Hw' & Ho' & Hf').
    split; [apply silent_app; assumption|]. split; congruence.
  - destruct Hk as (Hw' & Ho' & Hf').
    split; [apply silent_app; assumption|]. split; congruence.
Qed.

Lemma quiet_ret (a : A) : quiet (mret a).
Proof. intros s. simpl. auto using silent_nil. Qed.

Lemma quiet_lift (r : result A) : quiet (lift r).
Proof. intros s. simpl. auto using silent_nil. Qed.

Lemma quiet_raise (e : exn) : quiet (raise e : io A).
Proof. apply quiet_lift. Qed.

Lemma quiet_never : quiet (never : io A).
Proof. intros s. simpl. auto using silent_nil. Qed.

End MonadFacts.

Section RunFacts.

Variable check_bracketed_netloc : string -> bool.
Variable executable : string.
Variable items0 : list DownloadItem.
Variable cookie_text0 : string.
Variable base_dir : string.
Variable env : nat -> item_env.

Local Abbreviation tot := (total items0).
Local Abbreviation body := (try_body check_bracketed_netloc executable items0
                        cookie_text0 base_dir env).
Local Abbreviation final := (finally_block items0).
Local Abbreviation lp := (loop check_bracketed_netloc executable items0
                    cookie_text0 base_dir env).

Lemma quiet_log (m : message) : quiet (emit (log m)).
Proof. intros s. simpl. repeat split. Qed.

Lemma quiet_downloading idx t url :
  quiet (emit (item_progress (Downloading idx t url))).
Proof. intros s. simpl. repeat split. Qed.

Lemma quiet_makedirs idx outdir : quiet (makedirs env idx outdir).
Proof.
  unfold makedirs. apply quiet_bind.
  - intros s. simpl. repeat split.
  - intros _. destruct (makedirs_raises (env idx)).
    + apply quiet_raise.
    + apply quiet_ret.
Qed.

Lemma quiet_set_out_dir idx outdir : quiet (set_out_dir idx outdir).
Proof. intros s. simpl. repeat split. Qed.

Lemma quiet_cookie_opts idx o : quiet (cookie_opts cookie_text0 env idx o).
Proof.
  unfold cookie_opts. apply quiet_bind; [|intros [o' h]; apply quiet_ret].
  destruct (PyStr.truthy _); [|apply quiet_ret].
  destruct (PyStr.startswith _ _); [|apply quiet_ret].
  apply quiet_bind; [apply quiet_lift|]. intros p.
  destruct (path_exists (env idx) p); [|apply quiet_ret].
  apply quiet_bind; [apply quiet_log|]. intros _. apply quiet_ret.
Qed.

Lemma quiet_popen_and_poll idx cmd : quiet (popen_and_poll env idx cmd).
Proof.
  unfold popen_and_poll. apply quiet_bind.
  - intros s. simpl. repeat split.
  - intros _. destruct (child (env idx)) as [|rc|rc|].
    + apply quiet_raise.
    + apply quiet_bind; [intros s; simpl; repeat split|].
      intros _. apply quiet_ret.
    + apply quiet_bind; [intros s; simpl; repeat split|].
      intros _. apply quiet_bind; [intros s; simpl; repeat split|].
      intros _. apply quiet_bind; [apply quiet_log|].
      intros _. apply quiet_ret.
    + apply quiet_bind; [intros s; simpl; repeat split|].
      intros _. apply quiet_never.
Qed.

Lemma counted_incr_ok_log (m : message) : counted (incr_ok ;; emit (log m)).
Proof. intros s. simpl. split; [repeat split|]. left. simpl. auto. Qed.

Lemma counted_incr_fail_log (m : message) :
  counted (incr_fail ;; emit (log m)).
Proof. intros s. simpl. split; [repeat split|]. right. simpl. auto. Qed.

(** What follows the "Preparing" line in the [try]. *)
Lemma try_body_effect (idx : nat) (item : DownloadItem) (s : wstate) :
  match body idx item s with
  | (w, s', r) =>
      tally w = [] /\ count_done w = 0%nat /\ started w = 1%nat
      /\ match r with
         | Some (Ok _) => one_more s s'
         | _ => ok s' = ok s /\ fail s' = fail s
         end
  end.
Proof.
  unfold try_body.
  match goal with
  | |- context [emit ?x ;; ?k] => set (rest := k)
  end.
  assert (Hrest : counted rest).
  { subst rest.
    apply counted_bind; [apply quiet_lift|]. intros p.
    apply counted_bind; [apply quiet_makedirs|]. intros _.
    apply counted_bind; [apply quiet_set_out_dir|]. intros _.
    destruct (select_format p) as [fmt merge_fmt].
    apply counted_bind; [apply quiet_cookie_opts|]. intros o.
    apply counted_bind; [apply quiet_lift|]. intros cmd.
    apply counted_bind; [apply quiet_downloading|]. intros _.
    apply counted_bind; [apply quiet_popen_and_poll|]. intros rc.
    destruct (bool_decide _).
    - apply counted_incr_ok_log.
    - apply counted_incr_fail_log. }
  specialize (Hrest s).
  unfold mbind at 1. unfold io_bind, emit, perform.
  destruct (rest s) as [[w' s''] r].
  rewrite tally_app, count_done_app, started_app.
  destruct r as [[[]|e]|]; destruct Hrest as ((Ht & Hd & Hs) & Hc);
    rewrite Ht, Hd, Hs;
    (split; [reflexivity|split; [reflexivity|split; [reflexivity|exact Hc]]]).
Qed.

Lemma item_pass (idx : nat) (item : DownloadItem) (s : wstate) :
  match try_except_finally (body idx item) except_handler final s with
  | (w, s', r) =>
      started w = 1%nat /\ count_done w = 0%nat
      /\ match r with
         | None => tally w = [] /\ ok s' = ok s /\ fail s' = fail s
         | Some r' =>
             r' = Ok tt /\ one_more s s'
             /\ tally w = [counts tot (ok s') (fail s');
                           progress (percent (ok s') (fail s') tot)]
         end
  end.
Proof.
  unfold try_except_finally.
  pose proof (try_body_effect idx item s) as H.
  destruct (body idx item s) as [[w s1] [[[]|e]|]];
    destruct H as (Ht & Hd & Hs & Hc).
  - simpl. rewrite tally_app, count_done_app, started_app, Ht, Hd, Hs.
    simpl. auto.
  - simpl. rewrite tally_app, count_done_app, started_app, Ht, Hd, Hs.
    simpl. destruct Hc as [Ho Hf].
    split; [reflexivity|]. split; [reflexivity|]. split; [reflexivity|].
    split; [|reflexivity]. right. simpl. split; congruence.
  - auto.
Qed.

Lemma planned_le (idx n : nat) : (planned env idx n <= n)%nat.
Proof.
  revert idx. induction n as [|n IH]; intros idx; simpl; [lia|].
  destruct (stop_is_set (env idx)); [lia|]. specialize (IH (S idx)). lia.
Qed.

Lemma planned_clear (idx n i : nat) :
  (idx <= i < idx + planned env idx n)%nat -> stop_is_set (env i) = false.
Proof.
  revert idx. induction n as [|n IH]; intros idx; simpl; [lia|].
  destruct (stop_is_set (env idx)) eqn:Hs; [lia|].
  intros Hi. destruct (Nat.eq_dec i idx) as [->|Hne]; [exact Hs|].
  apply (IH (S idx)). lia.
Qed.

Lemma planned_stop (idx n : nat) :
  (planned env idx n < n)%nat ->
  stop_is_set (env (idx + planned env idx n)) = true.
Proof.
  revert idx. induction n as [|n IH]; intros idx; simpl; [lia|].
  destruct (stop_is_set (env idx)) eqn:Hs.
  - intros _. rewrite Nat.add_0_r. exact Hs.
  - intros Hlt. replace (idx + S (planned env (S idx) n))%nat
      with (S idx + planned env (S idx) n)%nat by lia.
    apply IH. lia.
Qed.

(** The loop over the items [its], the first of which has number [idx]. *)
Lemma loop_effect (its : list DownloadItem) :
  forall (idx : nat) (s : wstate),
    match lp idx its s with
    | (w, s', r) =>
        count_done w = 0%nat
        /\ well_tallied tot (tally w)
        /\ Forall (fun x => match x with
                            | counts t o f =>
                                t = tot /\
                                (ok s <= o /\ fail s <= f
                                 /\ o + f <= ok s + fail s
                                             + Z.of_nat (List.length its))%Z
                            | _ => True
                            end) (tally w)
        /\ (ok s <= ok s')%Z /\ (fail s <= fail s')%Z
        /\ match r with
           | Some r' =>
               r' = Ok tt
               /\ started w = planned env idx (List.length its)
               /\ (ok s' + fail s' = ok s + fail s + Z.of_nat (started w))%Z
           | None =>
               (started w <= planned env idx (List.length its))%nat
               /\ (ok s' + fail s' + 1
                   = ok s + fail s + Z.of_nat (started w))%Z
           end
    end.
Proof.
  induction its as [|item rest IH]; intros idx s.
  - simpl. split; [reflexivity|]. split; [exact I|].
    split; [constructor|]. change (started []) with 0%nat.
    repeat split; lia.
  - cbn [loop planned List.length].
    destruct (stop_is_set (env idx)) eqn:Hstop.
    + simpl. split; [reflexivity|]. split; [exact I|].
      split; [constructor|]. change (started []) with 0%nat.
      repeat split; lia.
    + unfold mbind at 1. unfold io_bind.
      pose proof (item_pass idx item s) as Hi.
      destruct (try_except_finally _ _ _ s) as [[w s1] [r1|]];
        destruct Hi as (Hs1 & Hd1 & Hi).
      * destruct Hi as (-> & Hone & Ht1).
        specialize (IH (S idx) s1).
        destruct (lp (S idx) rest s1) as [[w2 s2] r2].
        destruct IH as (Hd2 & Hwt & Hall & Hok & Hfail & Hr).
        rewrite tally_app, count_done_app, started_app, Ht1, Hd1, Hd2, Hs1.
        assert (Hm : (ok s <= ok s1 /\ fail s <= fail s1
                      /\ ok s1 + fail s1 = ok s + fail s + 1)%Z)
          by (destruct Hone as [[? ?]|[? ?]]; lia).
        split; [reflexivity|]. split; [simpl; auto|].
        split.
        { simpl. constructor; [|constructor; [exact I|]].
          - split; [reflexivity|lia].
          - eapply Forall_impl; [exact Hall|].
            intros [| | |t o f|]; simpl; auto.
            intros [Ht Hb]. split; [exact Ht|lia]. }
        split; [lia|]. split; [lia|].
        destruct r2 as [r2|].
        -- destruct Hr as (-> & Hst & Hsum).
           split; [reflexivity|]. split; [simpl; congruence|]. lia.
        -- destruct Hr as (Hst & Hsum). split; lia.
      * destruct Hi as (Ht1 & Ho1 & Hf1).
        rewrite Ht1, Hd1, Hs1.
        split; [reflexivity|]. split; [exact I|]. split; [constructor|].
        split; [lia|]. split; [lia|]. split; lia.
Qed.

End RunFacts.

(** C3 (amended). For every batch run, [ok + fail <= total] holds
    throughout: every [counts] signal carries the total and counters that
    do not exceed it, and so does the final state.  The number [p] of
    items started is the number of leading passes that find the stop flag
    unset.  When the run returns, [done] is its last effect and occurs
    once.  With the [yt_dlp] module present, [ok + fail] is then [p]: it
    is [total] unless the flag is seen set at the top of the loop, in
    which case no further item is started.  With the module missing,
    [done] follows the error line at once and both counters are 0.  A run
    whose child never exits and is never stopped emits no [done]. *)
Theorem C3_batch_counts
    (check_bracketed_netloc : string -> bool) (executable : string)
    (yt_dlp : bool) (items0 : list DownloadItem)
    (cookie_text0 base_dir : string) (env : nat -> item_env) :
  let n := List.length items0 in
  let p := planned env 1 n in
  match run check_bracketed_netloc executable yt_dlp items0 cookie_text0
          base_dir env (init items0) with
  | (w, s, r) =>
      Forall (counts_within (Z.of_nat n)) (tally w)
      /\ (0 <= ok s /\ 0 <= fail s /\ ok s + fail s <= Z.of_nat n)%Z
      /\ (p <= n)%nat
      /\ (forall i, (1 <= i <= p)%nat -> stop_is_set (env i) = false)
      /\ ((p < n)%nat -> stop_is_set (env (S p)) = true)
      /\ match r with
         | Some r' =>
             r' = Ok tt
             /\ (exists w0, w = (w0 ++ [Emit done])%list
                            /\ count_done w0 = 0%nat)
             /\ if yt_dlp
                then started w = p /\ (ok s + fail s)%Z = Z.of_nat p
                else w = [Emit (log NotInstalled); Emit done]
                     /\ ok s = 0%Z /\ fail s = 0%Z
         | None =>
             yt_dlp = true /\ count_done w = 0%nat
             /\ (started w <= p)%nat
             /\ (ok s + fail s + 1)%Z = Z.of_nat (started w)
         end
  end.
Proof.
  intros n p.
  assert (Hp : (p <= n)%nat) by apply planned_le.
  assert (Hclear : forall i, (1 <= i <= p)%nat -> stop_is_set (env i) = false).
  { intros i Hi. apply (planned_clear env 1 n i). fold p. lia. }
  assert (Hstop : (p < n)%nat -> stop_is_set (env (S p)) = true).
  { intros Hlt. apply (planned_stop env 1 n Hlt). }
  unfold run. destruct yt_dlp; cbn [negb].
  - unfold mbind, io_bind.
    pose proof (loop_effect check_bracketed_netloc executable items0
                  cookie_text0 base_dir env items0 1 (init items0)) as H.
    destruct (loop _ _ _ _ _ _ 1 items0 (init items0)) as [[w s] r].
    destruct H as (Hd & Hwt & Hall & Hok & Hfail & Hr).
    change (ok (init items0)) with 0%Z in *.
    change (fail (init items0)) with 0%Z in *.
    fold n in Hall, Hr. fold p in Hr.
    assert (Hall' : Forall (counts_within (Z.of_nat n)) (tally w)).
    { eapply Forall_impl; [exact Hall|].
      intros [| | |t o f|]; simpl; auto.
      all: try (intros [-> Hb]; unfold total; fold n; split; [reflexivity|lia]). }
    destruct r as [r|].
    + destruct Hr as (-> & Hst & Hsum).
      simpl. rewrite tally_app. simpl. rewrite app_nil_r.
      rewrite started_app. simpl. rewrite Nat.add_0_r.
      split; [exact Hall'|]. split; [lia|].
      split; [exact Hp|]. split; [exact Hclear|]. split; [exact Hstop|].
      split; [reflexivity|]. split; [eauto|]. split; [exact Hst|]. lia.
    + destruct Hr as (Hst & Hsum).
      split; [exact Hall'|]. split; [lia|].
      split; [exact Hp|]. split; [exact Hclear|]. split; [exact Hstop|].
      split; [reflexivity|]. split; [exact Hd|]. split; [exact Hst|]. lia.
  - simpl. split; [constructor|]. split; [lia|].
    split; [exact Hp|]. split; [exact Hclear|]. split; [exact Hstop|].
    split; [reflexivity|]. split; [|auto].
    exists [Emit (log NotInstalled)]. auto.
Qed.

(** C3, counterexample: with the [yt_dlp] module missing, [done] is
    emitted for a batch of one item with both counters at 0, and no
    cancellation took place. *)
Lemma C3_counterexample : ~ C3_claimed_totals.
Proof.
  intros H.
  specialize (H (fun _ => true) "python" false
                [mkDownloadItem "YouTube" "URL" "https://youtu.be/x" None None]
                "" "/base"
                (fun _ => mkitem_env false false (fun _ => false) (exits 0))).
  simpl in H.
  assert (Habs : (0 + 0)%Z = 1%Z); [|discriminate].
  apply H.
  - right. left. reflexivity.
  - intros [i [_ [Hs|[rc Hc]]]]; discriminate.
Qed.

(** ** License keys *)

Section SplitFacts.
Import PyStr.

Lemma lstrip_by_none (p : ascii -> bool) (s : string) :
  all (fun c => negb (p c)) s = true -> lstrip_by p s = s.
Proof.
  destruct s as [|c s]; [reflexivity|]. simpl.
  destruct (p c); [discriminate|reflexivity].
Qed.

Lemma rstrip_by_none (p : ascii -> bool) (s : string) :
  all (fun c => negb (p c)) s = true -> rstrip_by p s = s.
Proof.
  induction s as [|c s IH]; [reflexivity|]. simpl.
  intros H. apply andb_true_iff in H. destruct H as [Hc Hs].
  rewrite (IH Hs). destruct s; [|reflexivity].
  destruct (p c); [discriminate|reflexivity].
Qed.

Lemma strip_by_none (p : ascii -> bool) (s : string) :
  all (fun c => negb (p c)) s = true -> strip_by p s = s.
Proof.
  intros H. unfold strip_by. rewrite (lstrip_by_none p s H).
  apply rstrip_by_none, H.
Qed.

Lemma all_impl (p q : ascii -> bool) (s : string) :
  (forall c, p c = true -> q c = true) -> all p s = true -> all q s = true.
Proof.
  intros Hpq. induction s as [|c s IH]; [reflexivity|]. simpl.
  intros H. apply andb_true_iff in H. destruct H as [Hc Hs].
  rewrite (Hpq c Hc), (IH Hs). reflexivity.
Qed.

Lemma split_cons (sep : ascii) (s : string) :
  exists h t, split sep s = h :: t.
Proof.
  induction s as [|c s [h [t IH]]]; simpl; [eauto|].
  destruct (Ascii.eqb c sep); [eauto|]. rewrite IH. eauto.
Qed.

(** A text without separator is one part. *)
Lemma split_none (sep : ascii) (s : string) :
  all (fun c => negb (Ascii.eqb c sep)) s = true -> split sep s = [s].
Proof.
  induction s as [|c s IH]; [reflexivity|]. simpl.
  intros H. apply andb_true_iff in H. destruct H as [Hc Hs].
  apply negb_true_iff in Hc. rewrite Hc, (IH Hs). reflexivity.
Qed.

(** A text without separator, then the separator: the text is the first
    part. *)
Lemma split_app (sep : ascii) (g rest : string) :
  all (fun c => negb (Ascii.eqb c sep)) g = true ->
  split sep (g ++ String sep rest) = g :: split sep rest.
Proof.
  induction g as [|c g IH]; simpl.
  - intros _. rewrite Ascii.eqb_refl. reflexivity.
  - intros H. apply andb_true_iff in H. destruct H as [Hc Hg].
    apply negb_true_iff in Hc. rewrite Hc, (IH Hg). reflexivity.
Qed.

(** What holds of every part and of the separator holds of the text. *)
Lemma all_of_split (p : ascii -> bool) (sep : ascii) (s : string) :
  p sep = true -> Forall (fun part => all p part = true) (split sep s) ->
  all p s = true.
Proof.
  intros Hsep. induction s as [|c s IH]; [reflexivity|]. simpl.
  destruct (Ascii.eqb c sep) eqn:Hc.
  - apply Ascii.eqb_eq in Hc. subst c. intros H.
    inversion H as [|? ? _ Ht]; subst. rewrite Hsep. apply IH, Ht.
  - destruct (split_cons sep s) as [h [t Hs]]. rewrite Hs in *.
    intros H. inversion H as [|? ? Hh Ht]; subst.
    simpl in Hh. apply andb_true_iff in Hh. destruct Hh as [Hpc Hh].
    rewrite Hpc. apply IH. constructor; assumption.
Qed.

(** The parts of a split hold no separator. *)
Lemma split_parts_clean (sep : ascii) (s : string) :
  Forall (fun part => all (fun c => negb (Ascii.eqb c sep)) part = true)
         (split sep s).
Proof.
  induction s as [|c s IH]; simpl; [repeat constructor|].
  destruct (Ascii.eqb c sep) eqn:Hc; [constructor; [reflexivity|exact IH]|].
  destruct (split_cons sep s) as [h [t Hs]]. rewrite Hs in *.
  inversion IH as [|? ? Hh Ht]; subst.
  constructor; [|exact Ht]. simpl. rewrite Hc. exact Hh.
Qed.

End SplitFacts.

Section DateFacts.
Import PyStr DateTime.
Local Open Scope Z_scope.

Lemma digit_cases (k : Z) :
  0 <= k <= 9 ->
  k = 0 \/ k = 1 \/ k = 2 \/ k = 3 \/ k = 4 \/ k = 5 \/ k = 6 \/ k = 7
  \/ k = 8 \/ k = 9.
Proof. lia. Qed.

Lemma digit_char_val (k : Z) :
  0 <= k <= 9 ->
  digit_val (digit_char k) = k /\ isdigit (digit_char k) = true.
Proof.
  intros H. apply digit_cases in H.
  repeat (destruct H as [->|H]; [split; reflexivity|]).
  subst k. split; reflexivity.
Qed.

Lemma dec4_digits (y : Z) :
  0 <= y <= 9999 ->
  1000 * (y / 10 / 10 / 10 mod 10) + 100 * (y / 10 / 10 mod 10)
  + 10 * (y / 10 mod 10) + y mod 10 = y.
Proof. intros H. Z.div_mod_to_equations. lia. Qed.

Lemma dec2_digits (n : Z) :
  0 <= n <= 99 -> 10 * (n / 10 mod 10) + n mod 10 = n.
Proof. intros H. Z.div_mod_to_equations. lia. Qed.

End DateFacts.

Section ParseFacts.
Import PyStr DateTime.
Local Open Scope Z_scope.

Lemma isdigit_in (c : ascii) : isdigit c = true -> In c digit_chars.
Proof.
  destruct c as [[] [] [] [] [] [] [] []]; vm_compute; intros H;
    try discriminate; tauto.
Qed.

Lemma check_md_all :
  forallb (fun m1 => forallb (fun m2 => forallb (fun d1 =>
    forallb (fun d2 => check_md m1 m2 d1 d2) digit_chars) digit_chars)
    digit_chars) digit_chars = true.
Proof. vm_compute. reflexivity. Qed.

Lemma check_md_digits (m1 m2 d1 d2 : ascii) :
  isdigit m1 = true -> isdigit m2 = true ->
  isdigit d1 = true -> isdigit d2 = true ->
  check_md m1 m2 d1 d2 = true.
Proof.
  intros H1 H2 H3 H4.
  pose proof check_md_all as H.
  rewrite List.forallb_forall in H.
  specialize (H m1 (isdigit_in m1 H1)).
  rewrite List.forallb_forall in H.
  specialize (H m2 (isdigit_in m2 H2)).
  rewrite List.forallb_forall in H.
  specialize (H d1 (isdigit_in d1 H3)).
  rewrite List.forallb_forall in H.
  exact (H d2 (isdigit_in d2 H4)).
Qed.

Lemma check_date_fields_range (y m d : Z) :
  check_date_fields y m d = true -> month_day_in_range m d = true.
Proof.
  unfold check_date_fields, month_day_in_range, days_in_month.
  intros H. repeat (apply andb_true_iff in H; destruct H as [H ?]).
  repeat (apply andb_true_iff; split); try assumption.
  destruct (m =? 2); [destruct (is_leap y)|destruct (_ || _)]; lia.
Qed.

(** On eight digits [strptime] reads the date by position: year, month
    and day are the numbers the digits spell, and the date has to
    exist. *)
Lemma strptime_date8 (s : string) :
  is_date8 s = true ->
  strptime_Ymd s = match embedded_date s with
                   | Some e => Ok e
                   | None => Raise ValueError
                   end.
Proof.
  unfold is_date8. intros H. apply andb_true_iff in H. destruct H as [Hl Hd].
  apply Nat.eqb_eq in Hl.
  destruct s as [|y1 [|y2 [|y3 [|y4 [|m1 [|m2 [|d1 [|d2 [|? ?]]]]]]]]];
    try discriminate.
  cbn [all] in Hd.
  repeat (apply andb_true_iff in Hd; destruct Hd as [? Hd]).
  pose proof (check_md_digits m1 m2 d1 d2) as Hc.
  unfold check_md in Hc. specialize (Hc ltac:(assumption) ltac:(assumption)
                                        ltac:(assumption) ltac:(assumption)).
  unfold strptime_Ymd, regex_match, match_Y, embedded_date, midnight.
  repeat match goal with
         | H : isdigit _ = true |- _ => rewrite H; clear H
         end.
  cbn [andb].
  set (y := 1000 * digit_val y1 + 100 * digit_val y2 + 10 * digit_val y3
            + digit_val y4) in *.
  set (m := 10 * digit_val m1 + digit_val m2) in *.
  set (d := 10 * digit_val d1 + digit_val d2) in *.
  destruct (match_md _) as [[[m' d'] [|c r]]|].
  - apply andb_true_iff in Hc. destruct Hc as [Hc _].
    apply andb_true_iff in Hc. destruct Hc as [Hm Hd'].
    apply Z.eqb_eq in Hm, Hd'. subst m' d'. cbn [truthy].
    destruct (check_date_fields y m d); reflexivity.
  - cbn [truthy]. destruct (check_date_fields y m d) eqn:Hv; [|reflexivity].
    apply check_date_fields_range in Hv. rewrite Hv in Hc. discriminate.
  - destruct (check_date_fields y m d) eqn:Hv; [|reflexivity].
    apply check_date_fields_range in Hv. rewrite Hv in Hc. discriminate.
Qed.

End ParseFacts.

Section CalendarFacts.
Import PyStr DateTime.
Local Open Scope Z_scope.

Lemma days_in_month_bounds (y m : Z) : 28 <= days_in_month y m <= 31.
Proof.
  unfold days_in_month.
  destruct (m =? 2); [destruct (is_leap y)|destruct (_ || _)]; lia.
Qed.

Lemma check_date_fields_spec (y m d : Z) :
  check_date_fields y m d = true
  <-> (1 <= y <= 9999 /\ 1 <= m <= 12 /\ 1 <= d <= days_in_month y m).
Proof.
  unfold check_date_fields, MINYEAR, MAXYEAR.
  rewrite !andb_true_iff, !Z.leb_le. tauto.
Qed.

Lemma valid_datetime_spec (t : datetime) :
  valid_datetime t = true
  <-> (check_date_fields (year t) (month t) (day t) = true
       /\ 0 <= hour t < 24 /\ 0 <= minute t < 60 /\ 0 <= second t < 60
       /\ 0 <= microsecond t < 1000000).
Proof.
  unfold valid_datetime.
  rewrite !andb_true_iff, !Z.leb_le, !Z.ltb_lt. tauto.
Qed.

(** One day later: the date moves forward, stays valid, and the step
    only fails on the last day of year 9999. *)
Lemma next_day_spec (t : datetime) :
  valid_datetime t = true ->
  (forall t', next_day t = Ok t' ->
     valid_datetime t' = true /\ date_before t t' /\ same_time t t'
     /\ year t <= year t' <= year t + 1)
  /\ (year t < MAXYEAR -> exists t', next_day t = Ok t').
Proof.
  intros Hv. apply valid_datetime_spec in Hv.
  destruct Hv as (Hd & Hh & Hm & Hs & Hu).
  apply check_date_fields_spec in Hd.
  destruct t as [y m d hh mm ss us]. simpl in *.
  unfold MAXYEAR, date_before, same_time.
  pose proof (days_in_month_bounds y m) as Hb.
  pose proof (days_in_month_bounds y (m + 1)) as Hb1.
  pose proof (days_in_month_bounds (y + 1) 1) as Hb2.
  destruct (d <? days_in_month y m) eqn:E1;
    [|destruct (m <? 12) eqn:E2; [|destruct (y <? 9999) eqn:E3]].
  - apply Z.ltb_lt in E1. split; [|eauto].
    intros t' [= <-]. simpl.
    split; [|split; [|split]]; try lia; try tauto.
    apply valid_datetime_spec. simpl.
    rewrite check_date_fields_spec. lia.
  - apply Z.ltb_lt in E2. split; [|eauto].
    intros t' [= <-]. simpl.
    split; [|split; [|split]]; try lia; try tauto.
    apply valid_datetime_spec. simpl.
    rewrite check_date_fields_spec. lia.
  - apply Z.ltb_lt in E3. split; [|eauto].
    intros t' [= <-]. simpl.
    split; [|split; [|split]]; try lia; try tauto.
    apply valid_datetime_spec. simpl.
    rewrite check_date_fields_spec. lia.
  - apply Z.ltb_ge in E3. split; [intros t'; discriminate|lia].
Qed.

Lemma date_before_trans (a b c : datetime) :
  date_before a b -> date_before b c -> date_before a c.
Proof. unfold date_before. lia. Qed.

Lemma same_time_trans (a b c : datetime) :
  same_time a b -> same_time b c -> same_time a c.
Proof. unfold same_time. intuition congruence. Qed.

(** [n >= 1] days later. *)
Lemma add_days_spec (t : datetime) (n : Z) :
  valid_datetime t = true -> 1 <= n ->
  (forall t', add_days t n = Ok t' ->
     valid_datetime t' = true /\ date_before t t' /\ same_time t t')
  /\ (year t + n <= MAXYEAR -> exists t', add_days t n = Ok t').
Proof.
  intros Hv Hn. unfold add_days.
  destruct (999999999 <? Z.abs n) eqn:Hbig.
  - split; [intros t'; discriminate|].
    apply Z.ltb_lt in Hbig. apply valid_datetime_spec in Hv.
    destruct Hv as (Hd & _). apply check_date_fields_spec in Hd.
    unfold MAXYEAR. lia.
  - assert (H0 : (0 <=? n) = true) by (apply Z.leb_le; lia).
    rewrite H0. destruct n as [|p|p]; try lia. clear Hn Hbig H0.
    cbn [Z.iter].
    assert (H : (forall t', Pos.iter (fun r => r ≫= next_day) (Ok t) p = Ok t' ->
                    valid_datetime t' = true /\ date_before t t'
                    /\ same_time t t' /\ year t' <= year t + Z.pos p)
                 /\ (year t + Z.pos p <= MAXYEAR ->
                     exists t', Pos.iter (fun r => r ≫= next_day) (Ok t) p
                                = Ok t')).
    2: { destruct H as [H Hex]. split; [|exact Hex].
         intros t' E. destruct (H t' E) as (? & ? & ? & _). auto. }
    apply (Pos.iter_ind _ (fun r => r ≫= next_day) (Ok t)
              (fun p r =>
                 (forall t', r = Ok t' ->
                    valid_datetime t' = true /\ date_before t t'
                    /\ same_time t t' /\ year t' <= year t + Z.pos p)
                 /\ (year t + Z.pos p <= MAXYEAR -> exists t', r = Ok t'))).
    + destruct (next_day_spec t Hv) as [Hok Hex].
      split.
      * intros t' E. destruct (Hok t' E) as (Hv1 & Hb1 & Hs1 & Hy1).
        split; [exact Hv1|]. split; [exact Hb1|]. split; [exact Hs1|]. lia.
      * intros Hy. apply Hex. lia.
    + intros q r [Hr Hrex]. split.
      * intros t2 E. destruct r as [t1|e]; [|discriminate].
        destruct (Hr t1 eq_refl) as (Hv1 & Hb1 & Hs1 & Hy1).
        destruct (next_day_spec t1 Hv1) as [Hok _].
        destruct (Hok t2 E) as (Hv2 & Hb2 & Hs2 & Hy2).
        split; [exact Hv2|]. split; [eapply date_before_trans; eassumption|].
        split; [eapply same_time_trans; eassumption|]. lia.
      * intros Hy. destruct Hrex as [t1 ->]; [lia|].
        destruct (Hr t1 eq_refl) as (Hv1 & _ & _ & Hy1).
        destruct (next_day_spec t1 Hv1) as [_ Hex].
        apply Hex. lia.
Qed.

End CalendarFacts.

Section LicenseFacts.
Import PyStr DateTime License.
Local Open Scope Z_scope.

Lemma mod10_digit (k : Z) : 0 <= k mod 10 <= 9.
Proof. pose proof (Z.mod_pos_bound k 10). lia. Qed.

(** A valid date of year 1000 or later prints as eight digits that spell
    it. *)
Lemma strftime_date8 (t : datetime) :
  valid_datetime t = true -> 1000 <= year t ->
  is_date8 (strftime_Ymd t) = true
  /\ embedded_date (strftime_Ymd t)
     = Some (mkdatetime (year t) (month t) (day t) 0 0 0 0).
Proof.
  intros Hv Hy. apply valid_datetime_spec in Hv. destruct Hv as (Hd & _).
  pose proof Hd as Hd'. apply check_date_fields_spec in Hd'.
  destruct t as [y m d hh mm ss us]. simpl in *.
  pose proof (days_in_month_bounds y m) as Hb.
  unfold strftime_Ymd, str_year. simpl year; simpl month; simpl day.
  replace (y <? 10) with false by (symmetry; apply Z.ltb_ge; lia).
  replace (y <? 100) with false by (symmetry; apply Z.ltb_ge; lia).
  replace (y <? 1000) with false by (symmetry; apply Z.ltb_ge; lia).
  cbn [dec].
  destruct (digit_char_val _ (mod10_digit (y / 10 / 10 / 10))) as [V1 D1].
  destruct (digit_char_val _ (mod10_digit (y / 10 / 10))) as [V2 D2].
  destruct (digit_char_val _ (mod10_digit (y / 10))) as [V3 D3].
  destruct (digit_char_val _ (mod10_digit y)) as [V4 D4].
  destruct (digit_char_val _ (mod10_digit (m / 10))) as [V5 D5].
  destruct (digit_char_val _ (mod10_digit m)) as [V6 D6].
  destruct (digit_char_val _ (mod10_digit (d / 10))) as [V7 D7].
  destruct (digit_char_val _ (mod10_digit d)) as [V8 D8].
  revert V1 D1 V2 D2 V3 D3 V4 D4 V5 D5 V6 D6 V7 D7 V8 D8.
  generalize (digit_char (y / 10 / 10 / 10 mod 10)),
    (digit_char (y / 10 / 10 mod 10)), (digit_char (y / 10 mod 10)),
    (digit_char (y mod 10)), (digit_char (m / 10 mod 10)),
    (digit_char (m mod 10)), (digit_char (d / 10 mod 10)),
    (digit_char (d mod 10)).
  intros c1 c2 c3 c4 c5 c6 c7 c8 V1 D1 V2 D2 V3 D3 V4 D4 V5 D5 V6 D6 V7 D7
    V8 D8.
  cbv [String.app].
  split.
  - unfold is_date8. cbn [String.length Nat.eqb all andb].
    rewrite D1, D2, D3, D4, D5, D6, D7, D8. reflexivity.
  - unfold embedded_date.
    rewrite V1, V2, V3, V4, V5, V6, V7, V8.
    rewrite (dec4_digits y), (dec2_digits m), (dec2_digits d) by lia.
    rewrite Hd. reflexivity.
Qed.

(** The clock is not past the midnight that starts a later day. *)
Lemma gt_midnight_later (now exp : datetime) :
  date_before now exp ->
  gt now (mkdatetime (year exp) (month exp) (day exp) 0 0 0 0) = false.
Proof.
  unfold date_before, gt, fields. intros H. cbn [lex_gt year month day].
  destruct H as [H|[Hy [H|[Hm H]]]].
  - replace (year exp <? year now) with false
      by (symmetry; apply Z.ltb_ge; lia).
    replace (year now =? year exp) with false
      by (symmetry; apply Z.eqb_neq; lia).
    reflexivity.
  - replace (year exp <? year now) with false
      by (symmetry; apply Z.ltb_ge; lia).
    replace (month exp <? month now) with false
      by (symmetry; apply Z.ltb_ge; lia).
    replace (month now =? month exp) with false
      by (symmetry; apply Z.eqb_neq; lia).
    cbn [orb]. apply andb_false_r.
  - replace (year exp <? year now) with false
      by (symmetry; apply Z.ltb_ge; lia).
    replace (month exp <? month now) with false
      by (symmetry; apply Z.ltb_ge; lia).
    replace (day exp <? day now) with false
      by (symmetry; apply Z.ltb_ge; lia).
    replace (day now =? day exp) with false
      by (symmetry; apply Z.eqb_neq; lia).
    cbn [orb andb]. rewrite !andb_false_r. reflexivity.
Qed.

Lemma isalnum_not_space (c : ascii) :
  isalnum c = true -> negb (isspace c) = true.
Proof. destruct c as [[] [] [] [] [] [] [] []]; vm_compute; congruence. Qed.

Lemma isalnum_not_dash (c : ascii) :
  isalnum c = true -> negb (Ascii.eqb c "-") = true.
Proof. destruct c as [[] [] [] [] [] [] [] []]; vm_compute; congruence. Qed.

Lemma isdigit_isalnum (c : ascii) : isdigit c = true -> isalnum c = true.
Proof. unfold isalnum. intros ->. apply orb_true_r. Qed.

Lemma is_group_alnum (g : string) : is_group g = true -> all isalnum g = true.
Proof. unfold is_group. intros H. apply andb_true_iff in H. tauto. Qed.

Lemma is_date8_alnum (s : string) : is_date8 s = true -> all isalnum s = true.
Proof.
  unfold is_date8. intros H. apply andb_true_iff in H. destruct H as [_ H].
  revert H. apply all_impl, isdigit_isalnum.
Qed.

(** On a key of the shape [XXXX-XXXX-XXXX-YYYYMMDD] the check is the one
    of the specification. *)
Lemma validate_license_shaped (now : datetime) (key : string) :
  C2_shape key = true ->
  validate_license now key = C2_claimed_validity now key.
Proof.
  intros Hshape. unfold C2_claimed_validity. rewrite Hshape. cbn [andb].
  unfold C2_shape in Hshape. unfold validate_license.
  destruct (split "-" key) as [|a [|b [|c [|d [|? ?]]]]] eqn:Hsplit;
    try discriminate.
  repeat (apply andb_true_iff in Hshape; destruct Hshape as [Hshape ?]).
  assert (Hstrip : strip key = key).
  { apply strip_by_none.
    apply (all_of_split _ "-"); [reflexivity|]. rewrite Hsplit.
    repeat constructor;
      (eapply all_impl; [apply isalnum_not_space|]);
      auto using is_group_alnum, is_date8_alnum. }
  rewrite Hstrip, Hsplit. cbn [List.length Nat.eqb negb List.nth].
  rewrite (strptime_date8 d) by assumption.
  destruct (embedded_date d) as [e|]; [|reflexivity].
  simpl. destruct (gt now e); reflexivity.
Qed.

Lemma getitem_chars_alnum (i : nat) :
  (i < 36)%nat -> isalnum (getitem chars i) = true.
Proof.
  intros H. do 36 (destruct i as [|i]; [reflexivity|]). lia.
Qed.

Lemma choices_is_group (rng : nat -> nat) (start : nat) :
  (forall i, rng i < 36)%nat -> is_group (choices rng chars start 4) = true.
Proof.
  intros Hr. unfold choices, is_group.
  cbn [List.seq List.map string_of_list_ascii String.length Nat.eqb all].
  rewrite !getitem_chars_alnum by apply Hr. reflexivity.
Qed.

(** The key made of three groups and a date has the shape. *)
Lemma joined_key_shape (a b c d : string) :
  is_group a = true -> is_group b = true -> is_group c = true ->
  is_date8 d = true ->
  split "-" (a ++ "-" ++ b ++ "-" ++ c ++ "-" ++ d) = [a; b; c; d].
Proof.
  intros Ha Hb Hc Hd.
  change (a ++ "-" ++ b ++ "-" ++ c ++ "-" ++ d)
    with (a ++ String "-" (b ++ String "-" (c ++ String "-" d))).
  assert (Hclean : forall g, all isalnum g = true ->
            all (fun c => negb (Ascii.eqb c "-")) g = true)
    by (intros g; apply all_impl, isalnum_not_dash).
  rewrite (split_app "-" a) by auto using is_group_alnum.
  rewrite (split_app "-" b) by auto using is_group_alnum.
  rewrite (split_app "-" c) by auto using is_group_alnum.
  rewrite (split_none "-" d) by auto using is_date8_alnum.
  reflexivity.
Qed.

End LicenseFacts.

(** C10. For every clock reading (a valid date-time of year 1000 or
    later, as [%Y] prints four digits from there on), every draw of the
    generator and every [exp_days >= 1], a key that [generate_license]
    produces is accepted by [validate_license] at the same clock reading;
    and a key is produced whenever [year + exp_days <= 9999]. *)
Theorem C10_generated_key_is_valid
    (now : DateTime.datetime) (rng : nat -> nat) (exp_days : Z) :
  DateTime.valid_datetime now = true ->
  (1000 <= DateTime.year now)%Z ->
  (forall i, rng i < 36)%nat ->
  (1 <= exp_days)%Z ->
  (forall key,
     License.generate_license now rng exp_days = Ok key ->
     License.validate_license now key = true)
  /\ ((DateTime.year now + exp_days <= 9999)%Z ->
      exists key, License.generate_license now rng exp_days = Ok key).
Proof.
  intros Hv Hy Hr Hd.
  destruct (add_days_spec now exp_days Hv Hd) as [Hok Hex].
  unfold License.generate_license.
  destruct (DateTime.add_days now exp_days) as [exp|e]; cbn [mbind result_bind].
  - split; [|eauto].
    intros key [= <-].
    destruct (Hok exp eq_refl) as (Hve & Hbefore & _).
    assert (Hye : (1000 <= DateTime.year exp)%Z)
      by (unfold DateTime.date_before in Hbefore; lia).
    destruct (strftime_date8 exp Hve Hye) as [H8 Hemb].
    change (PyStr.join "-" _)
      with (PyStr.join "-" [License.choices rng License.chars 0 4;
                            License.choices rng License.chars 4 4;
                            License.choices rng License.chars 8 4;
                            DateTime.strftime_Ymd exp]).
    rewrite validate_license_shaped; unfold C2_claimed_validity, C2_shape;
      rewrite joined_key_shape by auto using choices_is_group.
    + cbn [List.nth]. rewrite Hemb, !choices_is_group, H8 by exact Hr.
      cbn [andb]. rewrite gt_midnight_later by exact Hbefore. reflexivity.
    + rewrite !choices_is_group, H8 by exact Hr. reflexivity.
  - split; [intros key; discriminate|].
    intros Hmax. destruct (Hex Hmax) as [t' Ht']. discriminate.
Qed.

(** C10, an instance: the clock at 2024-02-28 13:05 and 30 days. *)
Lemma C10_generated_key_is_valid_witness :
  let now := DateTime.mkdatetime 2024 2 28 13 5 0 0 in
  License.generate_license now (fun i => (7 * i + 3) mod 36)%nat 30
    = Ok "DKRY-5CJQ-X4BI-20240329"
  /\ License.validate_license now "DKRY-5CJQ-X4BI-20240329" = true.
Proof.
  intros now. split; [vm_compute; reflexivity|].
  refine (proj1 (C10_generated_key_is_valid now
                   (fun i => (7 * i + 3) mod 36)%nat 30 _ _ _ _) _ _).
  - vm_compute. reflexivity.
  - vm_compute. discriminate.
  - intros i. apply Nat.mod_upper_bound. discriminate.
  - lia.
  - vm_compute. reflexivity.
Defined.

(** C2 (amended). The license check accepts a key exactly when, once
    trimmed, it has four parts between dashes and the fourth is read by
    [strptime] with ["%Y%m%d"] as a date whose 00:00 the clock has not
    passed.  On every key of the shape [XXXX-XXXX-XXXX-YYYYMMDD] this is
    the check of the specification: the eight digits are an existing
    date and the clock is not later than 00:00 of that date.  With a
    clock past 2020-01-01 00:00 the key [AB12-CD34-EF56-20200101] is
    rejected, and with a clock not past 9999-12-31 00:00 the key
    [AB12-CD34-EF56-99991231] is accepted. *)
Theorem C2_license_check (now : DateTime.datetime) :
  (forall key,
     License.validate_license now key = true
     <-> exists a b c d exp_date,
           PyStr.split "-" (PyStr.strip key) = [a; b; c; d]
           /\ DateTime.strptime_Ymd d = Ok exp_date
           /\ DateTime.gt now exp_date = false)
  /\ (forall key,
        C2_shape key = true ->
        License.validate_license now key = C2_claimed_validity now key)
  /\ (DateTime.gt now (DateTime.mkdatetime 2020 1 1 0 0 0 0) = true ->
      License.validate_license now "AB12-CD34-EF56-20200101" = false)
  /\ (DateTime.gt now (DateTime.mkdatetime 9999 12 31 0 0 0 0) = false ->
      License.validate_license now "AB12-CD34-EF56-99991231" = true).
Proof.
  split; [|split; [|split]].
  - intros key. unfold License.validate_license.
    destruct (PyStr.split "-" (PyStr.strip key))
      as [|a [|b [|c [|d [|x l]]]]]; cbn [List.length Nat.eqb negb List.nth];
      try (split; [discriminate|];
           intros (a' & b' & c' & d' & e' & Hs & _); discriminate Hs).
    destruct (DateTime.strptime_Ymd d) as [e|err] eqn:Hp;
      cbn [mbind result_bind].
    + destruct (DateTime.gt now e) eqn:Hgt; simpl; split.
      * discriminate.
      * intros (a' & b' & c' & d' & e' & Hs & Hp' & Hg).
        injection Hs as <- <- <- <-. rewrite Hp in Hp'.
        injection Hp' as <-. congruence.
      * intros _. exists a, b, c, d, e. auto.
      * reflexivity.
    + simpl. split; [discriminate|].
      intros (a' & b' & c' & d' & e' & Hs & Hp' & Hg).
      injection Hs as <- <- <- <-. rewrite Hp in Hp'. discriminate.
  - intros key. apply validate_license_shaped.
  - intros Hgt. rewrite validate_license_shaped by (vm_compute; reflexivity).
    unfold C2_claimed_validity.
    replace (embedded_date _)
      with (Some (DateTime.mkdatetime 2020 1 1 0 0 0 0))
      by (vm_compute; reflexivity).
    rewrite Hgt. apply andb_false_r.
  - intros Hgt. rewrite validate_license_shaped by (vm_compute; reflexivity).
    unfold C2_claimed_validity.
    replace (embedded_date _)
      with (Some (DateTime.mkdatetime 9999 12 31 0 0 0 0))
      by (vm_compute; reflexivity).
    rewrite Hgt. vm_compute. reflexivity.
Qed.

(** C2, an instance: the two keys of the scenario with the clock at noon
    of 2024-06-01. *)
Lemma C2_license_check_witness :
  let now := DateTime.mkdatetime 2024 6 1 12 0 0 0 in
  License.validate_license now "AB12-CD34-EF56-20200101" = false
  /\ License.validate_license now "AB12-CD34-EF56-99991231" = true.
Proof.
  intros now.
  destruct (C2_license_check now) as (_ & _ & Hpast & Hfuture).
  split; [apply Hpast|apply Hfuture]; vm_compute; reflexivity.
Defined.

(** C2, counterexample: with the clock at noon of 2024-06-01 the string
    [---99991231], whose three groups are empty, is accepted, and so is
    [AB12-CD34-EF56-2030111], whose date has seven digits; neither has
    the shape the specification requires. *)
Lemma C2_counterexample :
  let now := DateTime.mkdatetime 2024 6 1 12 0 0 0 in
  License.validate_license now "---99991231" = true
  /\ C2_claimed_validity now "---99991231" = false
  /\ License.validate_license now "AB12-CD34-EF56-2030111" = true
  /\ C2_claimed_validity now "AB12-CD34-EF56-2030111" = false.
Proof. repeat split; vm_compute; reflexivity. Qed.

(** ** The percentage *)

Section FloatFacts.
Import PyFloat.
Local Open Scope Z_scope.

(** The rounded quotient is within half a unit of the quotient. *)
Lemma div_half_even_spec (a b : Z) :
  0 < b -> 0 <= a ->
  - b <= 2 * (div_half_even a b * b - a) <= b.
Proof.
  intros Hb Ha. unfold div_half_even.
  pose proof (Z.div_mod a b ltac:(lia)) as Hdm.
  pose proof (Z.mod_pos_bound a b Hb) as Hr.
  destruct (Z.compare_spec (2 * (a mod b)) b) as [He|Hl|Hg];
    [destruct (Z.even (a / b))| |]; nia.
Qed.

Lemma div_half_even_range (a b lo hi : Z) :
  0 < b -> 0 <= a -> lo * b <= a -> a <= hi * b ->
  lo <= div_half_even a b <= hi.
Proof.
  intros Hb Ha Hlo Hhi.
  pose proof (div_half_even_spec a b Hb Ha) as H.
  split; nia.
Qed.

Lemma pow2_pos (s : Z) : 0 <= s -> 0 < 2 ^ s.
Proof. intros H. apply Z.pow_pos_nonneg; lia. Qed.

Lemma pow2_succ (s : Z) : 0 <= s -> 2 ^ (s + 1) = 2 * 2 ^ s.
Proof. intros H. rewrite Z.pow_add_r by lia. lia. Qed.

(** The quotient scaled to 53 bits: with [e0] the first guess of the
    exponent, [a * 2^(-e0)] lies between [2^52 * b] and [2^54 * b]. *)
Lemma first_guess (a b : Z) :
  0 < a -> 0 < b ->
  let e0 := Z.log2 a - Z.log2 b - prec in
  e0 <= 0 ->
  2 ^ 52 * b < a * 2 ^ (- e0) < 2 ^ 54 * b.
Proof.
  intros Ha Hb e0 He0.
  destruct (Z.log2_spec a Ha) as [Hla Hla'].
  destruct (Z.log2_spec b Hb) as [Hlb Hlb'].
  pose proof (Z.log2_nonneg a) as Hna.
  pose proof (Z.log2_nonneg b) as Hnb.
  unfold prec in e0.
  assert (Hs : 2 ^ (- e0) * 2 ^ Z.log2 a = 2 ^ 53 * 2 ^ Z.log2 b).
  { rewrite <- !Z.pow_add_r by lia. f_equal. lia. }
  rewrite Z.pow_succ_r in Hla', Hlb' by lia.
  pose proof (pow2_pos (- e0) ltac:(lia)) as Hp.
  pose proof (pow2_pos (Z.log2 a) Hna) as Hpa.
  pose proof (pow2_pos (Z.log2 b) Hnb) as Hpb.
  change (2 ^ 52) with 4503599627370496.
  change (2 ^ 54) with 18014398509481984.
  change (2 ^ 53) with 9007199254740992 in Hs.
  split; nia.
Qed.

(** The float nearest to [a / b] when the exponent is negative and in
    the normal range: the mantissa is the quotient [a * 2^s / b] rounded,
    where [s] puts the quotient between [2^52] and [2^53]. *)
Lemma round_frac_small (a b : Z) :
  0 < a -> 0 < b ->
  let e0 := Z.log2 a - Z.log2 b - prec in
  emin <= e0 -> e0 + 1 < 0 ->
  exists s,
    (- e0 - 1 <= s <= - e0)
    /\ round_frac a b = mkfloat (div_half_even (a * 2 ^ s) b) (- s)
    /\ 2 ^ 52 * b <= a * 2 ^ s < 2 ^ 53 * b.
Proof.
  intros Ha Hb e0 Hmin Hneg.
  pose proof (first_guess a b Ha Hb ltac:(fold e0; lia)) as Hg.
  fold e0 in Hg. cbv zeta in Hg.
  unfold round_frac. fold e0.
  replace (a =? 0) with false by (symmetry; apply Z.eqb_neq; lia).
  unfold scaled at 1.
  replace (0 <=? e0) with false by (symmetry; apply Z.leb_gt; lia).
  destruct (2 ^ prec * b <=? a * 2 ^ (- e0)) eqn:Hc.
  - apply Z.leb_le in Hc. exists (- e0 - 1).
    rewrite Z.max_l by lia. unfold scaled.
    replace (0 <=? e0 + 1) with false by (symmetry; apply Z.leb_gt; lia).
    replace (- (e0 + 1)) with (- e0 - 1) by lia.
    replace (- (- e0 - 1)) with (e0 + 1) by lia.
    split; [lia|]. split; [reflexivity|].
    assert (Hp : 2 ^ (- e0) = 2 * 2 ^ (- e0 - 1)).
    { rewrite <- pow2_succ by lia. f_equal. lia. }
    rewrite Hp in Hg, Hc. unfold prec in Hc.
    change (2 ^ 52) with 4503599627370496 in *.
    change (2 ^ 53) with 9007199254740992 in *.
    change (2 ^ 54) with 18014398509481984 in *.
    lia.
  - apply Z.leb_gt in Hc. exists (- e0).
    rewrite Z.max_l by lia. unfold scaled.
    replace (0 <=? e0) with false by (symmetry; apply Z.leb_gt; lia).
    replace (- - e0) with e0 by lia.
    split; [lia|]. split; [reflexivity|].
    unfold prec in Hc. lia.
Qed.

Lemma log2_le_44 (n : Z) : 0 < n -> n <= 2 ^ 44 -> Z.log2 n <= 44.
Proof.
  intros Hn Hle. apply Z.log2_le_mono in Hle.
  rewrite Z.log2_pow2 in Hle by lia. exact Hle.
Qed.

(** [k / n] for [1 <= k <= n <= 2^44]. *)
Lemma truediv_spec (k n : Z) :
  1 <= k -> k <= n -> n <= 2 ^ 44 ->
  exists s1 m1,
    truediv k n = mkfloat m1 (- s1)
    /\ 52 <= s1 <= 97
    /\ 2 ^ 52 <= m1 <= 2 ^ 53
    /\ - n <= 2 * (m1 * n - k * 2 ^ s1) <= n.
Proof.
  intros Hk Hkn Hn.
  pose proof (Z.log2_nonneg k) as Hlk.
  pose proof (Z.log2_le_mono k n Hkn) as Hmono.
  pose proof (log2_le_44 n ltac:(lia) Hn) as Hl44.
  destruct (round_frac_small k n ltac:(lia) ltac:(lia)) as (s & Hs & Hr & Hb);
    unfold prec, emin; try lia.
  unfold prec in Hs.
  pose proof (pow2_pos s ltac:(lia)) as Hp.
  exists s, (div_half_even (k * 2 ^ s) n).
  split; [exact Hr|]. split; [lia|]. split.
  - apply div_half_even_range; lia.
  - apply div_half_even_spec; lia.
Qed.

(** [x * 100] for a float [x] between [2^-45] and 1. *)
Lemma mul_int_100_spec (m1 s1 : Z) :
  52 <= s1 <= 97 -> 2 ^ 52 <= m1 <= 2 ^ 53 ->
  exists s2 m2,
    mul_int (mkfloat m1 (- s1)) 100 = mkfloat m2 (- s2)
    /\ s1 - 7 <= s2 <= s1 - 5
    /\ - 2 ^ s1 <= 2 * (m2 * 2 ^ s1 - 100 * m1 * 2 ^ s2) <= 2 ^ s1.
Proof.
  intros Hs1 Hm1.
  pose proof (pow2_pos s1 ltac:(lia)) as Hp1.
  unfold mul_int. cbn [expo mant].
  replace (0 <=? - s1) with false by (symmetry; apply Z.leb_gt; lia).
  replace (- - s1) with s1 by lia.
  assert (Hla : 58 <= Z.log2 (m1 * 100) <= 59).
  { split.
    - change 58 with (Z.log2 (2 ^ 52 * 100)). apply Z.log2_le_mono. lia.
    - change 59 with (Z.log2 (2 ^ 53 * 100)). apply Z.log2_le_mono. lia. }
  assert (Hlb : Z.log2 (2 ^ s1) = s1) by (apply Z.log2_pow2; lia).
  change (2 ^ 52) with 4503599627370496 in Hm1.
  destruct (round_frac_small (m1 * 100) (2 ^ s1) ltac:(lia) Hp1)
    as (s & Hs & Hr & Hb); unfold prec, emin; try lia.
  unfold prec in Hs.
  pose proof (pow2_pos s ltac:(lia)) as Hp.
  exists s, (div_half_even (m1 * 100 * 2 ^ s) (2 ^ s1)).
  split; [exact Hr|]. split; [lia|].
  pose proof (div_half_even_spec (m1 * 100 * 2 ^ s) (2 ^ s1) Hp1 ltac:(nia))
    as H.
  lia.
Qed.

(** The arithmetic behind the bounds: [m1] is [k * P1 / n] rounded,
    [m2] is [100 * m1 * P2 / P1] rounded, and the scales [P1], [P2] are
    large against [n]. *)
Lemma two_roundings (k n q r m1 m2 P1 P2 : Z) :
  1 <= n -> n <= 2 ^ 44 -> 2 ^ 52 <= P1 -> 2 ^ 45 <= P2 ->
  100 * k = q * n + r -> 0 <= r < n -> 0 <= q ->
  - n <= 2 * (m1 * n - k * P1) <= n ->
  - P1 <= 2 * (m2 * P1 - 100 * m1 * P2) <= P1 ->
  (q - 1) * P2 <= m2 < (q + 1) * P2 /\ (r <> 0 -> q * P2 <= m2).
Proof.
  change (2 ^ 44) with 17592186044416.
  change (2 ^ 52) with 4503599627370496.
  change (2 ^ 45) with 35184372088832.
  intros Hn Hn44 HP1 HP2 Hq Hr Hq0 H1 H2.
  assert (Hq' : 100 * k * (P1 * P2) = (q * n + r) * (P1 * P2))
    by (rewrite Hq; reflexivity).
  (* both roundings, brought to the common scale [n * P1 * P2] *)
  assert (E1 : 0 <= (2 * (m2 * P1) - (200 * (m1 * P2) - P1)) * n)
    by (apply Z.mul_nonneg_nonneg; lia).
  assert (E2 : 0 <= (2 * (m1 * n) - (2 * (k * P1) - n)) * (100 * P2))
    by (apply Z.mul_nonneg_nonneg; lia).
  assert (E3 : 0 <= (200 * (m1 * P2) + P1 - 2 * (m2 * P1)) * n)
    by (apply Z.mul_nonneg_nonneg; lia).
  assert (E4 : 0 <= (2 * (k * P1) + n - 2 * (m1 * n)) * (100 * P2))
    by (apply Z.mul_nonneg_nonneg; lia).
  assert (Hlow : 2 * (q * n + r) * (P1 * P2)
                 <= 2 * m2 * P1 * n + P1 * n + 100 * n * P2) by lia.
  assert (Hhigh : 2 * m2 * P1 * n
                  <= 2 * (q * n + r) * (P1 * P2) + P1 * n + 100 * n * P2)
    by lia.
  clear E1 E2 E3 E4 H1 H2 Hq'.
  assert (G1 : 0 <= r * (P1 * P2))
    by (apply Z.mul_nonneg_nonneg; [lia|apply Z.mul_nonneg_nonneg; lia]).
  assert (G2 : 0 <= P1 * n) by (apply Z.mul_nonneg_nonneg; lia).
  assert (G3 : 0 < (2 * P1 - 100) * (n * P2))
    by (apply Z.mul_pos_pos; [lia|apply Z.mul_pos_pos; lia]).
  assert (G4 : 0 < (2 * P1 - 100 * n) * P2) by (apply Z.mul_pos_pos; lia).
  assert (G5 : 0 < (P2 - n) * P1) by (apply Z.mul_pos_pos; lia).
  assert (G6 : 0 < (P1 - 100 * n) * P2) by (apply Z.mul_pos_pos; lia).
  assert (G7 : 0 <= (n - r - 1) * (P1 * P2))
    by (apply Z.mul_nonneg_nonneg; [lia|apply Z.mul_nonneg_nonneg; lia]).
  split; [split|].
  - (* m2 >= (q - 1) * P2 *)
    apply Znot_gt_le. intros Hc.
    assert (F : 0 <= ((q - 1) * P2 - (m2 + 1)) * (2 * (P1 * n)))
      by (apply Z.mul_nonneg_nonneg; lia).
    lia.
  - (* m2 < (q + 1) * P2 *)
    apply Znot_ge_lt. intros Hc.
    assert (F : 0 <= (m2 - (q + 1) * P2) * (2 * (P1 * n)))
      by (apply Z.mul_nonneg_nonneg; lia).
    lia.
  - intros Hr0. apply Znot_gt_le. intros Hc.
    assert (F : 0 <= (q * P2 - (m2 + 1)) * (2 * (P1 * n)))
      by (apply Z.mul_nonneg_nonneg; lia).
    assert (G8 : 0 <= (r - 1) * (P1 * P2))
      by (apply Z.mul_nonneg_nonneg; [lia|apply Z.mul_nonneg_nonneg; lia]).
    lia.
Qed.

(** The percentage against the exact quotient. *)
Lemma percent_floor (ok fail total : Z) :
  0 <= ok -> 0 <= fail -> ok + fail <= Z.max 1 total -> total <= 2 ^ 44 ->
  let n := Z.max 1 total in
  let q := 100 * (ok + fail) / n in
  q - 1 <= percent ok fail total <= q
  /\ ((100 * (ok + fail)) mod n <> 0 -> percent ok fail total = q).
Proof.
  intros Hok Hfail Hle Ht n q. unfold percent. fold n.
  set (k := ok + fail) in *.
  assert (Hn : 1 <= n <= 2 ^ 44) by (unfold n; lia).
  destruct (Z.eq_dec k 0) as [Hk0|Hk0].
  - subst q. rewrite Hk0. vm_compute. split; [split; discriminate|reflexivity].
  - destruct (truediv_spec k n ltac:(lia) Hle ltac:(lia))
      as (s1 & m1 & Hx & Hs1 & Hm1 & H1).
    destruct (mul_int_100_spec m1 s1 Hs1 Hm1) as (s2 & m2 & Hy & Hs2 & H2).
    rewrite Hx, Hy. unfold to_int. cbn [expo mant].
    replace (0 <=? - s2) with false by (symmetry; apply Z.leb_gt; lia).
    replace (- - s2) with s2 by lia.
    pose proof (Z.div_mod (100 * k) n ltac:(lia)) as Hdm.
    pose proof (Z.mod_pos_bound (100 * k) n ltac:(lia)) as Hr.
    fold q in Hdm.
    assert (HP1 : 2 ^ 52 <= 2 ^ s1) by (apply Z.pow_le_mono_r; lia).
    assert (HP2 : 2 ^ 45 <= 2 ^ s2) by (apply Z.pow_le_mono_r; lia).
    assert (Hq0 : 0 <= q) by (apply Z.div_pos; lia).
    destruct (two_roundings k n q ((100 * k) mod n) m1 m2 (2 ^ s1) (2 ^ s2))
      as [[Hlo Hhi] Hex]; try lia.
    pose proof (pow2_pos s2 ltac:(lia)) as Hp2.
    split; [split|].
    + apply Z.div_le_lower_bound; lia.
    + apply Z.lt_succ_r. apply Z.div_lt_upper_bound; lia.
    + intros Hne. apply Z.le_antisymm.
      * apply Z.lt_succ_r. apply Z.div_lt_upper_bound; lia.
      * apply Z.div_le_lower_bound; [lia|]. specialize (Hex Hne). lia.
Qed.

(** A finished batch is at 100. *)
Lemma percent_full (ok fail total : Z) :
  0 <= ok -> 0 <= fail -> ok + fail = Z.max 1 total ->
  percent ok fail total = 100.
Proof.
  intros Hok Hfail He. unfold percent. rewrite He.
  set (n := Z.max 1 total). assert (Hn : 1 <= n) by (unfold n; lia).
  destruct (round_frac_small n n ltac:(lia) ltac:(lia)) as (s & Hs & Hr & Hb);
    unfold prec, emin; try lia.
  unfold prec in Hs.
  assert (Hs52 : s = 52).
  { destruct (Z.eq_dec s 52) as [E|E]; [exact E|].
    assert (s = 53) by lia. subst s.
    change (2 ^ 53) with 9007199254740992 in Hb. lia. }
  subst s.
  assert (Hm : div_half_even (n * 2 ^ 52) n = 2 ^ 52).
  { apply Z.le_antisymm;
      apply (div_half_even_range (n * 2 ^ 52) n (2 ^ 52) (2 ^ 52)); lia. }
  unfold truediv. rewrite Hr, Hm. vm_compute. reflexivity.
Qed.

(** In floating point 29/100 is a little below 0.29, and so is its
    product with 100 below 29. *)
Lemma percent_29_of_100 : percent 29 0 100 = 28.
Proof. vm_compute. reflexivity. Qed.

(** The model agrees with the IEEE 754 specification of the Standard
    Library on every batch of up to 100 items. *)
Lemma percent_agrees_ieee : agree_upto 100 = true.
Proof. vm_compute. reflexivity. Qed.

End FloatFacts.

Section TallyFacts.
Local Open Scope Z_scope.

Lemma run_tallied check_bracketed_netloc executable yt_dlp items0
    cookie_text0 base_dir env :
  let w := fst (fst (run check_bracketed_netloc executable yt_dlp items0
                       cookie_text0 base_dir env (init items0))) in
  well_tallied (total items0) (tally w)
  /\ Forall (counts_within (total items0)) (tally w).
Proof.
  unfold run. destruct yt_dlp; cbn [negb].
  - unfold mbind, io_bind.
    pose proof (loop_effect check_bracketed_netloc executable items0
                  cookie_text0 base_dir env items0 1 (init items0)) as H.
    destruct (loop _ _ _ _ _ _ 1 items0 (init items0)) as [[w s] r].
    destruct H as (_ & Hwt & Hall & _).
    assert (Hall' : Forall (counts_within (total items0)) (tally w)).
    { eapply Forall_impl; [exact Hall|].
      intros [| | |t o f|]; simpl; auto.
      all: try (intros [-> Hb]; unfold total; split; [reflexivity|lia]). }
    destruct r as [[[]|e]|]; simpl; rewrite ?tally_app; simpl;
      rewrite ?app_nil_r; auto.
  - simpl. split; [exact I|constructor].
Qed.

Lemma tallied_truncated (T : Z) (l : list signal) :
  T <= 2 ^ 44 ->
  (well_tallied T l -> Forall (counts_within T) l -> tally_truncated l)
  /\ (forall x, well_tallied T (x :: l) -> Forall (counts_within T) (x :: l) ->
                tally_truncated (x :: l)).
Proof.
  intros HT. induction l as [|y l [IHa IHb]].
  - split; [intros _ _; exact I|].
    intros [| | |t o f|]; simpl; contradiction.
  - split; [apply IHb|].
    intros [| | |t o f|] Hwt Hall; try contradiction.
    destruct y as [|p| | |]; try contradiction.
    destruct Hwt as (Ht & Hp & Hwt).
    inversion Hall as [|? ? Hc Hrest]; subst.
    inversion Hrest as [|? ? _ Hl]; subst.
    destruct Hc as (_ & Ho & Hf & Hle).
    split; [|apply IHa; assumption].
    split; [reflexivity|]. cbv zeta.
    destruct (percent_floor o f T Ho Hf ltac:(lia) HT) as [Hb Hex].
    split; [exact Hb|]. split; [exact Hex|].
    intros Hfull. apply percent_full; assumption.
Qed.

End TallyFacts.

Section PassFacts.
Local Open Scope Z_scope.

Variable check_bracketed_netloc : string -> bool.
Variable executable : string.
Variable items0 : list DownloadItem.
Variable cookie_text0 : string.
Variable base_dir : string.
Variable env : nat -> item_env.

(** A pass that ends has counted its item and ends with the two signals,
    which carry the counters as they then are; a pass that never ends
    sends neither. *)
Lemma pass_ends_with_tally (idx : nat) (item : DownloadItem) (s : wstate) :
  match try_except_finally
          (try_body check_bracketed_netloc executable items0 cookie_text0
             base_dir env idx item)
          except_handler (finally_block items0) s with
  | (w, s', Some r) =>
      r = Ok tt /\ one_more s s'
      /\ exists w0,
           tally w0 = []
           /\ w = (w0 ++ [Emit (counts (total items0) (ok s') (fail s'));
                          Emit (progress (percent (ok s') (fail s')
                                            (total items0)))])%list
  | (w, s', None) => tally w = [] /\ ok s' = ok s /\ fail s' = fail s
  end.
Proof.
  unfold try_except_finally.
  pose proof (try_body_effect check_bracketed_netloc executable items0
                cookie_text0 base_dir env idx item s) as H.
  destruct (try_body _ _ _ _ _ _ _ _ s) as [[w s1] [[[]|e]|]];
    destruct H as (Ht & _ & _ & Hc).
  - simpl. split; [reflexivity|]. split; [exact Hc|].
    exists w. split; [exact Ht|reflexivity].
  - simpl. destruct Hc as [Ho Hf].
    split; [reflexivity|]. split; [right; simpl; split; congruence|].
    exists (w ++ [Emit (log (Error e))])%list. split.
    + rewrite tally_app, Ht. reflexivity.
    + rewrite <- app_assoc. reflexivity.
  - auto.
Qed.

Lemma tally_counts_up_app (T k : Z) (o f : Z) (l : list signal) :
  o + f = k + 1 ->
  tally_counts_up T (k + 1) l ->
  tally_counts_up T k ([counts T o f; progress (percent o f T)] ++ l).
Proof. intros Hk Hl. simpl. auto. Qed.

(** The loop: one pair per item dealt with, counting up from the items
    dealt with before. *)
Lemma loop_counts_up (its : list DownloadItem) :
  forall (idx : nat) (s : wstate),
    match loop check_bracketed_netloc executable items0 cookie_text0
            base_dir env idx its s with
    | (w, s', _) =>
        tally_counts_up (total items0) (ok s + fail s) (tally w)
        /\ Z.of_nat (List.length (tally w))
           = 2 * (ok s' + fail s' - (ok s + fail s))
    end.
Proof.
  induction its as [|item rest IH]; intros idx s.
  - simpl. split; [exact I|lia].
  - cbn [loop]. destruct (stop_is_set (env idx)).
    { simpl. split; [exact I|lia]. }
    unfold mbind at 1. unfold io_bind.
    pose proof (item_pass check_bracketed_netloc executable items0
                  cookie_text0 base_dir env idx item s) as Hi.
    destruct (try_except_finally _ _ _ s) as [[w s1] [r1|]];
      destruct Hi as (_ & _ & Hi).
    + destruct Hi as (-> & Hone & Ht1).
      specialize (IH (S idx) s1).
      destruct (loop _ _ _ _ _ _ (S idx) rest s1) as [[w2 s2] r2].
      destruct IH as [Hup Hlen].
      assert (Hsum : ok s1 + fail s1 = ok s + fail s + 1)
        by (destruct Hone as [[? ?]|[? ?]]; lia).
      rewrite tally_app, Ht1. split.
      * apply tally_counts_up_app; [exact Hsum|].
        rewrite <- Hsum. exact Hup.
      * rewrite length_app. cbn [List.length].
        rewrite Nat2Z.inj_add, Hlen. cbn [Z.of_nat]. lia.
    + destruct Hi as (Ht1 & Ho & Hf). rewrite Ht1. simpl. split; [exact I|lia].
Qed.

(** The run: one pair per item dealt with, from the first on; the items
    dealt with are those started, but for the one that never ends. *)
Lemma run_counts_up (yt_dlp : bool) :
  match run check_bracketed_netloc executable yt_dlp items0 cookie_text0
          base_dir env (init items0) with
  | (w, s, r) =>
      tally_counts_up (total items0) 0 (tally w)
      /\ Z.of_nat (List.length (tally w)) = 2 * (ok s + fail s)
      /\ ok s + fail s
         = Z.of_nat (started w) - match r with Some _ => 0 | None => 1 end
  end.
Proof.
  unfold run. destruct yt_dlp; cbn [negb].
  - unfold mbind at 1. unfold io_bind.
    pose proof (loop_counts_up items0 1 (init items0)) as Hup.
    pose proof (loop_effect check_bracketed_netloc executable items0
                  cookie_text0 base_dir env items0 1 (init items0)) as Heff.
    destruct (loop _ _ _ _ _ _ 1 items0 (init items0)) as [[w s] r].
    destruct Hup as [Hup Hl].
    destruct Heff as (_ & _ & _ & _ & _ & Hr).
    cbn [init ok fail] in Hup, Hl, Hr.
    assert (Hd : tally (w ++ [Emit done]) = tally w
                 /\ started (w ++ [Emit done]) = started w).
    { rewrite tally_app, started_app. simpl.
      rewrite app_nil_r, Nat.add_0_r. auto. }
    destruct Hd as [Hd1 Hd2].
    destruct r as [[[]|e]|]; unfold emit, perform;
      rewrite ?Hd1, ?Hd2; (split; [exact Hup|]); (split; [lia|]).
    + destruct Hr as (_ & _ & Hsum). lia.
    + destruct Hr as (Habs & _). discriminate.
    + destruct Hr as (_ & Hsum). lia.
  - simpl. repeat split.
Qed.

End PassFacts.

(** C4 (amended). After each item completes the worker sends the counts
    and then the percentage.  Every pass of the loop that ends has
    counted its item (one of [ok] and [fail] is up by one) and ends with
    a [counts] signal and a [progress] signal that carry the total, the
    counters as they then are, and
    [int(((ok + fail) / max(1, total)) * 100)] computed in floating point
    from them; a pass that never ends sends neither.  So in every run
    there is one such pair per item dealt with ([ok + fail] pairs, the
    [k]-th reporting [k] items, and the items dealt with are those
    started but for one that never ends), and each percentage is the
    quotient [100 * (ok + fail) / total] cut to an integer, not rounded,
    with [total] floored at 1: the floor [q] of the quotient, except that
    it can be [q - 1] when the quotient is the integer [q] itself (as for
    29 of 100, which gives 28); it is 100 when all items are counted.
    (Batches of at most [2^44] items.) *)
Theorem C4_percent_is_truncated
    (check_bracketed_netloc : string -> bool) (executable : string)
    (yt_dlp : bool) (items0 : list DownloadItem)
    (cookie_text0 base_dir : string) (env : nat -> item_env) :
  (Z.of_nat (List.length items0) <= 2 ^ 44)%Z ->
  (forall (idx : nat) (item : DownloadItem) (s : wstate),
     match try_except_finally
             (try_body check_bracketed_netloc executable items0 cookie_text0
                base_dir env idx item)
             except_handler (finally_block items0) s with
     | (w, s', Some r) =>
         r = Ok tt /\ one_more s s'
         /\ exists w0,
              tally w0 = []
              /\ w = (w0 ++ [Emit (counts (total items0) (ok s') (fail s'));
                             Emit (progress (percent (ok s') (fail s')
                                               (total items0)))])%list
     | (w, s', None) => tally w = [] /\ ok s' = ok s /\ fail s' = fail s
     end)
  /\ match run check_bracketed_netloc executable yt_dlp items0 cookie_text0
             base_dir env (init items0) with
     | (w, s, r) =>
         tally_truncated (tally w)
         /\ tally_counts_up (total items0) 0 (tally w)
         /\ Z.of_nat (List.length (tally w)) = (2 * (ok s + fail s))%Z
         /\ (ok s + fail s
             = Z.of_nat (started w) - match r with Some _ => 0 | None => 1 end)%Z
     end.
Proof.
  intros Hlen. split; [apply pass_ends_with_tally|].
  assert (Htr : tally_truncated
                  (tally (fst (fst (run check_bracketed_netloc executable
                                      yt_dlp items0 cookie_text0 base_dir env
                                      (init items0)))))).
  { destruct (run_tallied check_bracketed_netloc executable yt_dlp items0
                cookie_text0 base_dir env) as [Hwt Hall].
    apply (tallied_truncated (total items0) _ Hlen); assumption. }
  pose proof (run_counts_up check_bracketed_netloc executable items0
                cookie_text0 base_dir env yt_dlp) as Hup.
  destruct (run _ _ _ _ _ _ _ _) as [[w s] r]. cbn [fst] in Htr.
  split; [exact Htr|exact Hup].
Qed.

(** C4, an instance: a batch of three items that all succeed. *)
Lemma C4_percent_is_truncated_witness :
  let item := mkDownloadItem "YouTube" "URL" "https://youtu.be/x" None None in
  let env := fun _ : nat => mkitem_env false false (fun _ => false) (exits 0) in
  let items0 := [item; item; item] in
  tally (fst (fst (run (fun _ => true) "python" true items0 "" "/base" env
                     (init items0))))
  = [counts 3 1 0; progress 33; counts 3 2 0; progress 66;
     counts 3 3 0; progress 100]
  /\ (forall (idx : nat) (item : DownloadItem) (s : wstate),
        match try_except_finally
                (try_body (fun _ => true) "python" items0 "" "/base" env idx
                   item)
                except_handler (finally_block items0) s with
        | (w, s', Some r) =>
            r = Ok tt /\ one_more s s'
            /\ exists w0,
                 tally w0 = []
                 /\ w = (w0 ++ [Emit (counts (total items0) (ok s') (fail s'));
                                Emit (progress (percent (ok s') (fail s')
                                                  (total items0)))])%list
        | (w, s', None) => tally w = [] /\ ok s' = ok s /\ fail s' = fail s
        end)
  /\ match run (fun _ => true) "python" true items0 "" "/base" env
             (init items0) with
     | (w, s, r) =>
         tally_truncated (tally w)
         /\ tally_counts_up (total items0) 0 (tally w)
         /\ Z.of_nat (List.length (tally w)) = (2 * (ok s + fail s))%Z
         /\ (ok s + fail s
             = Z.of_nat (started w)
               - match r with Some _ => 0 | None => 1 end)%Z
     end.
Proof.
  intros item env items0. split; [vm_compute; reflexivity|].
  apply (C4_percent_is_truncated (fun _ => true) "python" true items0 ""
           "/base" env).
  vm_compute. discriminate.
Defined.

(** C4, counterexample: with two of three items done the percentage
    emitted is 66, where rounding [100 * 2 / 3] gives 67. *)
Lemma C4_counterexample :
  let item := mkDownloadItem "YouTube" "URL" "https://youtu.be/x" None None in
  let env := fun _ : nat => mkitem_env false false (fun _ => false) (exits 0) in
  tally (fst (fst (run (fun _ => true) "python" true [item; item; item] ""
                     "/base" env (init [item; item; item]))))
  = [counts 3 1 0; progress 33; counts 3 2 0; progress 66;
     counts 3 3 0; progress 100]
  /\ percent 2 0 3 = 66%Z
  /\ C4_claimed_percent 2 0 3 = 67%Z.
Proof. repeat split; vm_compute; reflexivity. Qed.

(** * Further properties *)

(** ** Trimming *)

Section StripFacts.
Import PyStr.

Variable p : ascii -> bool.

Lemma lstrip_by_empty (s : string) :
  lstrip_by p s = "" <-> all p s = true.
Proof.
  induction s as [|c s IH]; simpl; [tauto|].
  destruct (p c); simpl; [exact IH|]. split; discriminate.
Qed.

Lemma rstrip_by_empty (s : string) :
  rstrip_by p s = "" <-> all p s = true.
Proof.
  induction s as [|c s IH]; simpl; [tauto|].
  destruct (rstrip_by p s) as [|d r] eqn:E.
  - destruct (p c); simpl.
    + split; [intros _; apply IH; reflexivity|reflexivity].
    + split; discriminate.
  - split; [discriminate|]. intros H. apply andb_true_iff in H.
    destruct H as [_ H]. apply IH in H. discriminate.
Qed.

Lemma rstrip_by_cons (c : ascii) (s : string) :
  p c = false -> rstrip_by p (String c s) = String c (rstrip_by p s).
Proof.
  intros Hc. simpl. destruct (rstrip_by p s); [rewrite Hc|]; reflexivity.
Qed.

Lemma rstrip_by_cons_keep (c : ascii) (s : string) :
  rstrip_by p s <> "" -> rstrip_by p (String c s) = String c (rstrip_by p s).
Proof.
  intros Hne. simpl. destruct (rstrip_by p s); [contradiction|reflexivity].
Qed.

Lemma lstrip_by_idem (s : string) :
  lstrip_by p (lstrip_by p s) = lstrip_by p s.
Proof.
  induction s as [|c s IH]; [reflexivity|]. simpl.
  destruct (p c) eqn:Hc; [exact IH|]. simpl. rewrite Hc. reflexivity.
Qed.

Lemma rstrip_by_idem (s : string) :
  rstrip_by p (rstrip_by p s) = rstrip_by p s.
Proof.
  induction s as [|c s IH]; [reflexivity|].
  destruct (rstrip_by p s) as [|d r] eqn:E.
  - simpl. rewrite E. destruct (p c) eqn:Hc; [reflexivity|].
    simpl. rewrite Hc. reflexivity.
  - rewrite rstrip_by_cons_keep by (rewrite E; discriminate).
    rewrite E. rewrite rstrip_by_cons_keep by (rewrite IH; discriminate).
    rewrite IH. reflexivity.
Qed.

(** Trimming on the left and on the right commute. *)
Lemma lstrip_rstrip_comm (s : string) :
  lstrip_by p (rstrip_by p s) = rstrip_by p (lstrip_by p s).
Proof.
  induction s as [|c s IH]; [reflexivity|].
  destruct (p c) eqn:Hc.
  - cbn [lstrip_by]. rewrite Hc.
    destruct (rstrip_by p s) as [|d r] eqn:E.
    + simpl. rewrite E, Hc. simpl.
      apply rstrip_by_empty in E. apply lstrip_by_empty in E.
      rewrite E. reflexivity.
    + rewrite rstrip_by_cons_keep by (rewrite E; discriminate).
      cbn [lstrip_by]. rewrite Hc, E. exact IH.
  - rewrite rstrip_by_cons by exact Hc.
    cbn [lstrip_by]. rewrite Hc. rewrite rstrip_by_cons by exact Hc.
    reflexivity.
Qed.

Lemma strip_by_idem (s : string) :
  strip_by p (strip_by p s) = strip_by p s.
Proof.
  unfold strip_by.
  rewrite lstrip_rstrip_comm, lstrip_by_idem, rstrip_by_idem. reflexivity.
Qed.

(** Characters of the trimmed class in front or behind do not count. *)
Lemma lstrip_by_app_all (w s : string) :
  all p w = true -> lstrip_by p (w ++ s) = lstrip_by p s.
Proof.
  induction w as [|c w IH]; [reflexivity|].
  intros H. cbn [all] in H. apply andb_true_iff in H. destruct H as [Hc Hw].
  change (String c w ++ s) with (String c (w ++ s)). cbn [lstrip_by].
  rewrite Hc. exact (IH Hw).
Qed.

Lemma rstrip_by_app_all (s w : string) :
  all p w = true -> rstrip_by p (s ++ w) = rstrip_by p s.
Proof.
  intros Hw. induction s as [|c s IH].
  - change ("" ++ w) with w. apply rstrip_by_empty, Hw.
  - change (String c s ++ w) with (String c (s ++ w)).
    cbn [rstrip_by]. rewrite IH. reflexivity.
Qed.

(** A front part without characters of the class stays. *)
Lemma rstrip_by_app_keep (a s : string) :
  all (fun c => negb (p c)) a = true ->
  rstrip_by p (a ++ s) = a ++ rstrip_by p s.
Proof.
  induction a as [|c a IH]; [reflexivity|].
  intros H. cbn [all] in H. apply andb_true_iff in H. destruct H as [Hc Ha].
  apply negb_true_iff in Hc.
  change (String c a ++ s) with (String c (a ++ s)).
  rewrite rstrip_by_cons by exact Hc. rewrite (IH Ha). reflexivity.
Qed.

Lemma strip_by_app_all (w1 s w2 : string) :
  all p w1 = true -> all p w2 = true ->
  strip_by p (w1 ++ s ++ w2) = strip_by p s.
Proof.
  intros H1 H2. unfold strip_by.
  rewrite lstrip_by_app_all by exact H1.
  rewrite <- !lstrip_rstrip_comm. rewrite rstrip_by_app_all by exact H2.
  reflexivity.
Qed.

End StripFacts.

(** ** [slugify] once more *)

Section SlugIdem.
Import PyStr.

Lemma sub_runs_fixed (in_run : bool) (s : string) :
  all slug_char s = true -> sub_runs in_run s = s.
Proof.
  revert in_run. induction s as [|c s IH]; intros in_run; [reflexivity|].
  cbn [all sub_runs]. intros H. apply andb_true_iff in H.
  destruct H as [Hc Hs]. rewrite Hc, (IH false Hs). reflexivity.
Qed.

Lemma slug_char_not_space (c : ascii) :
  slug_char c = true -> negb (isspace c) = true.
Proof. destruct c as [[] [] [] [] [] [] [] []]; vm_compute; congruence. Qed.

Lemma strip_slug (s : string) : all slug_char s = true -> strip s = s.
Proof.
  intros H. apply strip_by_none. revert H. apply all_impl.
  exact slug_char_not_space.
Qed.

End SlugIdem.

Lemma slugify_fixed (t : string) :
  PyStr.all slug_char t = true -> PyStr.strip_chars "_" t = t ->
  PyStr.truthy t = true -> slugify t = t.
Proof.
  intros Hall Hs Ht. unfold slugify.
  rewrite (strip_slug t Hall), (sub_runs_fixed false t Hall), Hs.
  unfold PyStr.or_else. rewrite Ht. reflexivity.
Qed.

(** X1. [slugify] is idempotent: a name it has produced is left as it is
    (so a folder name can be derived again from itself). *)
Theorem slugify_idempotent (s : string) : slugify (slugify s) = slugify s.
Proof.
  apply slugify_fixed.
  - apply slugify_slug_chars.
  - unfold slugify, PyStr.or_else.
    destruct (PyStr.truthy _); [|reflexivity].
    unfold PyStr.strip_chars. apply strip_by_idem.
  - apply slugify_truthy.
Qed.

(** ** The license key, further *)

Section LicenseMore.
Import PyStr DateTime License.
Local Open Scope Z_scope.

(** X2. The license check ignores white space around the key: a key
    pasted with blanks or a line end before or after it is judged as the
    key itself. *)
Theorem validate_license_ignores_whitespace
    (now : datetime) (w1 key w2 : string) :
  all isspace w1 = true -> all isspace w2 = true ->
  validate_license now (w1 ++ key ++ w2) = validate_license now key.
Proof.
  intros H1 H2. unfold validate_license, strip.
  rewrite (strip_by_app_all isspace w1 key w2 H1 H2). reflexivity.
Qed.

Lemma validate_license_ignores_whitespace_witness :
  validate_license (mkdatetime 2024 6 1 12 0 0 0)
    (String "009" " " ++ "AB12-CD34-EF56-20300101" ++ String "010" "")
  = validate_license (mkdatetime 2024 6 1 12 0 0 0) "AB12-CD34-EF56-20300101".
Proof.
  apply (validate_license_ignores_whitespace
           (mkdatetime 2024 6 1 12 0 0 0) (String "009" " ")
           "AB12-CD34-EF56-20300101" (String "010" ""));
    vm_compute; reflexivity.
Defined.

(** The order of date-times: what is later than something not earlier
    than [c] is later than [c]. *)
Lemma lex_gt_chain (a b c : list Z) :
  length a = length b -> length b = length c ->
  lex_gt a c = true -> lex_gt a b = false -> lex_gt b c = true.
Proof.
  revert b c. induction a as [|x a IH]; intros [|y b] [|z c]; simpl;
    try discriminate; try congruence.
  intros [= Hab] [= Hbc].
  rewrite !orb_true_iff, !orb_false_iff, !andb_true_iff, !andb_false_iff,
    !Z.ltb_lt, !Z.ltb_ge, !Z.eqb_eq, !Z.eqb_neq.
  intros Hac [Hxy Hb].
  destruct (Z.lt_trichotomy z y) as [Hlt|[Heq|Hgt]]; [left; exact Hlt| |].
  - right. split; [congruence|]. subst z.
    destruct Hac as [Hac|[Hxz Hac]]; [lia|].
    destruct Hb as [Hb|Hb]; [congruence|].
    apply (IH b c Hab Hbc Hac Hb).
  - destruct Hac as [Hac|[Hxz Hac]]; lia.
Qed.

Lemma gt_chain (a b c : datetime) :
  gt a c = true -> gt a b = false -> gt b c = true.
Proof. unfold gt. apply lex_gt_chain; reflexivity. Qed.

(** X3. The license check never turns a rejected key into an accepted
    one as time passes: a key accepted at some clock reading is accepted
    at every reading that is not later. *)
Theorem validate_license_earlier (now earlier : datetime) (key : string) :
  gt earlier now = false ->
  validate_license now key = true ->
  validate_license earlier key = true.
Proof.
  intros Hle. unfold validate_license.
  destruct (negb _); [exact (fun H => H)|].
  destruct (strptime_Ymd _) as [exp|e]; cbn [mbind result_bind try_except];
    [|exact (fun H => H)].
  destruct (gt now exp) eqn:Hnow; [discriminate|]. intros _.
  destruct (gt earlier exp) eqn:Hearlier; [|reflexivity].
  pose proof (gt_chain earlier now exp Hearlier Hle). congruence.
Qed.

Lemma validate_license_earlier_witness :
  validate_license (mkdatetime 2024 6 1 12 0 0 0) "AB12-CD34-EF56-20300101"
  = true.
Proof.
  apply (validate_license_earlier (mkdatetime 2029 12 31 23 59 59 0)
           (mkdatetime 2024 6 1 12 0 0 0));
    vm_compute; reflexivity.
Defined.

(** One day earlier: the date moves back, stays valid, and the step only
    fails on the first day of year 1. *)
Lemma prev_day_spec (t : datetime) :
  valid_datetime t = true ->
  (forall t', prev_day t = Ok t' ->
     valid_datetime t' = true /\ date_before t' t /\ same_time t' t
     /\ year t - 1 <= year t' <= year t)
  /\ (MINYEAR < year t -> exists t', prev_day t = Ok t').
Proof.
  intros Hv. apply valid_datetime_spec in Hv.
  destruct Hv as (Hd & Hh & Hm & Hs & Hu).
  apply check_date_fields_spec in Hd.
  destruct t as [y m d hh mm ss us]. simpl in *.
  unfold MINYEAR, date_before, same_time.
  pose proof (days_in_month_bounds y (m - 1)) as Hb1.
  destruct (1 <? d) eqn:E1;
    [|destruct (1 <? m) eqn:E2; [|destruct (1 <? y) eqn:E3]].
  - apply Z.ltb_lt in E1. split; [|eauto].
    intros t' [= <-]. simpl.
    split; [|split; [|split]]; try lia; try tauto.
    apply valid_datetime_spec. simpl.
    rewrite check_date_fields_spec. lia.
  - apply Z.ltb_lt in E2. split; [|eauto].
    intros t' [= <-]. simpl.
    split; [|split; [|split]]; try lia; try tauto.
    apply valid_datetime_spec. simpl.
    rewrite check_date_fields_spec. lia.
  - apply Z.ltb_lt in E3. split; [|eauto].
    intros t' [= <-]. simpl.
    split; [|split; [|split]]; try lia; try tauto.
    apply valid_datetime_spec. simpl.
    rewrite check_date_fields_spec. unfold days_in_month. simpl. lia.
  - apply Z.ltb_ge in E3. split; [intros t'; discriminate|lia].
Qed.

(** [n >= 1] days earlier. *)
Lemma sub_days_spec (t : datetime) (n : Z) :
  valid_datetime t = true -> 1 <= n -> MINYEAR <= year t - n ->
  exists t', add_days t (- n) = Ok t'
             /\ valid_datetime t' = true /\ date_before t' t
             /\ same_time t' t /\ year t - n <= year t'.
Proof.
  intros Hv Hn Hy. unfold add_days.
  assert (Hyear : 1 <= year t <= 9999).
  { apply valid_datetime_spec in Hv. destruct Hv as (Hd & _).
    apply check_date_fields_spec in Hd. lia. }
  unfold MINYEAR in Hy.
  replace (999999999 <? Z.abs (- n)) with false
    by (symmetry; apply Z.ltb_ge; lia).
  replace (0 <=? - n) with false by (symmetry; apply Z.leb_gt; lia).
  rewrite Z.opp_involutive.
  destruct n as [|p|p]; try lia. clear Hn. cbn [Z.iter].
  revert Hy.
  apply (Pos.iter_ind _ (fun r => r ≫= prev_day) (Ok t)
           (fun p r =>
              1 <= year t - Z.pos p ->
              exists t', r = Ok t'
                /\ valid_datetime t' = true /\ date_before t' t
                /\ same_time t' t /\ year t - Z.pos p <= year t')).
  - intros Hy. destruct (prev_day_spec t Hv) as [Hok Hex].
    destruct Hex as [t' E]; [unfold MINYEAR; lia|].
    destruct (Hok t' E) as (Hv1 & Hb1 & Hs1 & Hy1).
    exists t'. cbn [mbind result_bind]. repeat (split; [assumption|]). lia.
  - intros q r IH Hy. destruct IH as (t1 & -> & Hv1 & Hb1 & Hs1 & Hy1); [lia|].
    destruct (prev_day_spec t1 Hv1) as [Hok Hex].
    destruct Hex as [t2 E]; [unfold MINYEAR; lia|].
    destruct (Hok t2 E) as (Hv2 & Hb2 & Hs2 & Hy2).
    exists t2. cbn [mbind result_bind].
    split; [exact E|]. split; [exact Hv2|].
    split; [eapply date_before_trans; eassumption|].
    split; [eapply same_time_trans; eassumption|]. lia.
Qed.

(** The clock is past the midnight that starts an earlier day. *)
Lemma gt_midnight_earlier (now exp : datetime) :
  valid_datetime now = true ->
  date_before exp now ->
  gt now (mkdatetime (year exp) (month exp) (day exp) 0 0 0 0) = true.
Proof.
  unfold date_before, gt, fields. intros _ H. cbn [lex_gt year month day].
  destruct H as [H|[Hy [H|[Hm H]]]].
  - replace (year exp <? year now) with true
      by (symmetry; apply Z.ltb_lt; lia). reflexivity.
  - replace (year now =? year exp) with true
      by (symmetry; apply Z.eqb_eq; lia).
    replace (month exp <? month now) with true
      by (symmetry; apply Z.ltb_lt; lia).
    rewrite orb_true_r. reflexivity.
  - replace (year now =? year exp) with true
      by (symmetry; apply Z.eqb_eq; lia).
    replace (month now =? month exp) with true
      by (symmetry; apply Z.eqb_eq; lia).
    replace (day exp <? day now) with true
      by (symmetry; apply Z.ltb_lt; lia).
    rewrite !orb_true_r. reflexivity.
Qed.

(** The verdict on a key of three groups and the date of [exp]: it is
    accepted while the clock has not passed 00:00 of that day. *)
Lemma dated_key_verdict (now exp : datetime) (a b c : string) :
  is_group a = true -> is_group b = true -> is_group c = true ->
  valid_datetime exp = true -> 1000 <= year exp ->
  validate_license now (join "-" [a; b; c; strftime_Ymd exp])
  = negb (gt now (mkdatetime (year exp) (month exp) (day exp) 0 0 0 0)).
Proof.
  intros Ha Hb Hc Hve Hye.
  destruct (strftime_date8 exp Hve Hye) as [H8 Hemb].
  assert (Hsplit : split "-" (join "-" [a; b; c; strftime_Ymd exp])
                   = [a; b; c; strftime_Ymd exp])
    by (apply joined_key_shape; assumption).
  rewrite validate_license_shaped; unfold C2_claimed_validity, C2_shape;
    rewrite Hsplit.
  - cbn [List.nth]. rewrite Hemb, Ha, Hb, Hc, H8. reflexivity.
  - rewrite Ha, Hb, Hc, H8. reflexivity.
Qed.

(** X4. A key generated for zero or a negative number of days that go
    back no further than year 1000 (the clock's year plus [exp_days] is
    at least 1000, so that the date is still printed with a year of four
    digits) is expired on arrival: [generate_license] returns it, and
    [validate_license] rejects it at the same clock reading.  (With zero
    days the key carries today's date, which is past as soon as the clock
    is past 00:00.  Further back the statement fails: a year below 1000
    is printed with fewer digits and the date is read as another one, and
    before year 1 there is no key but an [OverflowError].) *)
Theorem nonpositive_days_key_is_expired
    (now : datetime) (rng : nat -> nat) (exp_days : Z) :
  valid_datetime now = true ->
  (forall i, rng i < 36)%nat ->
  exp_days <= 0 -> 1000 <= year now + exp_days ->
  (exp_days < 0
   \/ gt now (mkdatetime (year now) (month now) (day now) 0 0 0 0) = true) ->
  exists key,
    generate_license now rng exp_days = Ok key
    /\ validate_license now key = false.
Proof.
  intros Hv Hr Hd Hy Hpast.
  assert (Hexp : exists exp,
             add_days now exp_days = Ok exp
             /\ valid_datetime exp = true /\ 1000 <= year exp
             /\ gt now (mkdatetime (year exp) (month exp) (day exp) 0 0 0 0)
                = true).
  { destruct (Z.eq_dec exp_days 0) as [->|Hne].
    - exists now. split; [reflexivity|]. split; [exact Hv|].
      split; [lia|]. destruct Hpast as [Hlt|Hgt]; [lia|exact Hgt].
    - destruct (sub_days_spec now (- exp_days) Hv) as
        (exp & E & Hve & Hb & _ & Hye); [lia|unfold MINYEAR; lia|].
      rewrite Z.opp_involutive in E.
      exists exp. split; [exact E|]. split; [exact Hve|]. split; [lia|].
      apply gt_midnight_earlier; assumption. }
  destruct Hexp as (exp & E & Hve & Hye & Hgt).
  unfold generate_license. rewrite E. cbn [mbind result_bind].
  eexists. split; [reflexivity|].
  change (validate_license now
            (join "-" [choices rng chars 0 4; choices rng chars 4 4;
                       choices rng chars 8 4; strftime_Ymd exp]) = false).
  rewrite dated_key_verdict by auto using choices_is_group.
  rewrite Hgt. reflexivity.
Qed.

Lemma nonpositive_days_key_is_expired_witness :
  exists key,
    generate_license (mkdatetime 2024 3 1 9 30 0 0)
      (fun i => (7 * i + 3) mod 36)%nat (-1) = Ok key
    /\ validate_license (mkdatetime 2024 3 1 9 30 0 0) key = false.
Proof.
  apply (nonpositive_days_key_is_expired (mkdatetime 2024 3 1 9 30 0 0)
           (fun i => (7 * i + 3) mod 36)%nat (-1)).
  - vm_compute; reflexivity.
  - intros i. apply Nat.mod_upper_bound. discriminate.
  - lia.
  - simpl. lia.
  - left. lia.
Defined.

End LicenseMore.

(** ** [detect_platform] *)

Section DetectFacts.
Import PyStr UrlParse.

Variable cb : string -> bool.

Local Abbreviation plain := (fun c : ascii => negb (mem c "[]")).

Lemma all_map (p q : ascii -> bool) (f : ascii -> ascii) (s : string) :
  (forall c, p c = true -> q (f c) = true) ->
  all p s = true -> all q (map f s) = true.
Proof.
  intros Hf. induction s as [|c s IH]; [reflexivity|].
  cbn [all map]. intros H. apply andb_true_iff in H. destruct H as [Hc Hs].
  rewrite (Hf c Hc), (IH Hs). reflexivity.
Qed.

Lemma all_remove (p q : ascii -> bool) (s : string) :
  all p s = true -> all p (remove q s) = true.
Proof.
  induction s as [|c s IH]; [reflexivity|].
  cbn [all remove]. intros H. apply andb_true_iff in H. destruct H as [Hc Hs].
  destruct (q c); [auto|]. cbn [all]. rewrite Hc. auto.
Qed.

Lemma all_partition (p : ascii -> bool) (sep : ascii) (s a b : string) :
  partition sep s = Some (a, b) -> all p s = true ->
  all p a = true /\ all p b = true.
Proof.
  revert a b. induction s as [|c s IH]; intros a b; [discriminate|].
  cbn [partition all]. intros E H. apply andb_true_iff in H.
  destruct H as [Hc Hs].
  destruct (Ascii.eqb c sep).
  - injection E as <- <-. auto.
  - destruct (partition sep s) as [[a' b']|]; [|discriminate].
    injection E as <- <-. destruct (IH a' b' eq_refl Hs) as [Ha Hb].
    cbn [all]. rewrite Hc, Ha. auto.
Qed.

Lemma all_splitnetloc (p : ascii -> bool) (s : string) :
  all p s = true ->
  all p (fst (splitnetloc s)) = true /\ all p (snd (splitnetloc s)) = true.
Proof.
  induction s as [|c s IH]; [auto|].
  cbn [splitnetloc]. intros H.
  destruct (mem c "/?#"); [auto|].
  cbn [all] in H. apply andb_true_iff in H. destruct H as [Hc Hs].
  destruct (IH Hs) as [Ha Hb]. destruct (splitnetloc s) as [n rest].
  cbn [fst snd all] in *. rewrite Hc, Ha. auto.
Qed.

Lemma all_split_scheme (p : ascii -> bool) (s : string) :
  all p s = true -> all p (snd (split_scheme s)) = true.
Proof.
  intros H. unfold split_scheme. destruct s as [|c0 s']; [reflexivity|].
  destruct (partition ":" (String c0 s')) as [[pre post]|] eqn:E; [|exact H].
  destruct (_ && _); [|exact H].
  apply (all_partition p ":" _ pre post E H).
Qed.

Lemma plain_no_bracket (s : string) :
  all plain s = true -> mem "[" s = false /\ mem "]" s = false.
Proof.
  induction s as [|c s IH]; [auto|].
  cbn [all]. intros H. apply andb_true_iff in H. destruct H as [Hc Hs].
  destruct (IH Hs) as [H1 H2]. cbn [mem]. rewrite H1, H2.
  cbn [mem] in Hc. rewrite orb_false_r in Hc.
  apply negb_true_iff, orb_false_iff in Hc. destruct Hc as [Hc1 Hc2].
  rewrite (Ascii.eqb_sym "[" c), (Ascii.eqb_sym "]" c), Hc1, Hc2. auto.
Qed.

(** The one way [urlsplit] fails is a bracket in the network location. *)
Lemma split_authority_result (url : string) :
  match split_authority cb url with
  | Ok _ => True
  | Raise e => e = ValueError /\ all plain url = false
  end.
Proof.
  unfold split_authority.
  destruct url as [|c1 [|c2 rest]]; [exact I| |].
  { destruct c1 as [[] [] [] [] [] [] [] []]; exact I. }
  destruct (Ascii.eqb_spec c1 "/") as [->|Hn1].
  2: { destruct c1 as [[] [] [] [] [] [] [] []]; try exact I. congruence. }
  destruct (Ascii.eqb_spec c2 "/") as [->|Hn2].
  2: { destruct c2 as [[] [] [] [] [] [] [] []]; try exact I. congruence. }
  destruct (all plain (String "/" (String "/" rest))) eqn:Hall.
  - cbn [all] in Hall. change (plain "/"%char) with true in Hall.
    cbn [andb] in Hall.
    destruct (all_splitnetloc plain rest Hall) as [Hn _].
    destruct (splitnetloc rest) as [nl url']. cbn [fst] in Hn.
    destruct (plain_no_bracket nl Hn) as [-> ->]. exact I.
  - destruct (splitnetloc rest) as [nl url'].
    destruct (_ || _); [auto|]. destruct (_ && _); [auto|exact I].
Qed.

Lemma urlsplit_result (url : string) :
  match urlsplit cb url with
  | Ok _ => True
  | Raise e => e = ValueError /\ all plain url = false
  end.
Proof.
  unfold urlsplit.
  destruct (split_scheme _) as [sch u] eqn:E.
  pose proof (split_authority_result u) as H.
  destruct (split_authority cb u) as [[nl u']|e]; cbn [mbind result_bind];
    [exact I|].
  destruct H as [-> H]. split; [reflexivity|].
  destruct (all plain url) eqn:Hall; [|reflexivity].
  rewrite <- H. symmetry.
  change u with (snd (sch, u)). rewrite <- E.
  apply all_split_scheme, all_remove, all_lstrip_by, Hall.
Qed.

Lemma urlparse_result (url : string) :
  match urlparse cb url with
  | Ok _ => True
  | Raise e => e = ValueError /\ all plain url = false
  end.
Proof.
  unfold urlparse. pose proof (urlsplit_result url) as H.
  destruct (urlsplit cb url) as [r|e]; cbn [mbind result_bind]; [|exact H].
  destruct (_ && _); exact I.
Qed.

Lemma lower_char_plain (c : ascii) :
  plain c = true -> plain (lower_char c) = true.
Proof. destruct c as [[] [] [] [] [] [] [] []]; vm_compute; congruence. Qed.

End DetectFacts.

(** X5. On a text whose characters all lie in U+0000 to U+00FF (the
    strings of this development), [detect_platform] answers with one of
    the entries of [PLATFORMS], and the only way it fails is the
    [ValueError] of [urlparse] on a text that holds a square bracket: on
    such a text without [[] and []] it always answers.  (Beyond U+00FF
    [urlparse] has one more [ValueError], for a network location that the
    NFKC normalisation turns into one with [/], [?], [#], [@] or [:];
    that is outside this statement.) *)
Theorem detect_platform_range (cb : string -> bool) (text : string) :
  match detect_platform cb text with
  | Ok p => In p PLATFORMS
  | Raise e =>
      e = ValueError
      /\ PyStr.all (fun c => negb (PyStr.mem c "[]")) text = false
  end.
Proof.
  unfold detect_platform, PLATFORMS.
  destruct (PyStr.startswith _ "http"); [|simpl; auto].
  pose proof (urlparse_result cb (PyStr.lower (PyStr.strip text))) as H.
  destruct (UrlParse.urlparse cb _) as [r|e]; cbn [mbind result_bind].
  - repeat (destruct (PyStr.contains _ _); [simpl; auto 6|]).
    simpl; auto.
  - destruct H as [-> H]. split; [reflexivity|].
    destruct (PyStr.all _ text) eqn:Hall; [|reflexivity].
    rewrite <- H. symmetry.
    apply (all_map _ _ _ _ lower_char_plain).
    apply all_strip_by, Hall.
Qed.

(** ** The network location of an [http] address *)

Section HostFacts.
Import PyStr UrlParse.

Variable cb : string -> bool.

(** A character that can stand in a host name as far as [urlsplit] goes:
    none of [/?#[]], no white space. *)
Local Abbreviation host_char :=
  (fun c : ascii => negb (mem c "/?#[]") && negb (isspace c)).

Lemma host_char_facts (c : ascii) :
  host_char c = true ->
  negb (mem c "/?#") = true /\ negb (mem c "[]") = true
  /\ negb (isspace c) = true /\ negb (unsafe_to_remove c) = true
  /\ host_char (lower_char c) = true.
Proof. destruct c as [[] [] [] [] [] [] [] []]; vm_compute; intuition congruence. Qed.

Lemma map_app (f : ascii -> ascii) (s t : string) :
  map f (s ++ t) = map f s ++ map f t.
Proof.
  induction s as [|c s IH]; [reflexivity|].
  change (String c s ++ t) with (String c (s ++ t)).
  cbn [map]. rewrite IH. reflexivity.
Qed.

Lemma remove_app (p : ascii -> bool) (s t : string) :
  remove p (s ++ t) = remove p s ++ remove p t.
Proof.
  induction s as [|c s IH]; [reflexivity|].
  change (String c s ++ t) with (String c (s ++ t)).
  cbn [remove]. rewrite IH. destruct (p c); reflexivity.
Qed.

Lemma remove_none (p : ascii -> bool) (s : string) :
  all (fun c => negb (p c)) s = true -> remove p s = s.
Proof.
  induction s as [|c s IH]; [reflexivity|].
  cbn [all remove]. intros H. apply andb_true_iff in H. destruct H as [Hc Hs].
  apply negb_true_iff in Hc. rewrite Hc, (IH Hs). reflexivity.
Qed.

Lemma splitnetloc_host (host rest : string) :
  all (fun c => negb (mem c "/?#")) host = true ->
  splitnetloc (host ++ String "/" rest) = (host, String "/" rest).
Proof.
  induction host as [|c host IH]; [reflexivity|].
  change (String c host ++ String "/" rest)
    with (String c (host ++ String "/" rest)).
  cbn [all splitnetloc]. intros H. apply andb_true_iff in H.
  destruct H as [Hc Hs]. apply negb_true_iff in Hc.
  rewrite Hc, (IH Hs). reflexivity.
Qed.

(** [urlparse] keeps the scheme and the network location of [urlsplit],
    and the whole result when the path holds no [;]. *)
Lemma urlparse_of_urlsplit (url : string) (r : ParseResult) :
  urlsplit cb url = Ok r ->
  exists r', urlparse cb url = Ok r'
             /\ scheme r' = scheme r /\ netloc r' = netloc r
             /\ (mem ";" (path r) = false -> r' = r).
Proof.
  intros E. unfold urlparse. rewrite E. cbn [mbind result_bind].
  destruct (existsb _ _ && mem ";" (path r)) eqn:Hp.
  - eexists. split; [reflexivity|]. cbn [scheme netloc].
    split; [reflexivity|]. split; [reflexivity|].
    intros Hs. rewrite Hs, andb_false_r in Hp. discriminate.
  - exists r. auto.
Qed.

(** The address [sch://host/rest] for [sch] one of [http] and [https]. *)
Lemma urlsplit_http (sch host rest : string) :
  In sch ["http"; "https"] ->
  all host_char host = true ->
  urlsplit cb (sch ++ "://" ++ host ++ String "/" rest)
  = Ok (mkParseResult sch host
          (before "?" (before "#"
             (String "/" (remove unsafe_to_remove rest))))).
Proof.
  intros Hsch Hh.
  assert (H1 : all (fun c => negb (mem c "/?#")) host = true)
    by (revert Hh; apply all_impl; intros c Hc;
        apply (host_char_facts c Hc)).
  assert (H2 : all (fun c => negb (mem c "[]")) host = true)
    by (revert Hh; apply all_impl; intros c Hc;
        apply (host_char_facts c Hc)).
  assert (H3 : all (fun c => negb (unsafe_to_remove c)) host = true)
    by (revert Hh; apply all_impl; intros c Hc;
        apply (host_char_facts c Hc)).
  destruct (plain_no_bracket host H2) as [Hb1 Hb2].
  assert (Hrem : forall pre,
            all (fun c => negb (unsafe_to_remove c)) pre = true ->
            remove unsafe_to_remove (pre ++ host ++ String "/" rest)
            = pre ++ host ++ String "/" (remove unsafe_to_remove rest)).
  { intros pre Hpre.
    rewrite remove_app, (remove_none _ pre Hpre).
    rewrite remove_app, (remove_none _ host H3). reflexivity. }
  unfold urlsplit.
  destruct Hsch as [<-|[<-|[]]].
  - change ("http" ++ "://" ++ host ++ String "/" rest)
      with (String "h" ("ttp://" ++ host ++ String "/" rest)).
    cbn [lstrip_by]. change (c0_control_or_space "h") with false. cbv iota.
    change (String "h" ("ttp://" ++ host ++ String "/" rest))
      with ("http://" ++ host ++ String "/" rest).
    rewrite (Hrem "http://" eq_refl).
    change (split_scheme
              ("http://" ++ host ++ String "/" (remove unsafe_to_remove rest)))
      with ("http", String "/" (String "/"
              (host ++ String "/" (remove unsafe_to_remove rest)))).
    cbv iota beta. unfold split_authority.
    rewrite (splitnetloc_host host _ H1), Hb1, Hb2. reflexivity.
  - change ("https" ++ "://" ++ host ++ String "/" rest)
      with (String "h" ("ttps://" ++ host ++ String "/" rest)).
    cbn [lstrip_by]. change (c0_control_or_space "h") with false. cbv iota.
    change (String "h" ("ttps://" ++ host ++ String "/" rest))
      with ("https://" ++ host ++ String "/" rest).
    rewrite (Hrem "https://" eq_refl).
    change (split_scheme
              ("https://" ++ host ++ String "/" (remove unsafe_to_remove rest)))
      with ("https", String "/" (String "/"
              (host ++ String "/" (remove unsafe_to_remove rest)))).
    cbv iota beta. unfold split_authority.
    rewrite (splitnetloc_host host _ H1), Hb1, Hb2. reflexivity.
Qed.

End HostFacts.

Section DetectHost.
Import PyStr UrlParse.

Variable cb : string -> bool.

Local Abbreviation host_char :=
  (fun c : ascii => negb (mem c "/?#[]") && negb (isspace c)).

Lemma append_assoc (a b c : string) : (a ++ b) ++ c = a ++ b ++ c.
Proof.
  induction a as [|x a IH]; [reflexivity|].
  change (String x (a ++ b) ++ c = String x (a ++ b ++ c)).
  change (String x ((a ++ b) ++ c) = String x (a ++ b ++ c)).
  rewrite IH. reflexivity.
Qed.

(** The text [detect_platform] looks at, for the address
    [sch://host/t]. *)
Lemma detect_text (sch host t : string) :
  In sch ["http"; "https"] ->
  all host_char host = true ->
  lower (strip (sch ++ "://" ++ host ++ String "/" t))
  = sch ++ "://" ++ lower host ++ String "/" (lower (rstrip_by isspace t)).
Proof.
  intros Hsch Hh.
  assert (H1 : all (fun c => negb (isspace c)) host = true)
    by (revert Hh; apply all_impl; intros c Hc;
        apply (host_char_facts c Hc)).
  assert (Hpre : forall pre,
            all (fun c => negb (isspace c)) pre = true ->
            rstrip_by isspace (pre ++ host ++ String "/" t)
            = pre ++ host ++ String "/" (rstrip_by isspace t)).
  { intros pre Hp.
    change (String "/" t) with ("/" ++ t).
    rewrite <- !append_assoc.
    rewrite rstrip_by_app_keep; [rewrite !append_assoc; reflexivity|].
    rewrite !all_app, Hp, H1. reflexivity. }
  unfold strip, strip_by, lower.
  destruct Hsch as [<-|[<-|[]]].
  - change ("http" ++ "://" ++ host ++ String "/" t)
      with (String "h" ("ttp://" ++ host ++ String "/" t)).
    cbn [lstrip_by]. change (isspace "h") with false. cbv iota.
    change (String "h" ("ttp://" ++ host ++ String "/" t))
      with ("http://" ++ host ++ String "/" t).
    rewrite (Hpre "http://" eq_refl).
    rewrite !map_app. reflexivity.
  - change ("https" ++ "://" ++ host ++ String "/" t)
      with (String "h" ("ttps://" ++ host ++ String "/" t)).
    cbn [lstrip_by]. change (isspace "h") with false. cbv iota.
    change (String "h" ("ttps://" ++ host ++ String "/" t))
      with ("https://" ++ host ++ String "/" t).
    rewrite (Hpre "https://" eq_refl).
    rewrite !map_app. reflexivity.
Qed.

(** On the address [sch://host/t] the answer is read off the host. *)
Lemma detect_platform_host (sch host t : string) :
  In sch ["http"; "https"] ->
  all host_char host = true ->
  detect_platform cb (sch ++ "://" ++ host ++ String "/" t)
  = let h := lower (lower host) in
    if contains "youtu" h then Ok "YouTube"
    else if contains "tiktok.com" h then Ok "TikTok"
    else if contains "instagram.com" h then Ok "Instagram"
    else if contains "facebook.com" h || contains "fb.watch" h
    then Ok "Facebook"
    else Ok "Auto Detect".
Proof.
  intros Hsch Hh. unfold detect_platform.
  rewrite (detect_text sch host t Hsch Hh).
  assert (Hl : all host_char (lower host) = true).
  { revert Hh. apply all_map. intros c Hc. apply (host_char_facts c Hc). }
  assert (Hstart : startswith (sch ++ "://" ++ lower host ++ String "/"
                                 (lower (rstrip_by isspace t))) "http" = true)
    by (destruct Hsch as [<-|[<-|[]]]; reflexivity).
  rewrite Hstart.
  pose proof (urlsplit_http cb sch (lower host)
                (lower (rstrip_by isspace t)) Hsch Hl) as Hsplit.
  destruct (urlparse_of_urlsplit cb _ _ Hsplit) as (r' & -> & _ & Hn & _).
  cbn [mbind result_bind]. rewrite Hn. reflexivity.
Qed.

Lemma lstrip_by_map (p : ascii -> bool) (f : ascii -> ascii) (s : string) :
  (forall c, p (f c) = p c) ->
  lstrip_by p (map f s) = map f (lstrip_by p s).
Proof.
  intros Hf. induction s as [|c s IH]; [reflexivity|].
  cbn [map lstrip_by]. rewrite Hf. destruct (p c); [exact IH|reflexivity].
Qed.

Lemma rstrip_by_map (p : ascii -> bool) (f : ascii -> ascii) (s : string) :
  (forall c, p (f c) = p c) ->
  rstrip_by p (map f s) = map f (rstrip_by p s).
Proof.
  intros Hf. induction s as [|c s IH]; [reflexivity|].
  cbn [map rstrip_by]. rewrite IH, Hf.
  destruct (rstrip_by p s) as [|d r]; [|reflexivity].
  cbn [map]. destruct (p c); reflexivity.
Qed.

Lemma isspace_lower_char (c : ascii) : isspace (lower_char c) = isspace c.
Proof. destruct c as [[] [] [] [] [] [] [] []]; vm_compute; reflexivity. Qed.

Lemma lower_char_idem (c : ascii) : lower_char (lower_char c) = lower_char c.
Proof. destruct c as [[] [] [] [] [] [] [] []]; vm_compute; reflexivity. Qed.

Lemma lower_idem (s : string) : lower (lower s) = lower s.
Proof.
  unfold lower. induction s as [|c s IH]; [reflexivity|].
  cbn [map]. rewrite lower_char_idem, IH. reflexivity.
Qed.

Lemma strip_lower (s : string) : strip (lower s) = lower (strip s).
Proof.
  unfold strip, strip_by, lower.
  rewrite (lstrip_by_map _ _ _ isspace_lower_char).
  apply (rstrip_by_map _ _ _ isspace_lower_char).
Qed.

End DetectHost.

(** X6. On an [http] or [https] address with a plain host name,
    [detect_platform] looks at the host only: whatever follows the first
    [/] after the host (path, query, fragment) does not change the
    answer. *)
Theorem detect_platform_host_only
    (cb : string -> bool) (sch host t : string) :
  In sch ["http"; "https"] ->
  PyStr.all (fun c => negb (PyStr.mem c "/?#[]") && negb (PyStr.isspace c))
    host = true ->
  detect_platform cb (sch ++ "://" ++ host ++ String "/" t)
  = detect_platform cb (sch ++ "://" ++ host ++ "/").
Proof.
  intros Hsch Hh.
  rewrite (detect_platform_host cb sch host t Hsch Hh).
  rewrite (detect_platform_host cb sch host "" Hsch Hh).
  reflexivity.
Qed.

Lemma detect_platform_host_only_witness :
  detect_platform (fun _ => true)
    ("https" ++ "://" ++ "example.com"
       ++ String "/" "watch?next=https://www.youtube.com/")
  = detect_platform (fun _ => true) ("https" ++ "://" ++ "example.com" ++ "/").
Proof.
  apply (detect_platform_host_only (fun _ => true) "https" "example.com"
           "watch?next=https://www.youtube.com/").
  - right. left. reflexivity.
  - vm_compute. reflexivity.
Defined.

(** X7. Round trip: the address that [build_url_from_username] makes for
    a platform is recognised by [detect_platform] as that platform,
    whatever the user name. *)
Theorem detect_platform_of_built_url
    (cb : string -> bool) (platform username url : string) :
  build_url_from_username platform username = Some url ->
  detect_platform cb url = Ok platform.
Proof.
  unfold build_url_from_username.
  set (u := PyStr.lstrip "@" (PyStr.strip username)).
  destruct (negb (PyStr.truthy u)); [discriminate|].
  assert (Hsch : In "https" ["http"; "https"]) by (right; left; reflexivity).
  destruct (String.eqb_spec platform "YouTube") as [->|_].
  { intros [= <-].
    change ("https://www.youtube.com/@" ++ u)
      with ("https" ++ "://" ++ "www.youtube.com" ++ String "/" ("@" ++ u)).
    rewrite (detect_platform_host cb "https" "www.youtube.com" ("@" ++ u) Hsch eq_refl).
    reflexivity. }
  destruct (String.eqb_spec platform "TikTok") as [->|_].
  { intros [= <-].
    change ("https://www.tiktok.com/@" ++ u)
      with ("https" ++ "://" ++ "www.tiktok.com" ++ String "/" ("@" ++ u)).
    rewrite (detect_platform_host cb "https" "www.tiktok.com" ("@" ++ u) Hsch eq_refl).
    reflexivity. }
  destruct (String.eqb_spec platform "Instagram") as [->|_].
  { intros [= <-].
    change ("https://www.instagram.com/" ++ u ++ "/")
      with ("https" ++ "://" ++ "www.instagram.com" ++ String "/" (u ++ "/")).
    rewrite (detect_platform_host cb "https" "www.instagram.com" (u ++ "/") Hsch eq_refl).
    reflexivity. }
  destruct (String.eqb_spec platform "Facebook") as [->|_]; [|discriminate].
  intros [= <-].
  change ("https://www.facebook.com/" ++ u)
    with ("https" ++ "://" ++ "www.facebook.com" ++ String "/" u).
  rewrite (detect_platform_host cb "https" "www.facebook.com" u Hsch eq_refl).
    reflexivity.
Qed.

Lemma detect_platform_of_built_url_witness :
  build_url_from_username "TikTok" " @some.user "
  = Some "https://www.tiktok.com/@some.user"
  /\ detect_platform (fun _ => false) "https://www.tiktok.com/@some.user"
     = Ok "TikTok".
Proof.
  split; [vm_compute; reflexivity|].
  apply (detect_platform_of_built_url (fun _ => false) "TikTok"
           " @some.user ").
  vm_compute. reflexivity.
Defined.

(** X8. [detect_platform] ignores white space around the text and the
    case of its letters. *)
Theorem detect_platform_ignores_case_and_blanks
    (cb : string -> bool) (w1 s w2 : string) :
  PyStr.all PyStr.isspace w1 = true -> PyStr.all PyStr.isspace w2 = true ->
  detect_platform cb (w1 ++ s ++ w2) = detect_platform cb s
  /\ detect_platform cb (PyStr.lower s) = detect_platform cb s.
Proof.
  intros H1 H2. unfold detect_platform. split.
  - unfold PyStr.strip.
    rewrite (strip_by_app_all PyStr.isspace w1 s w2 H1 H2). reflexivity.
  - rewrite strip_lower, lower_idem. reflexivity.
Qed.

Lemma detect_platform_ignores_case_and_blanks_witness :
  detect_platform (fun _ => true) ("  " ++ "HTTPS://YouTu.be/x" ++ " ")
  = detect_platform (fun _ => true) "HTTPS://YouTu.be/x"
  /\ detect_platform (fun _ => true) (PyStr.lower "HTTPS://YouTu.be/x")
     = detect_platform (fun _ => true) "HTTPS://YouTu.be/x".
Proof.
  apply (detect_platform_ignores_case_and_blanks (fun _ => true)
           "  " "HTTPS://YouTu.be/x" " ");
    vm_compute; reflexivity.
Defined.

(** ** Where the files go *)

Section OutdirFacts.
Import PyStr.

Lemma detect_platform_known (cb : string -> bool) (text p : string) :
  detect_platform cb text = Ok p -> In p PLATFORMS.
Proof.
  unfold detect_platform, PLATFORMS.
  destruct (startswith _ "http"); [|intros [= <-]; simpl; auto].
  destruct (UrlParse.urlparse cb _) as [r|e]; cbn [mbind result_bind];
    [|discriminate].
  repeat (destruct (contains _ _); [intros [= <-]; simpl; auto 6|]).
  simpl. intros [= <-]. auto.
Qed.

Lemma truthy_app (a b : string) : truthy (a ++ b) = truthy a || truthy b.
Proof. destruct a; reflexivity. Qed.

Lemma endswith_char_app (a b : string) (c : ascii) :
  truthy b = true ->
  PosixPath.endswith_char (a ++ b) c = PosixPath.endswith_char b c.
Proof.
  intros Hb. induction a as [|x a IH]; [reflexivity|].
  change (String x a ++ b) with (String x (a ++ b)).
  cbn [PosixPath.endswith_char]. rewrite IH.
  destruct (a ++ b) eqn:E; [|reflexivity].
  pose proof (truthy_app a b) as Ht. rewrite E, Hb, orb_true_r in Ht.
  discriminate.
Qed.

Lemma slug_not_slash (s : string) :
  all slug_char s = true -> startswith s "/" = false.
Proof.
  destruct s as [|c s]; [reflexivity|].
  cbn [all]. intros H. apply andb_true_iff in H. destruct H as [Hc _].
  rewrite startswith_String. cbn [startswith]. rewrite andb_true_r.
  revert Hc. destruct c as [[] [] [] [] [] [] [] []]; vm_compute; congruence.
Qed.

(** Joining a directory name that neither starts nor ends with [/] and a
    folder name made by [slugify]. *)
Lemma join_two (base p folder : string) :
  startswith p "/" = false -> truthy p = true ->
  PosixPath.endswith_char p "/" = false ->
  all slug_char folder = true ->
  PosixPath.join base [p; folder]
  = (if negb (truthy base) || PosixPath.endswith_char base "/"
     then base else base ++ "/") ++ p ++ "/" ++ folder.
Proof.
  intros Hp1 Hp2 Hp3 Hf.
  unfold PosixPath.join. cbn [fold_left].
  unfold PosixPath.join2 at 2. rewrite Hp1.
  unfold PosixPath.join2. rewrite (slug_not_slash folder Hf).
  destruct (negb (truthy base) || PosixPath.endswith_char base "/").
  - rewrite truthy_app, Hp2, orb_true_r.
    rewrite (endswith_char_app base p "/" Hp2), Hp3. cbn [negb orb].
    rewrite !append_assoc. reflexivity.
  - rewrite truthy_app, truthy_app, Hp2, !orb_true_r.
    rewrite <- append_assoc, (endswith_char_app (base ++ "/") p "/" Hp2), Hp3.
    cbn [negb orb]. rewrite !append_assoc. reflexivity.
Qed.

End OutdirFacts.

(** X9. For an item whose platform is one of the entries of [PLATFORMS]
    (the choices of the window), the platform the worker settles on is
    again one of them, and the output directory is [base_dir], that
    platform and the folder name joined by [/]: the stand-in name [Auto]
    is never used. *)
Theorem outdir_layout
    (cb : string -> bool) (base_dir : string) (item : DownloadItem)
    (url p : string) :
  In (platform item) PLATFORMS ->
  resolve_platform cb item url = Ok p ->
  In p PLATFORMS
  /\ outdir_for cb base_dir p url
     = (if negb (PyStr.truthy base_dir)
           || PosixPath.endswith_char base_dir "/"
        then base_dir else base_dir ++ "/")
       ++ p ++ "/" ++ derive_folder_name cb p url.
Proof.
  intros Hin Hres.
  assert (Hp : In p PLATFORMS).
  { unfold resolve_platform in Hres.
    destruct (negb _); [injection Hres as <-; exact Hin|].
    apply (detect_platform_known cb url p Hres). }
  split; [exact Hp|].
  assert (Hslug : PyStr.all slug_char (derive_folder_name cb p url) = true).
  { destruct (derive_folder_name_is_slug cb p url) as [t ->].
    apply slugify_slug_chars. }
  unfold outdir_for.
  assert (Hor : PyStr.or_else p "Auto" = p
                /\ PyStr.startswith p "/" = false
                /\ PyStr.truthy p = true
                /\ PosixPath.endswith_char p "/" = false).
  { unfold PLATFORMS in Hp. simpl in Hp.
    destruct Hp as [<-|[<-|[<-|[<-|[<-|[]]]]]]; repeat split. }
  destruct Hor as (-> & H1 & H2 & H3).
  apply join_two; assumption.
Qed.

Lemma outdir_layout_witness :
  outdir_for (fun _ => true) "/home/me/MrLY_Downloads" "YouTube"
    "https://youtu.be/x"
  = "/home/me/MrLY_Downloads/YouTube/youtu.be_x".
Proof.
  refine (eq_trans
            (proj2 (outdir_layout (fun _ => true) "/home/me/MrLY_Downloads"
                      (mkDownloadItem "Auto Detect" "URL" "https://youtu.be/x"
                         None None)
                      "https://youtu.be/x" "YouTube" _ _)) _).
  - left. reflexivity.
  - vm_compute. reflexivity.
  - vm_compute. reflexivity.
Defined.

(** ** The folder name of an address *)

Section FolderFacts.
Import PyStr UrlParse.

Variable cb : string -> bool.

(** A character of a path segment that [urlparse] leaves in place. *)
Local Abbreviation seg_char :=
  (fun c : ascii => negb (mem c "/?#;") && negb (unsafe_to_remove c)).

Lemma seg_char_facts (c : ascii) :
  seg_char c = true ->
  negb (Ascii.eqb c "/") = true /\ negb (Ascii.eqb c "?") = true
  /\ negb (Ascii.eqb c "#") = true /\ negb (Ascii.eqb c ";") = true
  /\ negb (unsafe_to_remove c) = true
  /\ negb (mem c "/") = true.
Proof. destruct c as [[] [] [] [] [] [] [] []]; vm_compute; intuition congruence. Qed.

Lemma slug_char_facts (c : ascii) :
  slug_char c = true ->
  negb (mem c "/?#[]") && negb (isspace c) = true
  /\ negb (Ascii.eqb c ":") = true.
Proof. destruct c as [[] [] [] [] [] [] [] []]; vm_compute; intuition congruence. Qed.

Lemma partition_none (sep : ascii) (s : string) :
  all (fun c => negb (Ascii.eqb c sep)) s = true -> partition sep s = None.
Proof.
  induction s as [|c s IH]; [reflexivity|].
  cbn [all partition]. intros H. apply andb_true_iff in H.
  destruct H as [Hc Hs]. apply negb_true_iff in Hc.
  rewrite Hc, (IH Hs). reflexivity.
Qed.

Lemma before_none (sep : ascii) (s : string) :
  all (fun c => negb (Ascii.eqb c sep)) s = true -> before sep s = s.
Proof. intros H. unfold before. rewrite (partition_none sep s H). reflexivity. Qed.

Lemma mem_false (c : ascii) (s : string) :
  all (fun d => negb (Ascii.eqb d c)) s = true -> mem c s = false.
Proof.
  induction s as [|d s IH]; [reflexivity|].
  cbn [all mem]. intros H. apply andb_true_iff in H. destruct H as [Hd Hs].
  apply negb_true_iff in Hd. rewrite (Ascii.eqb_sym c d), Hd, (IH Hs).
  reflexivity.
Qed.

Lemma rstrip_by_app_nonempty (p : ascii -> bool) (a b : string) :
  rstrip_by p b <> "" -> rstrip_by p (a ++ b) = a ++ rstrip_by p b.
Proof.
  intros Hb. induction a as [|x a IH]; [reflexivity|].
  change (String x a ++ b) with (String x (a ++ b)).
  rewrite rstrip_by_cons_keep; rewrite IH; [reflexivity|].
  destruct a; [exact Hb|discriminate].
Qed.

Lemma lstrip_by_app_fixed (p : ascii -> bool) (a b : string) :
  lstrip_by p a = a -> truthy a = true -> lstrip_by p (a ++ b) = a ++ b.
Proof.
  destruct a as [|x a]; [discriminate|]. intros H _.
  change (String x a ++ b) with (String x (a ++ b)).
  cbn [lstrip_by] in *. destruct (p x) eqn:Hx; [|reflexivity].
  exfalso.
  assert (Hlen : forall s, String.length (lstrip_by p s) <= String.length s).
  { induction s as [|c s IHs]; simpl; [lia|]. destruct (p c); simpl; lia. }
  specialize (Hlen a). rewrite H in Hlen. simpl in Hlen. lia.
Qed.

(** The parts of a path. *)
Lemma join_cons (sep x y : string) (l : list string) :
  join sep (x :: y :: l) = x ++ sep ++ join sep (y :: l).
Proof. reflexivity. Qed.

Lemma all_join (p : ascii -> bool) (sep : string) (l : list string) :
  all p sep = true -> Forall (fun x => all p x = true) l ->
  all p (join sep l) = true.
Proof.
  intros Hsep. induction l as [|x [|y l] IH]; intros H.
  - reflexivity.
  - inversion H; subst. assumption.
  - rewrite join_cons, !all_app, Hsep.
    inversion H; subst. rewrite IH by assumption.
    rewrite andb_true_r. assumption.
Qed.

Lemma split_join (sep : ascii) (l : list string) :
  l <> [] ->
  Forall (fun x => all (fun c => negb (Ascii.eqb c sep)) x = true) l ->
  split sep (join (String sep "") l) = l.
Proof.
  induction l as [|x [|y l] IH]; intros Hne H.
  - congruence.
  - inversion H; subst. apply split_none. assumption.
  - rewrite join_cons. inversion H; subst.
    change (x ++ String sep "" ++ join (String sep "") (y :: l))
      with (x ++ String sep (join (String sep "") (y :: l))).
    rewrite split_app by assumption.
    rewrite IH; [reflexivity|discriminate|assumption].
Qed.

Lemma join_last (sep : string) (l : list string) :
  l <> [] -> exists a, join sep l = a ++ List.last l "".
Proof.
  induction l as [|x [|y l] IH]; intros Hne.
  - congruence.
  - exists "". reflexivity.
  - destruct IH as [a Ha]; [discriminate|].
    exists (x ++ sep ++ a).
    rewrite join_cons, Ha, !append_assoc. reflexivity.
Qed.

Lemma slugify_clean (s : string) :
  all slug_char (slugify s) = true
  /\ rstrip_by (fun c => mem c "_") (slugify s) = slugify s
  /\ truthy (slugify s) = true.
Proof.
  split; [apply slugify_slug_chars|]. split; [|apply slugify_truthy].
  unfold slugify, or_else. destruct (truthy _); [|reflexivity].
  unfold strip_chars, strip_by. apply rstrip_by_idem.
Qed.

(** The folder name for the address [sch://host/s1/.../sn]. *)
Lemma derive_folder_name_segments (platform sch host : string)
    (segs : list string) :
  In sch ["http"; "https"] ->
  all slug_char host = true ->
  segs <> [] ->
  Forall (fun s => all seg_char s = true) segs ->
  truthy (List.last segs "") = true ->
  derive_folder_name cb platform
    (sch ++ "://" ++ host ++ String "/" (join "/" segs))
  = slugify (host ++ "_" ++ slugify (List.last segs "")).
Proof.
  intros Hsch Hh Hne Hsegs Hlast.
  assert (Hhost : all (fun c => negb (mem c "/?#[]") && negb (isspace c)) host
                  = true)
    by (revert Hh; apply all_impl; intros c Hc; apply (slug_char_facts c Hc)).
  assert (Hcolon : all (fun c => negb (Ascii.eqb c ":")) host = true)
    by (revert Hh; apply all_impl; intros c Hc; apply (slug_char_facts c Hc)).
  assert (Hpart : forall q : ascii -> bool,
            (forall c, seg_char c = true -> q c = true) ->
            Forall (fun s => all q s = true) segs).
  { intros q Hq. eapply Forall_impl; [exact Hsegs|].
    intros s Hs. cbv beta in Hs. revert Hs. apply all_impl, Hq. }
  set (rest := join "/" segs).
  assert (Hrest : forall q : ascii -> bool,
            q "/"%char = true ->
            (forall c, seg_char c = true -> q c = true) ->
            all q rest = true).
  { intros q Hq1 Hq2. apply all_join; [cbn [all]; rewrite Hq1; reflexivity|].
    apply Hpart, Hq2. }
  assert (Hpath : forall q : ascii -> bool,
            q "/"%char = true ->
            (forall c, seg_char c = true -> q c = true) ->
            all q (String "/" rest) = true)
    by (intros q Hq1 Hq2; cbn [all]; rewrite Hq1, Hrest by assumption;
        reflexivity).
  pose proof (urlsplit_http cb sch host rest Hsch Hhost) as Hsplit.
  rewrite (remove_none unsafe_to_remove rest) in Hsplit
    by (apply Hrest; [reflexivity|intros c Hc; apply (seg_char_facts c Hc)]).
  rewrite (before_none "#" (String "/" rest)) in Hsplit
    by (apply Hpath; [reflexivity|intros c Hc; apply (seg_char_facts c Hc)]).
  rewrite (before_none "?" (String "/" rest)) in Hsplit
    by (apply Hpath; [reflexivity|intros c Hc; apply (seg_char_facts c Hc)]).
  destruct (urlparse_of_urlsplit cb _ _ Hsplit) as (r' & Hparse & _ & _ & Hr).
  rewrite Hr in Hparse.
  2: { cbn [path]. apply mem_false.
       apply Hpath; [reflexivity|intros c Hc; apply (seg_char_facts c Hc)]. }
  unfold derive_folder_name. rewrite Hparse.
  cbn [mbind result_bind try_except path netloc].
  (* the path keeps its last part *)
  destruct (join_last "/" segs Hne) as [a Ha]. fold rest in Ha.
  set (seg := List.last segs "") in *.
  assert (Hseg : all (fun c => negb (mem c "/")) seg = true).
  { assert (HF : Forall (fun s => all (fun c => negb (mem c "/")) s = true)
                   segs)
      by (apply Hpart; intros c Hc; apply (seg_char_facts c Hc)).
    subst seg. clear -HF Hne. induction HF as [|x l Hx HF IH]; [congruence|].
    destruct l as [|y l]; [exact Hx|]. apply IH. discriminate. }
  assert (Hkeep : rstrip "/" (String "/" rest) = String "/" rest).
  { unfold rstrip. rewrite Ha.
    change (String "/" (a ++ seg)) with (String "/" a ++ seg).
    rewrite rstrip_by_app_nonempty; rewrite (rstrip_by_none _ seg Hseg);
      [reflexivity|].
    destruct seg; [discriminate|discriminate]. }
  rewrite Hkeep. cbn [or_else truthy].
  assert (Hj : String "/" rest = join "/" ("" :: segs))
    by (unfold rest; destruct segs; [congruence|reflexivity]).
  rewrite Hj.
  rewrite (split_join "/" ("" :: segs)).
  2: discriminate.
  2: { constructor; [reflexivity|].
       apply Hpart. intros c Hc. apply (seg_char_facts c Hc). }
  replace (List.last ("" :: segs) "") with seg
    by (subst seg; destruct segs; [congruence|reflexivity]).
  rewrite (split_none ":" host Hcolon). cbn [hd].
  rewrite (slugify_truthy seg). reflexivity.
Qed.

End FolderFacts.

(** X10. The folder name of an address [sch://host/s1/.../sn] ([sch] one
    of [http] and [https], the host name made of letters, digits, [.],
    [-] and [_] and not starting with [_], the parts free of [/?#;] and
    of tabs and line ends, the last part not empty) is the host name, an
    underscore and the slug of the last part; the platform plays no role.
    As [slugify] never returns the empty string, the branch that falls
    back on the network location is never taken. *)
Theorem derive_folder_name_host_and_last
    (cb : string -> bool) (platform sch host : string) (segs : list string) :
  In sch ["http"; "https"] ->
  PyStr.all slug_char host = true ->
  PyStr.truthy host = true ->
  PyStr.lstrip "_" host = host ->
  segs <> [] ->
  Forall (fun s => PyStr.all (fun c => negb (PyStr.mem c "/?#;")
                                       && negb (UrlParse.unsafe_to_remove c)) s
                   = true) segs ->
  PyStr.truthy (List.last segs "") = true ->
  derive_folder_name cb platform
    (sch ++ "://" ++ host ++ "/" ++ PyStr.join "/" segs)
  = host ++ "_" ++ slugify (List.last segs "").
Proof.
  intros Hsch Hh Ht Hl Hne Hsegs Hlast.
  change (sch ++ "://" ++ host ++ "/" ++ PyStr.join "/" segs)
    with (sch ++ "://" ++ host ++ String "/" (PyStr.join "/" segs)).
  rewrite (derive_folder_name_segments cb platform sch host segs)
    by assumption.
  destruct (slugify_clean (List.last segs "")) as (Hs1 & Hs2 & Hs3).
  set (L := slugify (List.last segs "")) in *.
  apply slugify_fixed.
  - rewrite !all_app, Hh, Hs1. reflexivity.
  - unfold PyStr.strip_chars, PyStr.strip_by.
    unfold PyStr.lstrip in Hl.
    rewrite (lstrip_by_app_fixed _ host ("_" ++ L) Hl Ht).
    rewrite <- append_assoc.
    rewrite rstrip_by_app_nonempty; rewrite Hs2; [reflexivity|].
    destruct L; discriminate.
  - rewrite truthy_app, Ht. reflexivity.
Qed.

Lemma derive_folder_name_host_and_last_witness :
  derive_folder_name (fun _ => true) "TikTok"
    ("https" ++ "://" ++ "www.tiktok.com" ++ "/"
       ++ PyStr.join "/" ["@foo"; "video"; "123 abc"])
  = "www.tiktok.com" ++ "_" ++ slugify "123 abc".
Proof.
  apply (derive_folder_name_host_and_last (fun _ => true) "TikTok" "https"
           "www.tiktok.com" ["@foo"; "video"; "123 abc"]).
  - right. left. reflexivity.
  - vm_compute. reflexivity.
  - reflexivity.
  - reflexivity.
  - discriminate.
  - repeat constructor.
  - reflexivity.
Defined.

(** ** From the window to the worker *)

Section StartFacts.
Import PyStr.

Lemma strip_strip (s : string) : strip (strip s) = strip s.
Proof. apply strip_by_idem. Qed.

Lemma strip_rstrip (s : string) : strip (rstrip_by isspace s) = strip s.
Proof.
  unfold strip, strip_by.
  rewrite lstrip_rstrip_comm, rstrip_by_idem. reflexivity.
Qed.

End StartFacts.

(** X11. What [_start] hands to the worker: one item per line that is not
    blank, in the order of the lines, each with the trimmed line as its
    text and the two choices of the window; and the worker fetches each
    item under exactly that text, which is not empty. *)
Theorem start_hands_over_lines
    (now : DateTime.datetime) (license_text platform_choice input_choice
     : string) (lines : list string) (its : list DownloadItem) :
  _start now license_text platform_choice input_choice lines = Some its ->
  License.validate_license now license_text = true
  /\ its <> []
  /\ List.map raw_text its
     = List.filter PyStr.truthy (List.map PyStr.strip lines)
  /\ Forall (fun it => fetch_url it = raw_text it
                       /\ PyStr.truthy (raw_text it) = true
                       /\ platform it = platform_choice
                       /\ input_type it = input_choice) its.
Proof.
  unfold _start.
  destruct (License.validate_license now license_text); [|discriminate].
  cbn [negb]. intros H. split; [reflexivity|].
  assert (Hclean : Forall (fun l => PyStr.strip l = l
                                    /\ PyStr.truthy l = true)
                     (List.filter PyStr.truthy
                        (List.map PyStr.strip lines))).
  { clear H. induction lines as [|l lines IH]; [constructor|].
    cbn [List.map List.filter].
    destruct (PyStr.truthy (PyStr.strip l)) eqn:Ht; [|exact IH].
    constructor; [|exact IH]. split; [apply strip_strip|exact Ht]. }
  assert (Hmap : forall l,
            List.map raw_text
              (List.map (fun line => mkDownloadItem platform_choice
                                       input_choice line None None) l) = l).
  { induction l as [|x l IH]; [reflexivity|].
    cbn [List.map raw_text]. rewrite IH. reflexivity. }
  assert (Hitems : forall l,
            Forall (fun l => PyStr.strip l = l /\ PyStr.truthy l = true) l ->
            Forall (fun it => fetch_url it = raw_text it
                              /\ PyStr.truthy (raw_text it) = true
                              /\ platform it = platform_choice
                              /\ input_type it = input_choice)
              (List.map (fun line => mkDownloadItem platform_choice
                                       input_choice line None None) l)).
  { intros l Hl. induction Hl as [|x l [Hs Ht] _ IH]; [constructor|].
    cbn [List.map]. constructor; [|exact IH].
    unfold fetch_url. cbn [resolved_url raw_text platform input_type].
    auto. }
  destruct (List.filter _ _) as [|l0 ls]; [discriminate|].
  injection H as <-.
  split; [discriminate|]. split; [exact (Hmap (l0 :: ls))|].
  exact (Hitems (l0 :: ls) Hclean).
Qed.

Lemma start_hands_over_lines_witness :
  let lines := ["  https://www.tiktok.com/@a "; "   "; "b"] in
  let its := [mkDownloadItem "TikTok" "URL" "https://www.tiktok.com/@a" None
                None;
              mkDownloadItem "TikTok" "URL" "b" None None] in
  License.validate_license (DateTime.mkdatetime 2024 6 1 12 0 0 0)
    "AB12-CD34-EF56-20300101" = true
  /\ its <> []
  /\ List.map raw_text its
     = List.filter PyStr.truthy (List.map PyStr.strip lines)
  /\ Forall (fun it => fetch_url it = raw_text it
                       /\ PyStr.truthy (raw_text it) = true
                       /\ platform it = "TikTok"
                       /\ input_type it = "URL") its.
Proof.
  intros lines its.
  apply (start_hands_over_lines (DateTime.mkdatetime 2024 6 1 12 0 0 0)
           "AB12-CD34-EF56-20300101" "TikTok" "URL" lines its).
  vm_compute. reflexivity.
Defined.

(** X12. A file picked in the cookie dialog reaches the child process:
    the worker's command line is the one without cookies followed by
    [--cookies] and the file name (trimmed), whether or not the file
    exists. *)
Theorem picked_cookie_file_reaches_child
    (executable chosen cookie_box url outdir fmt : string)
    (merge_fmt : option string) :
  PyStr.truthy chosen = true ->
  exists cmd,
    build_cmd executable "" url outdir fmt merge_fmt = Ok cmd
    /\ build_cmd executable (_pick_cookie_file chosen cookie_box) url outdir
         fmt merge_fmt
       = Ok (cmd ++ ["--cookies"; PyStr.strip chosen])%list.
Proof.
  intros Ht. unfold _pick_cookie_file. rewrite Ht.
  unfold build_cmd, cookie_file_path, cookie_text.
  assert (Hc : PyStr.strip ("COOKIEFILE:" ++ chosen)
               = "COOKIEFILE:" ++ PyStr.rstrip_by PyStr.isspace chosen).
  { unfold PyStr.strip, PyStr.strip_by.
    change (PyStr.lstrip_by PyStr.isspace ("COOKIEFILE:" ++ chosen))
      with ("COOKIEFILE:" ++ chosen).
    apply rstrip_by_app_keep. reflexivity. }
  rewrite Hc, upper_app, startswith_app.
  change (PyStr.partition ":"
            ("COOKIEFILE:" ++ PyStr.rstrip_by PyStr.isspace chosen))
    with (Some ("COOKIEFILE", PyStr.rstrip_by PyStr.isspace chosen)).
  cbn [mbind result_bind]. rewrite strip_rstrip.
  change (PyStr.startswith (PyStr.upper (PyStr.strip "")) "COOKIEFILE:")
    with false.
  eexists. split; reflexivity.
Qed.

Lemma picked_cookie_file_reaches_child_witness :
  exists cmd,
    build_cmd "python" "" "u" "/o" "f" None = Ok cmd
    /\ build_cmd "python" (_pick_cookie_file "/tmp/my cookies.txt" "") "u"
         "/o" "f" None
       = Ok (cmd ++ ["--cookies"; PyStr.strip "/tmp/my cookies.txt"])%list.
Proof.
  apply (picked_cookie_file_reaches_child "python" "/tmp/my cookies.txt" ""
           "u" "/o" "f" None).
  reflexivity.
Defined.

(** ** The percentage of [Worker._hook] *)

Section HookFacts.
Import PyFloat.
Local Open Scope Z_scope.

(** One correctly rounded division followed by truncation gives the
    floor of the quotient, for operands of this size. *)
Lemma truediv_floor (n b : Z) :
  0 <= n -> n < 2 ^ 51 -> 1 <= b -> b <= 2 ^ 44 ->
  to_int (truediv n b) = n / b.
Proof.
  intros Hn0 Hn1 Hb0 Hb1. unfold truediv.
  destruct (Z.eq_dec n 0) as [->|Hnz]; [reflexivity|].
  assert (Hl1 : Z.log2 n <= 50).
  { assert (H : n <= 2 ^ 51 - 1) by lia.
    apply Z.log2_le_mono in H. change (Z.log2 (2 ^ 51 - 1)) with 50 in H.
    exact H. }
  pose proof (Z.log2_nonneg n) as Hl2.
  pose proof (Z.log2_nonneg b) as Hl3.
  pose proof (log2_le_44 b ltac:(lia) Hb1) as Hl4.
  destruct (round_frac_small n b ltac:(lia) ltac:(lia)) as (s & Hs & -> & Hr).
  { unfold emin, prec. lia. }
  { unfold prec. lia. }
  unfold prec in Hs.
  assert (Hs0 : 0 < s) by lia.
  unfold to_int. cbn [expo mant].
  replace (0 <=? - s) with false by (symmetry; apply Z.leb_gt; lia).
  rewrite Z.opp_involutive.
  set (P := 2 ^ s) in *.
  assert (HP : 0 < P) by (apply pow2_pos; lia).
  set (q := n / b).
  assert (Hdm : n = b * q + n mod b) by (apply Z.div_mod; lia).
  pose proof (Z.mod_pos_bound n b ltac:(lia)) as Hmod.
  set (r0 := n mod b) in *.
  assert (Hq0 : 0 <= q) by (apply Z.div_pos; lia).
  change (2 ^ 52) with 4503599627370496 in Hr.
  change (2 ^ 53) with 9007199254740992 in Hr.
  change (2 ^ 51) with 2251799813685248 in Hn1.
  assert (HnP : n * P <= 2251799813685247 * P)
    by (apply Z.mul_le_mono_nonneg_r; lia).
  assert (HPb : b <= P) by lia.
  assert (Hr0P : 0 <= r0 * P) by (apply Z.mul_nonneg_nonneg; lia).
  assert (Hr1P : r0 * P <= (b - 1) * P)
    by (apply Z.mul_le_mono_nonneg_r; lia).
  assert (HnPe : n * P = q * P * b + r0 * P) by (rewrite Hdm at 1; ring).
  assert (Hb1P : (b - 1) * P = P * b - P) by ring.
  assert (Hrange : q * P <= div_half_even (n * P) b <= (q + 1) * P - 1).
  { assert (HnP0 : 0 <= n * P) by (apply Z.mul_nonneg_nonneg; lia).
    assert (Hhi : ((q + 1) * P - 1) * b = q * P * b + P * b - b) by ring.
    apply div_half_even_range; lia. }
  symmetry. apply (Z.div_unique _ _ _ (div_half_even (n * P) b - q * P)).
  - left. lia.
  - ring.
Qed.

End HookFacts.

(** X13. With the total known, [_hook] reports the exact percentage:
    for a [downloading] status with an integer total of 1 to [2^44] bytes
    ([total_bytes], or else [total_bytes_estimate]) and 0 to [2^44] bytes
    downloaded, it emits one line with [100 * downloaded / total] cut to
    an integer, raises nothing and leaves the worker's state alone. *)
Theorem hook_reports_floor
    (d : gmap string pyval) (s : wstate) (total downloaded : Z) :
  d !! "status" = Some (VStr "downloading") ->
  val_or (dict_get d "total_bytes" VNone)
         (dict_get d "total_bytes_estimate" VNone) = VInt total ->
  dict_get d "downloaded_bytes" (VInt 0) = VInt downloaded ->
  (1 <= total <= 2 ^ 44)%Z -> (0 <= downloaded <= 2 ^ 44)%Z ->
  _hook d s
  = ([Emit (item_progress
              (HookPercent (100 * downloaded / total)%Z
                 (dict_get d "filename" (VStr ""))))],
     s, Some (Ok tt)).
Proof.
  intros Hst Ht Hd Htot Hdl. unfold _hook.
  unfold dict_get at 1. rewrite Hst. cbn [default is_str].
  change (String.eqb "downloading" "downloading") with true. cbv iota.
  rewrite Ht, Hd. cbn [val_truthy].
  replace (total =? 0)%Z with false by (symmetry; apply Z.eqb_neq; lia).
  cbn [negb]. unfold hook_percent.
  replace (0 <=? downloaded * 100)%Z with true
    by (symmetry; apply Z.leb_le; lia).
  rewrite Z.max_r by lia.
  assert (Hsmall : (downloaded * 100 < 2 ^ 51)%Z).
  { change (2 ^ 51)%Z with 2251799813685248%Z.
    change (2 ^ 44)%Z with 17592186044416%Z in Hdl. lia. }
  rewrite truediv_floor by lia.
  replace (downloaded * 100)%Z with (100 * downloaded)%Z by ring.
  reflexivity.
Qed.

Lemma hook_reports_floor_witness :
  let d : gmap string pyval :=
    <["status" := VStr "downloading"]>
      (<["total_bytes_estimate" := VInt 3000]>
         (<["downloaded_bytes" := VInt 2000]>
            (<["filename" := VStr "clip.mp4"]> ∅))) in
  _hook d (mkwstate 0 0 [] [])
  = ([Emit (item_progress (HookPercent (100 * 2000 / 3000)%Z
                             (dict_get d "filename" (VStr ""))))],
     mkwstate 0 0 [] [], Some (Ok tt)).
Proof.
  intros d.
  apply (hook_reports_floor d (mkwstate 0 0 [] []) 3000 2000).
  - vm_compute. reflexivity.
  - vm_compute. reflexivity.
  - vm_compute. reflexivity.
  - vm_compute. split; discriminate.
  - vm_compute. split; discriminate.
Defined.

(** ** Every run, step by step *)

Section KeepsFacts.

Variable R : wstate -> list effect -> wstate -> Prop.
Hypothesis HR : chained R.

Context {A B : Type}.

Lemma keeps_ret (a : A) : keeps R (mret a).
Proof. intros s. apply (chained_nil R HR). Qed.

Lemma keeps_lift (r : result A) : keeps R (lift r).
Proof. intros s. apply (chained_nil R HR). Qed.

Lemma keeps_never : keeps R (never : io A).
Proof. intros s. apply (chained_nil R HR). Qed.

Lemma keeps_bind (m : io A) (k : A -> io B) :
  keeps R m -> (forall a, keeps R (k a)) -> keeps R (m ≫= k).
Proof.
  intros Hm Hk s. specialize (Hm s). unfold mbind, io_bind.
  destruct (m s) as [[w s'] [[a|e]|]]; [|exact Hm ..].
  specialize (Hk a s'). destruct (k a s') as [[w' s''] r].
  apply (chained_app R HR _ _ _ _ _ Hm Hk).
Qed.

Lemma keeps_bind_lift (r : result A) (k : A -> io B) :
  (forall a, r = Ok a -> keeps R (k a)) -> keeps R (lift r ≫= k).
Proof.
  intros Hk s. unfold mbind, io_bind, lift.
  destruct r as [a|e]; [|apply (chained_nil R HR)].
  specialize (Hk a eq_refl s). destruct (k a s) as [[w' s''] r].
  exact Hk.
Qed.

Lemma keeps_bind_state (k : wstate -> io B) :
  (forall s, match k s s with (w, s', _) => R s w s' end) ->
  keeps R (get_state ≫= k).
Proof.
  intros Hk s. unfold mbind, io_bind, get_state.
  specialize (Hk s). destruct (k s s) as [[w' s''] r]. exact Hk.
Qed.

End KeepsFacts.

Section KeepsSteps.

Variable R : wstate -> list effect -> wstate -> Prop.
Hypothesis HR : chained R.

Lemma keeps_perform (e : effect) :
  (forall s, R s [e] s) -> keeps R (perform e).
Proof. intros H s. apply H. Qed.

Lemma keeps_modify (f : wstate -> wstate) :
  (forall s, R s [] (f s)) -> keeps R (modify f).
Proof. intros H s. apply H. Qed.

(** A counter goes up and the line is logged: one step. *)
Lemma keeps_count_log (f : wstate -> wstate) (m : message) :
  (forall s, R s [Emit (log m)] (f s)) -> keeps R (modify f ;; emit (log m)).
Proof. intros H s. apply H. Qed.

Lemma keeps_try_except_finally (body : io unit) (handler : exn -> io unit)
    (final : io unit) :
  keeps R body -> (forall e, keeps R (handler e)) -> keeps R final ->
  keeps R (try_except_finally body handler final).
Proof.
  intros Hb Hh Hf s. unfold try_except_finally. specialize (Hb s).
  destruct (body s) as [[w s'] [[[]|e]|]]; [| |exact Hb].
  - specialize (Hf s'). destruct (final s') as [[w' s''] r].
    apply (chained_app R HR _ _ _ _ _ Hb Hf).
  - assert (Hhf : keeps R (handler e ;; final))
      by (apply (keeps_bind R HR); [apply Hh|intros _; exact Hf]).
    specialize (Hhf s'). destruct ((handler e ;; final) s') as [[w' s''] r].
    apply (chained_app R HR _ _ _ _ _ Hb Hhf).
Qed.

Variable check_bracketed_netloc : string -> bool.
Variable executable : string.
Variable items0 : list DownloadItem.
Variable cookie_text0 : string.
Variable base_dir : string.
Variable env : nat -> item_env.

Hypothesis Hsteps :
  respects check_bracketed_netloc executable items0 cookie_text0 base_dir R.

Local Abbreviation steps :=
  (respects check_bracketed_netloc executable items0 cookie_text0 base_dir R).

Lemma keeps_cookie_opts (idx : nat) (o : gmap string pyval) :
  keeps R (cookie_opts cookie_text0 env idx o).
Proof.
  unfold cookie_opts.
  apply (keeps_bind R HR); [|intros [o' h]; apply (keeps_ret R HR)].
  destruct (PyStr.truthy _); [|apply (keeps_ret R HR)].
  destruct (PyStr.startswith _ _); [|apply (keeps_ret R HR)].
  apply (keeps_bind R HR); [apply (keeps_lift R HR)|]. intros p.
  destruct (path_exists (env idx) p); [|apply (keeps_ret R HR)].
  apply (keeps_bind R HR); [|intros _; apply (keeps_ret R HR)].
  apply keeps_perform. intros s. apply (step_cookie_file _ _ _ _ _ _ Hsteps).
Qed.

Lemma keeps_popen_and_poll (idx : nat) (cmd : list string) :
  (forall s, R s [Popen cmd] s) -> keeps R (popen_and_poll env idx cmd).
Proof.
  intros Hp. unfold popen_and_poll.
  apply (keeps_bind R HR); [apply keeps_perform, Hp|]. intros _.
  assert (Hm : keeps R (modify (fun s => mkwstate (ok s) (fail s) (items s)
                                           (processes s ++ [cmd])%list)))
    by (apply keeps_modify; intros s;
        apply (step_process _ _ _ _ _ _ Hsteps cmd s)).
  destruct (child (env idx)) as [|rc|rc|].
  - apply (keeps_lift R HR).
  - apply (keeps_bind R HR); [exact Hm|]. intros _. apply (keeps_ret R HR).
  - apply (keeps_bind R HR); [exact Hm|]. intros _.
    apply (keeps_bind R HR);
      [apply keeps_perform, (step_kill _ _ _ _ _ _ Hsteps)|]. intros _.
    apply (keeps_bind R HR);
      [apply keeps_perform, (step_killed _ _ _ _ _ _ Hsteps)|]. intros _.
    apply (keeps_ret R HR).
  - apply (keeps_bind R HR); [exact Hm|]. intros _. apply (keeps_never R HR).
Qed.

Lemma keeps_try_body (idx : nat) (item : DownloadItem) :
  In item items0 ->
  keeps R (try_body check_bracketed_netloc executable items0 cookie_text0
             base_dir env idx item).
Proof.
  intros Hin. unfold try_body.
  apply (keeps_bind R HR).
  { apply keeps_perform. intros s.
    apply (step_preparing _ _ _ _ _ _ Hsteps idx item s Hin). }
  intros _. apply (keeps_bind_lift R HR). intros p Hp.
  assert (Hat : at_hand check_bracketed_netloc items0 base_dir item
                  (fetch_url item) p
                  (outdir_for check_bracketed_netloc base_dir p
                     (fetch_url item)))
    by (repeat split; assumption).
  apply (keeps_bind R HR).
  { unfold makedirs. apply (keeps_bind R HR).
    - apply keeps_perform. intros s.
      apply (step_makedirs _ _ _ _ _ _ Hsteps _ _ _ _ s Hat).
    - intros _. destruct (makedirs_raises (env idx));
        [apply (keeps_lift R HR)|apply (keeps_ret R HR)]. }
  intros _. apply (keeps_bind R HR).
  { apply keeps_modify. intros s.
    apply (step_out_dir _ _ _ _ _ _ Hsteps idx _ _ _ _ s Hat). }
  intros _.
  destruct (select_format p) as [fmt merge_fmt] eqn:Hfmt.
  apply (keeps_bind R HR); [apply keeps_cookie_opts|]. intros o.
  apply (keeps_bind_lift R HR). intros cmd Hcmd.
  apply (keeps_bind R HR).
  { apply keeps_perform. intros s.
    apply (step_downloading _ _ _ _ _ _ Hsteps). }
  intros _. apply (keeps_bind R HR).
  { apply keeps_popen_and_poll. intros s.
    apply (step_popen _ _ _ _ _ _ Hsteps _ _ _ _ cmd s Hat).
    rewrite Hfmt. exact Hcmd. }
  intros rc. destruct (bool_decide _).
  - apply keeps_count_log. intros s.
    apply (step_finished _ _ _ _ _ _ Hsteps _ _ _ _ s Hat).
  - apply keeps_count_log. intros s.
    apply (step_failed _ _ _ _ _ _ Hsteps).
Qed.

Lemma keeps_pass (idx : nat) (item : DownloadItem) :
  In item items0 ->
  keeps R (try_except_finally
             (try_body check_bracketed_netloc executable items0 cookie_text0
                base_dir env idx item)
             except_handler (finally_block items0)).
Proof.
  intros Hin. apply keeps_try_except_finally.
  - apply keeps_try_body, Hin.
  - intros e. apply keeps_count_log. intros s.
    apply (step_error _ _ _ _ _ _ Hsteps).
  - unfold finally_block. apply (keeps_bind_state R). intros s.
    simpl.
    apply (chained_app R HR s
             [Emit (counts (total items0) (ok s) (fail s))] s
             [Emit (progress (percent (ok s) (fail s) (total items0)))] s).
    + apply (step_counts _ _ _ _ _ _ Hsteps).
    + apply (step_progress _ _ _ _ _ _ Hsteps).
Qed.

Lemma keeps_loop (its : list DownloadItem) :
  (forall item, In item its -> In item items0) ->
  forall idx,
    keeps R (loop check_bracketed_netloc executable items0 cookie_text0
               base_dir env idx its).
Proof.
  induction its as [|item rest IH]; intros Hsub idx.
  - apply (keeps_ret R HR).
  - cbn [loop]. destruct (stop_is_set (env idx)); [apply (keeps_ret R HR)|].
    apply (keeps_bind R HR).
    + apply keeps_pass, Hsub. left. reflexivity.
    + intros _. apply IH. intros it Hit. apply Hsub. right. exact Hit.
Qed.

(** Every run is made of the worker's steps: a relation that holds of
    each step, of doing nothing and of one execution after another holds
    of the whole run. *)
Lemma keeps_run (yt_dlp : bool) :
  keeps R (run check_bracketed_netloc executable yt_dlp items0 cookie_text0
             base_dir env).
Proof.
  unfold run. destruct (negb yt_dlp).
  - apply (keeps_bind R HR);
      [apply keeps_perform, (step_not_installed _ _ _ _ _ _ Hsteps)|].
    intros _. apply keeps_perform, (step_done _ _ _ _ _ _ Hsteps).
  - apply (keeps_bind R HR); [apply keeps_loop; auto|].
    intros _. apply keeps_perform, (step_done _ _ _ _ _ _ Hsteps).
Qed.

End KeepsSteps.

(** ** The counters and the log *)

Section LogFacts.

Lemma finished_lines_app (w w' : list effect) :
  finished_lines (w ++ w') = (finished_lines w + finished_lines w')%Z.
Proof. unfold finished_lines. rewrite omap_app, length_app. lia. Qed.

Lemma failed_lines_app (w w' : list effect) :
  failed_lines (w ++ w') = (failed_lines w + failed_lines w')%Z.
Proof. unfold failed_lines. rewrite omap_app, length_app. lia. Qed.

Lemma with_the_log_chained : chained with_the_log.
Proof.
  split.
  - intros s. unfold with_the_log, finished_lines, failed_lines. simpl. lia.
  - intros s w s' w' s'' [H1 H2] [H3 H4]. unfold with_the_log.
    rewrite finished_lines_app, failed_lines_app. lia.
Qed.

Lemma with_the_log_respected cb executable items0 cookie_text0 base_dir :
  respects cb executable items0 cookie_text0 base_dir with_the_log.
Proof.
  split; intros; unfold with_the_log, finished_lines, failed_lines; simpl;
    lia.
Qed.

End LogFacts.

(** X14. The counters agree with the log at the end of every run, also
    of one that is stopped or never ends: [ok] is the number of
    "Finished" lines and [fail] the number of "Failed" and "Error"
    lines. *)
Theorem counters_agree_with_log
    (cb : string -> bool) (executable : string) (yt_dlp : bool)
    (items0 : list DownloadItem) (cookie_text0 base_dir : string)
    (env : nat -> item_env) :
  match run cb executable yt_dlp items0 cookie_text0 base_dir env
          (init items0) with
  | (w, s, _) => ok s = finished_lines w /\ fail s = failed_lines w
  end.
Proof.
  pose proof (keeps_run with_the_log with_the_log_chained cb executable
                items0 cookie_text0 base_dir env
                (with_the_log_respected cb executable items0 cookie_text0
                   base_dir) yt_dlp (init items0)) as H.
  destruct (run _ _ _ _ _ _ _ _) as [[w s] r].
  destruct H as [H1 H2]. simpl in H1, H2. split; lia.
Qed.

(** ** What is created and launched *)

Section ItemFacts.

Variable cb : string -> bool.
Variable executable : string.
Variable items0 : list DownloadItem.
Variable cookie_text0 base_dir : string.

Lemma all_for_items_chained :
  chained (all_for_items cb executable items0 cookie_text0 base_dir).
Proof.
  split.
  - intros s. constructor.
  - intros s w s' w' s'' H1 H2. unfold all_for_items in *.
    induction H1; [exact H2|]. simpl. constructor; assumption.
Qed.

Lemma all_for_items_respected :
  respects cb executable items0 cookie_text0 base_dir
    (all_for_items cb executable items0 cookie_text0 base_dir).
Proof.
  split; intros; unfold all_for_items;
    try (constructor; [exact I|constructor]); try constructor.
  - simpl. eauto.
  - constructor.
  - simpl. eauto 6.
  - constructor.
Qed.

End ItemFacts.

(** X15. Whatever a run creates or launches belongs to an item of the
    list: every directory made is [outdir_for] of an item's address and
    platform, and every child process is the Python interpreter running
    the module [yt_dlp] on the address of an item (its trimmed text),
    with [-o] into that directory and [-f] the format of the platform,
    followed by at most [--merge-output-format] and [--cookies]. *)
Theorem run_serves_items
    (cb : string -> bool) (executable : string) (yt_dlp : bool)
    (items0 : list DownloadItem) (cookie_text0 base_dir : string)
    (env : nat -> item_env) :
  let w := fst (fst (run cb executable yt_dlp items0 cookie_text0 base_dir
                       env (init items0))) in
  (forall d, In (Makedirs d) w ->
     exists item p,
       In item items0
       /\ resolve_platform cb item (fetch_url item) = Ok p
       /\ d = outdir_for cb base_dir p (fetch_url item))
  /\ (forall cmd, In (Popen cmd) w ->
        exists item p m c,
          In item items0
          /\ resolve_platform cb item (fetch_url item) = Ok p
          /\ cmd = ([executable; "-m"; "yt_dlp"; fetch_url item; "-o";
                     PosixPath.join
                       (outdir_for cb base_dir p (fetch_url item)) [outtmpl];
                     "-f"; fst (select_format p)] ++ m ++ c)%list
          /\ (m = [] \/ exists x, m = ["--merge-output-format"; x])
          /\ (c = [] \/ exists x, c = ["--cookies"; x])).
Proof.
  intros w.
  pose proof (keeps_run _ (all_for_items_chained cb executable items0
                             cookie_text0 base_dir)
                cb executable items0 cookie_text0 base_dir env
                (all_for_items_respected cb executable items0 cookie_text0
                   base_dir) yt_dlp (init items0)) as H.
  assert (Hall : Forall (for_an_item cb executable items0 cookie_text0
                           base_dir) w).
  { subst w. destruct (run _ _ _ _ _ _ _ _) as [[w s] r]. exact H. }
  clear H. rewrite List.Forall_forall in Hall. split.
  - intros d Hd. destruct (Hall _ Hd) as (item & url & p & Hin & -> & Hp & ->).
    eauto.
  - intros cmd Hc.
    destruct (Hall _ Hc) as (item & url & p & outdir & Hat & Hcmd).
    destruct Hat as (Hin & -> & Hp & ->).
    destruct (build_cmd_shape _ _ _ _ _ _ _ Hcmd) as (m & c & -> & Hm & Hcc).
    exists item, p, m, c. auto.
Qed.

(** ** The items after a run *)

Section FrameFacts.

Lemma same_entries_chained : chained same_entries.
Proof.
  split.
  - intros s. reflexivity.
  - intros s w s' w' s'' H1 H2. unfold same_entries in *. congruence.
Qed.

Lemma entered_alter (f : DownloadItem -> DownloadItem) (i : nat)
    (l : list DownloadItem) :
  (forall it, entered (f it) = entered it) ->
  List.map entered (alter f i l) = List.map entered l.
Proof.
  intros Hf. revert i. induction l as [|x l IH]; intros [|i]; simpl;
    try reflexivity.
  - rewrite Hf. reflexivity.
  - f_equal. apply IH.
Qed.

Lemma same_entries_respected cb executable items0 cookie_text0 base_dir :
  respects cb executable items0 cookie_text0 base_dir same_entries.
Proof.
  split; intros; unfold same_entries; try reflexivity.
  simpl. apply entered_alter. intros it. reflexivity.
Qed.

End FrameFacts.

(** X16. A run writes nothing in the items but [out_dir]: at the end,
    also of a run that is stopped or never ends, the list holds as many
    items, in the same order, each with the platform, input type, text
    and resolved address it was given.  In particular [resolved_url] is
    never filled in. *)
Theorem run_keeps_entries
    (cb : string -> bool) (executable : string) (yt_dlp : bool)
    (items0 : list DownloadItem) (cookie_text0 base_dir : string)
    (env : nat -> item_env) :
  let s := snd (fst (run cb executable yt_dlp items0 cookie_text0 base_dir
                       env (init items0))) in
  List.map entered (items s) = List.map entered items0.
Proof.
  intros s.
  pose proof (keeps_run _ same_entries_chained
                cb executable items0 cookie_text0 base_dir env
                (same_entries_respected cb executable items0 cookie_text0
                   base_dir) yt_dlp (init items0)) as H.
  subst s. destruct (run _ _ _ _ _ _ _ _) as [[w s] r]. exact H.
Qed.

(** ** The progress bar *)

Section ProgressFacts.
Local Open Scope Z_scope.

Lemma percentages_app (w w' : list effect) :
  percentages (w ++ w') = (percentages w ++ percentages w')%list.
Proof. apply omap_app. Qed.

Lemma percentages_tally (w : list effect) :
  percentages w
  = omap (fun x => match x with progress p => Some p | _ => None end)
      (tally w).
Proof.
  induction w as [|e w IH]; [reflexivity|].
  destruct e as [[m|p|m|t o f|]| | |]; simpl; rewrite ?IH; reflexivity.
Qed.

Lemma percent_sum (o f t : Z) : percent o f t = percent (o + f) 0 t.
Proof. unfold percent. rewrite Z.add_0_r. reflexivity. Qed.

(** The percentage does not go down when more items are done. *)
Lemma percent_mono (k k' total : Z) :
  0 <= k -> k <= k' -> k' <= Z.max 1 total -> total <= 2 ^ 44 ->
  percent k 0 total <= percent k' 0 total.
Proof.
  intros H0 Hk Hk' Ht.
  destruct (percent_floor k 0 total) as [Hb _]; try lia.
  destruct (percent_floor k' 0 total) as [Hb' He']; try lia.
  rewrite !Z.add_0_r in *.
  set (N := Z.max 1 total) in *.
  assert (HN : 0 < N) by (unfold N; lia).
  destruct (Z.eq_dec ((100 * k') mod N) 0) as [Hz|Hnz].
  - destruct (Z.eq_dec k k') as [->|Hne]; [lia|].
    assert (Hex : 100 * k' = N * (100 * k' / N)).
    { pose proof (Z.div_mod (100 * k') N ltac:(lia)). lia. }
    assert (Hlt : 100 * k / N < 100 * k' / N).
    { apply Z.div_lt_upper_bound; [exact HN|]. lia. }
    lia.
  - specialize (He' Hnz).
    assert (Hle : 100 * k / N <= 100 * k' / N)
      by (apply Z.div_le_mono; lia).
    lia.
Qed.

Lemma percent_zero (total : Z) : percent 0 0 total = 0.
Proof. reflexivity. Qed.

Variable check_bracketed_netloc : string -> bool.
Variable executable : string.
Variable items0 : list DownloadItem.
Variable cookie_text0 : string.
Variable base_dir : string.
Variable env : nat -> item_env.

(** The loop sends one percentage per pass that ends, each computed from
    one item more. *)
Lemma loop_percentages (its : list DownloadItem) :
  forall (idx : nat) (s : wstate),
    match loop check_bracketed_netloc executable items0 cookie_text0
            base_dir env idx its s with
    | (w, s', r) =>
        exists m : nat,
          (m <= List.length its)%nat
          /\ percentages w
             = List.map (fun k => percent (ok s + fail s + Z.of_nat k) 0
                                    (total items0))
                 (List.seq 1 m)
          /\ started w = match r with Some _ => m | None => S m end
    end.
Proof.
  induction its as [|item rest IH]; intros idx s.
  - exists O. simpl. auto.
  - cbn [loop List.length].
    destruct (stop_is_set (env idx)).
    { exists O. simpl. split; [lia|]. auto. }
    unfold mbind at 1. unfold io_bind.
    pose proof (item_pass check_bracketed_netloc executable items0
                  cookie_text0 base_dir env idx item s) as Hi.
    destruct (try_except_finally _ _ _ s) as [[w s1] [r1|]];
      destruct Hi as (Hs1 & _ & Hi).
    + destruct Hi as (-> & Hone & Ht1).
      specialize (IH (S idx) s1).
      destruct (loop _ _ _ _ _ _ (S idx) rest s1) as [[w2 s2] r2].
      destruct IH as (m & Hm & Hp & Hst).
      exists (S m). split; [lia|].
      rewrite percentages_app, started_app, Hs1, Hst, Hp.
      rewrite (percentages_tally w), Ht1. cbn [omap list_omap].
      split; [|destruct r2; reflexivity].
      cbn [List.seq List.map app]. f_equal.
      * rewrite percent_sum. f_equal.
        destruct Hone as [[? ?]|[? ?]]; lia.
      * rewrite <- (List.seq_shift m 1), List.map_map.
        apply List.map_ext. intros k. f_equal.
        destruct Hone as [[? ?]|[? ?]]; lia.
    + destruct Hi as (Ht1 & _ & _).
      exists O. split; [lia|].
      rewrite (percentages_tally w), Ht1, Hs1. auto.
Qed.

End ProgressFacts.

(** X17. The progress bar never goes back: in every run the [k]-th
    percentage sent is the one computed from [k] items done, there are
    at most as many as items, and (for up to [2^44] items) they go from
    0 at least to 100 at most without ever decreasing. *)
Theorem progress_never_decreases
    (cb : string -> bool) (executable : string) (yt_dlp : bool)
    (items0 : list DownloadItem) (cookie_text0 base_dir : string)
    (env : nat -> item_env) :
  (Z.of_nat (List.length items0) <= 2 ^ 44)%Z ->
  let l := percentages
             (fst (fst (run cb executable yt_dlp items0 cookie_text0
                          base_dir env (init items0)))) in
  (List.length l <= List.length items0)%nat
  /\ l = List.map (fun k => percent (Z.of_nat k) 0 (total items0))
           (List.seq 1 (List.length l))
  /\ (forall i j p q,
        (i <= j)%nat -> l !! i = Some p -> l !! j = Some q ->
        (0 <= p /\ p <= q /\ q <= 100)%Z).
Proof.
  intros Hn l.
  assert (H : exists m : nat,
             (m <= List.length items0)%nat
             /\ l = List.map (fun k => percent (Z.of_nat k) 0 (total items0))
                      (List.seq 1 m)).
  { subst l. unfold run. destruct (negb yt_dlp).
    - exists O. split; [lia|reflexivity].
    - unfold mbind at 1. unfold io_bind.
      pose proof (loop_percentages cb executable items0 cookie_text0
                    base_dir env items0 1 (init items0)) as Hl.
      destruct (loop _ _ _ _ _ _ 1 items0 (init items0)) as [[w s] r].
      destruct Hl as (m & Hm & Hp & _). exists m. split; [exact Hm|].
      destruct r as [[[]|e]|]; unfold emit, perform; cbn [fst];
        rewrite ?percentages_app;
        change (percentages [Emit done]) with (@nil Z);
        rewrite ?app_nil_r; exact Hp. }
  destruct H as (m & Hm & Hl).
  assert (Hlen : List.length l = m)
    by (rewrite Hl, List.length_map, List.length_seq; reflexivity).
  split; [lia|]. split; [rewrite Hlen; exact Hl|].
  intros i j p q Hij Hi Hj.
  rewrite Hl in Hi, Hj.
  change (List.map ?f ?x) with (f <$> x) in Hi, Hj.
  rewrite list_lookup_fmap in Hi, Hj.
  destruct (seq 1 m !! i) as [a|] eqn:Ea; [|discriminate].
  destruct (seq 1 m !! j) as [b|] eqn:Eb; [|discriminate].
  apply lookup_seq in Ea, Eb. destruct Ea as [-> Hlt], Eb as [-> Hlt'].
  injection Hi as <-. injection Hj as <-.
  unfold total in *.
  set (N := Z.of_nat (List.length items0)) in *.
  assert (HN : Z.max 1 N = N) by lia.
  split; [|split].
  - rewrite <- (percent_zero N). apply percent_mono; lia.
  - apply percent_mono; lia.
  - rewrite <- (percent_full N 0 N) by lia.
    rewrite (percent_sum N 0 N). apply percent_mono; lia.
Qed.

Lemma progress_never_decreases_witness :
  let item := mkDownloadItem "YouTube" "URL" "https://youtu.be/x" None None in
  let env := fun _ : nat => mkitem_env false false (fun _ => false) (exits 1) in
  let l := percentages
             (fst (fst (run (fun _ => true) "python" true [item; item; item]
                          "" "/base" env (init [item; item; item])))) in
  (List.length l <= 3)%nat
  /\ l = List.map (fun k => percent (Z.of_nat k) 0 3)
           (List.seq 1 (List.length l))
  /\ (forall i j p q,
        (i <= j)%nat -> l !! i = Some p -> l !! j = Some q ->
        (0 <= p /\ p <= q /\ q <= 100)%Z).
Proof.
  intros item env.
  apply (progress_never_decreases (fun _ => true) "python" true
           [item; item; item] "" "/base" env).
  vm_compute. discriminate.
Defined.

(** ** The order of the items *)

Section OrderFacts.

Lemma prepared_app (w w' : list effect) :
  prepared (w ++ w') = (prepared w ++ prepared w')%list.
Proof. apply omap_app. Qed.

Lemma started_prepared (w : list effect) :
  started w = List.length (prepared w).
Proof.
  unfold started, prepared. induction w as [|e w IH]; [reflexivity|].
  destruct e as [[m|p|[]|t o f|]| | |]; simpl;
    first [exact IH|f_equal; exact IH].
Qed.

Variable check_bracketed_netloc : string -> bool.
Variable executable : string.
Variable items0 : list DownloadItem.
Variable cookie_text0 : string.
Variable base_dir : string.
Variable env : nat -> item_env.

(** A pass announces its item, once. *)
Lemma pass_prepared (idx : nat) (item : DownloadItem) (s : wstate) :
  prepared
    (fst (fst (try_except_finally
                 (try_body check_bracketed_netloc executable items0
                    cookie_text0 base_dir env idx item)
                 except_handler (finally_block items0) s)))
  = [(idx, raw_text item)].
Proof.
  pose proof (item_pass check_bracketed_netloc executable items0
                cookie_text0 base_dir env idx item s) as Hi.
  assert (Hhead : exists w',
             fst (fst (try_except_finally
                         (try_body check_bracketed_netloc executable items0
                            cookie_text0 base_dir env idx item)
                         except_handler (finally_block items0) s))
             = Emit (item_progress
                       (Preparing idx (total items0) (raw_text item))) :: w').
  { unfold try_except_finally, try_body.
    match goal with
    | |- context [emit ?x ;; ?k] => set (rest := k)
    end.
    unfold mbind at 1. unfold io_bind, emit, perform.
    destruct (rest s) as [[w' s''] [[[]|e]|]].
    - destruct (finally_block items0 s'') as [[w2 s2] r2]. simpl. eauto.
    - destruct ((except_handler e ;; finally_block items0) s'')
        as [[w2 s2] r2]. simpl. eauto.
    - simpl. eauto. }
  destruct (try_except_finally _ _ _ s) as [[w s1] r].
  destruct Hi as (Hs & _). cbn [fst] in *.
  destruct Hhead as [w' ->].
  rewrite started_prepared in Hs. cbn [prepared omap list_omap] in *.
  fold (prepared w') in *. cbn [List.length] in Hs.
  destruct (prepared w'); [reflexivity|discriminate].
Qed.

Lemma loop_prepared (its : list DownloadItem) :
  forall (idx : nat) (s : wstate),
    match loop check_bracketed_netloc executable items0 cookie_text0
            base_dir env idx its s with
    | (w, _, _) =>
        prepared w
        = List.combine (List.seq idx (started w))
            (List.map raw_text (List.firstn (started w) its))
    end.
Proof.
  induction its as [|item rest IH]; intros idx s.
  - reflexivity.
  - cbn [loop]. destruct (stop_is_set (env idx)); [reflexivity|].
    unfold mbind at 1. unfold io_bind.
    pose proof (pass_prepared idx item s) as Hp.
    destruct (try_except_finally _ _ _ s) as [[w1 s1] r1].
    cbn [fst] in Hp.
    assert (H1 : started w1 = 1%nat)
      by (rewrite started_prepared, Hp; reflexivity).
    destruct r1 as [[[]|e]|].
    + specialize (IH (S idx) s1).
      destruct (loop _ _ _ _ _ _ (S idx) rest s1) as [[w2 s2] r2].
      rewrite started_app, prepared_app, Hp, IH, H1. reflexivity.
    + rewrite H1, Hp. reflexivity.
    + rewrite H1, Hp. reflexivity.
Qed.

End OrderFacts.

(** X18. The items are taken in the order of the list, none skipped and
    none twice: the "Preparing" lines of a run are those of the first
    items of the list, numbered from 1, as many as passes were
    started. *)
Theorem items_taken_in_order
    (cb : string -> bool) (executable : string) (yt_dlp : bool)
    (items0 : list DownloadItem) (cookie_text0 base_dir : string)
    (env : nat -> item_env) :
  let w := fst (fst (run cb executable yt_dlp items0 cookie_text0 base_dir
                       env (init items0))) in
  prepared w
  = List.combine (List.seq 1 (started w))
      (List.map raw_text (List.firstn (started w) items0)).
Proof.
  intros w.
  assert (H : match run cb executable yt_dlp items0 cookie_text0 base_dir
                      env (init items0) with
              | (w, _, _) =>
                  prepared w
                  = List.combine (List.seq 1 (started w))
                      (List.map raw_text (List.firstn (started w) items0))
              end).
  { unfold run. destruct (negb yt_dlp); [reflexivity|].
    unfold mbind at 1. unfold io_bind.
    pose proof (loop_prepared cb executable items0 cookie_text0 base_dir env
                  items0 1 (init items0)) as H.
    destruct (loop _ _ _ _ _ _ 1 items0 (init items0)) as [[w1 s] r].
    assert (Hd : prepared (w1 ++ [Emit done]) = prepared w1
                 /\ started (w1 ++ [Emit done]) = started w1).
    { rewrite prepared_app, started_app. simpl.
      rewrite app_nil_r, Nat.add_0_r. auto. }
    destruct Hd as [Hd1 Hd2].
    destruct r as [[[]|e]|]; unfold emit, perform;
      rewrite ?Hd1, ?Hd2; exact H. }
  subst w. destruct (run _ _ _ _ _ _ _ _) as [[w s] r]. exact H.
Qed.
Example str_int_values :
  List.map str_int [0; 7; 10; 99; 100; 12345]%Z
  = ["0"; "7"; "10"; "99"; "100"; "12345"]
  /\ List.map format_02 [0; 7; 10; 99; 100]%Z
     = ["00"; "07"; "10"; "99"; "100"].
Proof. split; vm_compute; reflexivity. Qed.

(** The items that [_start_window] hands over are those of [_start]. *)
Lemma _start_window_items now license_text platform_choice input_choice
    lines (w : window) :
  snd (_start_window now license_text platform_choice input_choice lines w)
  = _start now license_text platform_choice input_choice lines.
Proof.
  unfold _start_window, _start.
  destruct (negb _); [reflexivity|].
  destruct (List.filter _ _) as [|l ls]; reflexivity.
Qed.

(** ** Shutdown after the download *)

Section ShutdownFacts.

Variable sys_platform : string.

Local Abbreviation go := (deliver_all sys_platform).

Lemma commands_app (a b : list window_action) :
  commands (a ++ b) = (commands a ++ commands b)%list.
Proof. apply omap_app. Qed.

(** A click on Start leaves the shutdown timer alone and calls no
    command. *)
Lemma start_leaves_shutdown now license_text platform_choice input_choice
    lines (w : window) :
  match _start_window now license_text platform_choice input_choice lines w
  with
  | (w', a, _) =>
      shutdown_timer w' = shutdown_timer w
      /\ shutdown_seconds w' = shutdown_seconds w
      /\ shutdown_check w' = shutdown_check w
      /\ commands a = []
  end.
Proof.
  unfold _start_window.
  destruct (negb _); [auto|]. destruct (bool_decide _); auto.
Qed.

(** What an event other than the timeout of the shutdown timer, Cancel
    and [done] does to the shutdown timer: nothing. *)
Lemma passes_by (e : event) (w : window) :
  e <> ShutdownTimeout -> e <> ClickCancelShutdown -> e <> DoneSignal ->
  match deliver sys_platform e w with
  | (w', a) =>
      shutdown_timer w' = shutdown_timer w
      /\ shutdown_seconds w' = shutdown_seconds w
      /\ ((forall c, e <> SetShutdownCheck c) ->
          shutdown_check w' = shutdown_check w)
      /\ commands a = []
  end.
Proof.
  intros H1 H2 H3.
  destruct e as [| |now lt pc ic lines| | | |checked]; try congruence.
  - cbn [deliver]. destruct (download_timer w); auto.
  - cbn [deliver].
    pose proof (start_leaves_shutdown now lt pc ic lines w) as H.
    destruct (_start_window _ _ _ _ _ _) as [[w' a] its].
    destruct H as (? & ? & ? & ?). auto.
  - cbn [deliver]. auto.
  - cbn [deliver]. repeat split. intros Hc. destruct (Hc checked eq_refl).
Qed.

(** With the shutdown timer stopped, nothing but the [done] signal can
    start it, and the [done] signal only with the box ticked. *)
Lemma stays_stopped (es : list event) :
  forall w : window,
    shutdown_timer w = false ->
    Forall (fun e => e <> DoneSignal) es
    \/ (shutdown_check w = false
        /\ Forall (fun e => e <> SetShutdownCheck true) es) ->
    commands (snd (go es w)) = [] /\ shutdown_timer (fst (go es w)) = false.
Proof.
  induction es as [|e es IH]; intros w Hoff Hes; [auto|].
  assert (Hw : forall w1 a1,
            deliver sys_platform e w = (w1, a1) ->
            shutdown_timer w1 = false -> commands a1 = [] ->
            (shutdown_check w = false -> e <> SetShutdownCheck true ->
             shutdown_check w1 = false) ->
            commands (snd (go (e :: es) w)) = []
            /\ shutdown_timer (fst (go (e :: es) w)) = false).
  { intros w1 a1 Hd Hoff1 Ha1 Hchk. cbn [deliver_all]. rewrite Hd.
    destruct (IH w1 Hoff1) as [Ha Hs].
    { destruct Hes as [Hes|[Hc Hes]].
      - left. inversion Hes; assumption.
      - right. inversion Hes; subst. split; [auto|assumption]. }
    destruct (go es w1) as [w2 a2]. cbn [fst snd] in *.
    rewrite commands_app, Ha1, Ha. auto. }
  destruct (deliver sys_platform e w) as [w1 a1] eqn:Hd.
  destruct e as [| |now lt pc ic lines| | | |checked].
  - apply (Hw w1 a1 eq_refl); cbn [deliver] in Hd;
      destruct (download_timer w); injection Hd as <- <-; auto.
  - apply (Hw w1 a1 eq_refl); cbn [deliver] in Hd; rewrite Hoff in Hd;
      injection Hd as <- <-; auto.
  - pose proof (passes_by (ClickStart now lt pc ic lines) w
                  ltac:(discriminate) ltac:(discriminate)
                  ltac:(discriminate)) as H.
    rewrite Hd in H. destruct H as (H1 & _ & H3 & H4).
    apply (Hw w1 a1 eq_refl); [congruence|exact H4|].
    intros Hc _. rewrite H3; [exact Hc|discriminate].
  - apply (Hw w1 a1 eq_refl); cbn [deliver] in Hd;
      injection Hd as <- <-; auto.
  - apply (Hw w1 a1 eq_refl); cbn [deliver] in Hd;
      injection Hd as <- <-; auto.
  - destruct Hes as [Hes|[Hc Hes]]; [inversion Hes; congruence|].
    cbn [deliver] in Hd. unfold _on_done in Hd. cbn [shutdown_check] in Hd.
    rewrite Hc in Hd. injection Hd as <- <-.
    apply (Hw _ _ eq_refl); [exact Hoff|reflexivity|auto].
  - apply (Hw w1 a1 eq_refl); cbn [deliver] in Hd;
      injection Hd as <- <-; auto.
    intros Hc Hne. cbn [shutdown_check].
    destruct checked; congruence.
Qed.

Lemma event_eq_timeout (e : event) :
  e = ShutdownTimeout \/ e <> ShutdownTimeout.
Proof. destruct e; auto; right; discriminate. Qed.

(** The countdown: with [k] seconds left, and as long as neither Cancel
    nor a new [done] signal comes, the command goes out at timeout number
    [k + 1], once, whatever else happens in between. *)
Lemma countdown (es : list event) :
  forall (k : nat) (w : window),
    shutdown_timer w = true -> shutdown_seconds w = Z.of_nat k ->
    Forall lets_count es ->
    commands (snd (go es w))
    = if (k <? shutdown_timeouts es)%nat
      then [shutdown_command sys_platform] else [].
Proof.
  induction es as [|e es IH]; intros k w Hon Hk Hes; [reflexivity|].
  inversion Hes as [|? ? [Hc Hd] Hes']; subst.
  cbn [deliver_all].
  destruct (event_eq_timeout e) as [->|Hne].
  - cbn [deliver]. rewrite Hon. unfold _tick_shutdown.
    change (shutdown_timeouts (ShutdownTimeout :: es))
      with (S (shutdown_timeouts es)).
    destruct k as [|k].
    + rewrite Hk. change (Z.of_nat 0 <=? 0)%Z with true. cbv beta iota.
      match goal with
      | |- context [go es ?w1] =>
          destruct (stays_stopped es w1 eq_refl) as [Ha _]
      end.
      { left. eapply Forall_impl; [exact Hes'|]. intros x [_ Hx]. exact Hx. }
      destruct (go es _) as [w2 a2]. cbn [snd] in *.
      rewrite commands_app, Ha. unfold shutdown_command.
      destruct (PyStr.startswith sys_platform "win"); reflexivity.
    + replace (shutdown_seconds w <=? 0)%Z with false
        by (symmetry; apply Z.leb_gt; lia).
      cbv beta iota.
      match goal with
      | |- context [go es ?w1] =>
          specialize (IH k w1 Hon ltac:(cbn [shutdown_seconds]; lia) Hes')
      end.
      destruct (go es _) as [w2 a2]. cbn [snd app] in *. rewrite IH.
      reflexivity.
  - pose proof (passes_by e w Hne Hc Hd) as H.
    destruct (deliver sys_platform e w) as [w1 a1].
    destruct H as (H1 & H2 & _ & H4).
    specialize (IH k w1 ltac:(congruence) ltac:(congruence) Hes').
    destruct (go es w1) as [w2 a2]. cbn [snd] in *.
    rewrite commands_app, H4, IH.
    replace (shutdown_timeouts (e :: es)) with (shutdown_timeouts es);
      [reflexivity|].
    unfold shutdown_timeouts. cbn [List.filter].
    destruct e; try reflexivity. congruence.
Qed.

End ShutdownFacts.

(** X19. With the box "Shutdown PC after download" ticked, the [done]
    signal starts a countdown from 60 that only Cancel stops: as long as
    neither a click on Cancel nor another [done] signal comes, the
    shutdown command goes out at the 61st timeout of the shutdown timer,
    once and not before.  Nothing else interferes: not the stop flag (the
    countdown starts just the same after a click on Stop), not a click on
    Start for a new download, not unticking the box. *)
Theorem shutdown_after_countdown
    (sys_platform : string) (w : window) (es : list event) :
  shutdown_check w = true ->
  Forall lets_count es ->
  commands (snd (deliver_all sys_platform (DoneSignal :: es) w))
  = (if (60 <? shutdown_timeouts es)%nat
     then [shutdown_command sys_platform] else [])
  /\ commands (snd (deliver_all sys_platform
                      (ClickStop :: DoneSignal :: es) w))
     = (if (60 <? shutdown_timeouts es)%nat
        then [shutdown_command sys_platform] else []).
Proof.
  intros Hc Hes.
  assert (H : forall w0, shutdown_check w0 = true ->
            commands (snd (deliver_all sys_platform (DoneSignal :: es) w0))
            = (if (60 <? shutdown_timeouts es)%nat
               then [shutdown_command sys_platform] else [])).
  { intros w0 Hc0. cbn [deliver_all deliver].
    pose proof (countdown sys_platform es 60 (_on_done w0)) as Hcd.
    unfold _on_done in *. cbn [shutdown_check] in *. rewrite Hc0 in *.
    specialize (Hcd eq_refl eq_refl Hes).
    destruct (deliver_all _ _ _) as [w2 a2]. exact Hcd. }
  split; [apply H, Hc|].
  change (deliver_all sys_platform (ClickStop :: DoneSignal :: es) w)
    with (let '(w2, a2) :=
            deliver_all sys_platform (DoneSignal :: es) (_stop w) in
          (w2, ([] ++ a2)%list)).
  specialize (H (_stop w) Hc).
  destruct (deliver_all _ _ (_stop w)) as [w2 a2]. exact H.
Qed.

Lemma shutdown_after_countdown_witness :
  let es := (List.repeat ShutdownTimeout 30
             ++ ClickStart (DateTime.mkdatetime 2024 6 1 12 0 0 0)
                  "AB12-CD34-EF56-20300101" "YouTube" "URL"
                  ["https://youtu.be/x"]
             :: SetShutdownCheck false
             :: List.repeat ShutdownTimeout 31)%list in
  commands (snd (deliver_all "linux" (DoneSignal :: es) (new_window true)))
  = ["shutdown now"]
  /\ commands (snd (deliver_all "linux" (ClickStop :: DoneSignal :: es)
                      (new_window true)))
     = ["shutdown now"].
Proof.
  intros es.
  apply (shutdown_after_countdown "linux" (new_window true) es).
  - reflexivity.
  - repeat constructor; discriminate.
Defined.

(** X20. Cancelling works: after a click on "Cancel Shutdown", whatever
    timeouts, clicks and changes of the check box follow, no command goes
    out until the next [done] signal. *)
Theorem cancel_stops_shutdown
    (sys_platform : string) (w : window) (es : list event) :
  Forall (fun e => e <> DoneSignal) es ->
  commands (snd (deliver_all sys_platform (ClickCancelShutdown :: es) w))
  = [].
Proof.
  intros Hes. cbn [deliver_all deliver].
  destruct (stays_stopped sys_platform es (_cancel_shutdown w) eq_refl
              (or_introl Hes)) as [Ha _].
  destruct (deliver_all _ _ _) as [w2 a2]. exact Ha.
Qed.

Lemma cancel_stops_shutdown_witness :
  commands (snd (deliver_all "win32"
                   (ClickCancelShutdown :: List.repeat ShutdownTimeout 100)
                   (_start_shutdown_timer 3 (new_window true))))
  = [].
Proof.
  apply (cancel_stops_shutdown "win32"
           (_start_shutdown_timer 3 (new_window true))
           (List.repeat ShutdownTimeout 100)).
  repeat constructor; discriminate.
Defined.

(** X21. No shutdown without the box: in a window whose box is not
    ticked and whose shutdown timer is not running (the window as it is
    built, for one), no sequence of events that leaves the box alone
    makes a command go out. *)
Theorem no_shutdown_unless_ticked
    (sys_platform : string) (w : window) (es : list event) :
  shutdown_timer w = false -> shutdown_check w = false ->
  Forall (fun e => e <> SetShutdownCheck true) es ->
  commands (snd (deliver_all sys_platform es w)) = [].
Proof.
  intros Hoff Hc Hes.
  apply (stays_stopped sys_platform es w Hoff (or_intror (conj Hc Hes))).
Qed.

Lemma no_shutdown_unless_ticked_witness :
  commands (snd (deliver_all "linux"
                   (DoneSignal :: List.repeat ShutdownTimeout 100)
                   (new_window false)))
  = [].
Proof.
  apply (no_shutdown_unless_ticked "linux" (new_window false)).
  - reflexivity.
  - reflexivity.
  - repeat constructor; discriminate.
Defined.

(** ** The download timer *)

Section TimerFacts.
Local Open Scope Z_scope.

Variable sys_platform : string.

Local Abbreviation go := (deliver_all sys_platform).

(** Below one hundred, [format_02] writes two digits. *)
Lemma format_02_two (x : Z) :
  0 <= x < 100 -> format_02 x = DateTime.dec 2 x.
Proof.
  intros Hx. unfold format_02, str_int. cbn [DateTime.dec digits].
  destruct (x <? 10) eqn:E.
  - apply Z.ltb_lt in E.
    rewrite (Z.div_small x 10), (Z.mod_small x 10) by lia. reflexivity.
  - apply Z.ltb_ge in E.
    assert (Hl : 3 <= Z.log2 x).
    { change 3 with (Z.log2 8). apply Z.log2_le_mono. lia. }
    destruct (Z.to_nat (Z.log2 x)) as [|f] eqn:Ef; [lia|].
    cbn [digits].
    replace (x / 10 <? 10) with true
      by (symmetry; apply Z.ltb_lt; apply Z.div_lt_upper_bound; lia).
    rewrite (Z.mod_small (x / 10) 10); [reflexivity|].
    split; [apply Z.div_pos; lia|apply Z.div_lt_upper_bound; lia].
Qed.

(** The label that [_tick_download] writes when the count reaches [t]. *)
Local Abbreviation label := (fun t : Z =>
  (format_02 (t / 3600) ++ ":" ++ format_02 ((t mod 3600) / 60) ++ ":"
   ++ format_02 (t mod 60))%string).

Lemma download_ticks (n : nat) :
  forall w : window,
    download_timer w = true ->
    let w' := fst (go (List.repeat DownloadTimeout n) w) in
    download_timer w' = true
    /\ download_seconds w' = download_seconds w + Z.of_nat n
    /\ lbl_timer w' = match n with
                      | O => lbl_timer w
                      | S _ => label (download_seconds w')
                      end.
Proof.
  induction n as [|n IH]; intros w Hon; [cbn; auto with zarith|].
  cbn [List.repeat deliver_all deliver]. rewrite Hon.
  specialize (IH (_tick_download w) Hon). cbv zeta in IH.
  destruct (go _ (_tick_download w)) as [w2 a2]. cbn [fst] in *.
  destruct IH as (H1 & H2 & H3).
  split; [exact H1|]. split.
  - rewrite H2. cbn [_tick_download download_seconds]. lia.
  - rewrite H3. destruct n; [|reflexivity].
    cbn [Z.of_nat] in H2. rewrite Z.add_0_r in H2. rewrite H2. reflexivity.
Qed.

Lemma download_ticks_when_stopped (n : nat) (w : window) :
  download_timer w = false ->
  go (List.repeat DownloadTimeout n) w = (w, []).
Proof.
  intros Hoff. induction n as [|n IH]; [reflexivity|].
  cbn [List.repeat deliver_all deliver]. rewrite Hoff, IH. reflexivity.
Qed.

Lemma deliver_all_app (es es' : list event) :
  forall w : window,
    go (es ++ es') w
    = let '(w1, a1) := go es w in
      let '(w2, a2) := go es' w1 in (w2, (a1 ++ a2)%list).
Proof.
  induction es as [|e es IH]; intros w.
  - cbn [app deliver_all]. destruct (go es' w). reflexivity.
  - cbn [app deliver_all]. destruct (deliver sys_platform e w) as [w1 a1].
    rewrite IH. destruct (go es w1) as [w2 a2].
    destruct (go es' w2) as [w3 a3]. rewrite app_assoc. reflexivity.
Qed.

End TimerFacts.

(** X22. The download timer shows the time elapsed: started from zero,
    after [n] timeouts (less than 100 hours) the count is [n] and the
    label is [HH:MM:SS], two digits each, with
    [3600 * HH + 60 * MM + SS = n]; and a click on Stop freezes both,
    whatever timeouts follow. *)
Theorem download_timer_shows_elapsed
    (sys_platform : string) (w : window) (n k : nat) :
  download_timer w = true -> download_seconds w = 0%Z ->
  (1 <= Z.of_nat n < 360000)%Z ->
  let w1 := fst (deliver_all sys_platform (List.repeat DownloadTimeout n) w) in
  let w2 := fst (deliver_all sys_platform
                   (List.repeat DownloadTimeout n
                      ++ ClickStop :: List.repeat DownloadTimeout k) w) in
  download_seconds w1 = Z.of_nat n
  /\ (exists h m s : Z,
        (Z.of_nat n = 3600 * h + 60 * m + s
         /\ 0 <= h < 100 /\ 0 <= m < 60 /\ 0 <= s < 60)%Z
        /\ lbl_timer w1
           = DateTime.dec 2 h ++ ":" ++ DateTime.dec 2 m ++ ":"
             ++ DateTime.dec 2 s)
  /\ download_seconds w2 = download_seconds w1
  /\ lbl_timer w2 = lbl_timer w1.
Proof.
  intros Hon H0 Hn w1 w2.
  pose proof (download_ticks sys_platform n w Hon) as Ht. cbv zeta in Ht.
  fold w1 in Ht. destruct Ht as (Hon1 & Hs1 & Hl1).
  rewrite H0, Z.add_0_l in Hs1.
  split; [exact Hs1|]. split.
  - set (t := Z.of_nat n) in *.
    exists (t / 3600)%Z, ((t mod 3600) / 60)%Z, (t mod 60)%Z.
    assert (Ht : (1 <= t < 360000)%Z) by exact Hn.
    assert (Hh : (0 <= t / 3600 < 100)%Z)
      by (split; [apply Z.div_pos; lia|apply Z.div_lt_upper_bound; lia]).
    assert (Hm : (0 <= t mod 3600 / 60 < 60)%Z).
    { pose proof (Z.mod_pos_bound t 3600 ltac:(lia)).
      split; [apply Z.div_pos; lia|apply Z.div_lt_upper_bound; lia]. }
    assert (Hsec : (0 <= t mod 60 < 60)%Z) by (apply Z.mod_pos_bound; lia).
    split.
    + repeat (split; [|lia || tauto]).
      clear. Z.div_mod_to_equations. lia.
    + destruct n as [|n']; [simpl in Hn; lia|]. rewrite Hl1, Hs1.
      rewrite !format_02_two by lia. reflexivity.
  - assert (Hw2 : w2 = _stop w1).
    { unfold w2. rewrite deliver_all_app. fold w1.
      destruct (deliver_all sys_platform (List.repeat DownloadTimeout n) w)
        as [w1' a1] eqn:E. cbn [fst] in w1. subst w1.
      cbn [deliver_all deliver].
      rewrite download_ticks_when_stopped by reflexivity. reflexivity. }
    rewrite Hw2. split; reflexivity.
Qed.

Lemma download_timer_shows_elapsed_witness :
  let w := fst (fst (_start_window (DateTime.mkdatetime 2024 6 1 12 0 0 0)
                       "AB12-CD34-EF56-20300101" "YouTube" "URL"
                       ["https://youtu.be/x"] (new_window false))) in
  lbl_timer (fst (deliver_all "linux" (List.repeat DownloadTimeout 3725) w))
  = "01:02:05".
Proof.
  intros w.
  destruct (download_timer_shows_elapsed "linux" w 3725 0)
    as (_ & (h & m & s & (Hsum & Hh & Hm & Hs) & ->) & _).
  - reflexivity.
  - reflexivity.
  - lia.
  - assert (h = 1 /\ m = 2 /\ s = 5)%Z as (-> & -> & ->) by lia.
    reflexivity.
Defined.

(** ** The worker ends *)

Section EndsFacts.

Context {A B : Type}.

Lemma ends_ret (a : A) : ends (mret a).
Proof. intros s. discriminate. Qed.

Lemma ends_lift (r : result A) : ends (lift r).
Proof. intros s. discriminate. Qed.

Lemma ends_bind (m : io A) (k : A -> io B) :
  ends m -> (forall a, ends (k a)) -> ends (m ≫= k).
Proof.
  intros Hm Hk s. specialize (Hm s). unfold mbind, io_bind.
  destruct (m s) as [[w s'] [[a|e]|]];
    [|discriminate|exfalso; apply Hm; reflexivity].
  specialize (Hk a s'). destruct (k a s') as [[w' s''] r]. exact Hk.
Qed.

End EndsFacts.

Section EndsRun.

Variable check_bracketed_netloc : string -> bool.
Variable executable : string.
Variable items0 : list DownloadItem.
Variable cookie_text0 : string.
Variable base_dir : string.
Variable env : nat -> item_env.

Lemma ends_perform (e : effect) : ends (perform e).
Proof. intros s. discriminate. Qed.

Lemma ends_modify (f : wstate -> wstate) : ends (modify f).
Proof. intros s. discriminate. Qed.

Lemma ends_cookie_opts (idx : nat) (o : gmap string pyval) :
  ends (cookie_opts cookie_text0 env idx o).
Proof.
  unfold cookie_opts. apply ends_bind; [|intros [o' h]; apply ends_ret].
  destruct (PyStr.truthy _); [|apply ends_ret].
  destruct (PyStr.startswith _ _); [|apply ends_ret].
  apply ends_bind; [apply ends_lift|]. intros p.
  destruct (path_exists (env idx) p); [|apply ends_ret].
  apply ends_bind; [apply ends_perform|]. intros _. apply ends_ret.
Qed.

Lemma ends_pass (idx : nat) (item : DownloadItem) :
  child (env idx) <> hangs ->
  ends (try_except_finally
          (try_body check_bracketed_netloc executable items0 cookie_text0
             base_dir env idx item)
          except_handler (finally_block items0)).
Proof.
  intros Hchild.
  assert (Hbody : ends (try_body check_bracketed_netloc executable items0
                          cookie_text0 base_dir env idx item)).
  { unfold try_body.
    apply ends_bind; [apply ends_perform|]. intros _.
    apply ends_bind; [apply ends_lift|]. intros p.
    apply ends_bind.
    { unfold makedirs. apply ends_bind; [apply ends_perform|]. intros _.
      destruct (makedirs_raises (env idx)); [apply ends_lift|apply ends_ret]. }
    intros _. apply ends_bind; [apply ends_modify|]. intros _.
    destruct (select_format p) as [fmt merge_fmt].
    apply ends_bind; [apply ends_cookie_opts|]. intros o.
    apply ends_bind; [apply ends_lift|]. intros cmd.
    apply ends_bind; [apply ends_perform|]. intros _.
    apply ends_bind.
    { unfold popen_and_poll. apply ends_bind; [apply ends_perform|].
      intros _. destruct (child (env idx)) as [|rc|rc|]; [| | |congruence].
      - apply ends_lift.
      - apply ends_bind; [apply ends_modify|]. intros _. apply ends_ret.
      - apply ends_bind; [apply ends_modify|]. intros _.
        apply ends_bind; [apply ends_perform|]. intros _.
        apply ends_bind; [apply ends_perform|]. intros _. apply ends_ret. }
    intros rc. destruct (bool_decide _);
      (apply ends_bind; [apply ends_modify|intros _; apply ends_perform]). }
  assert (Hfinal : ends (finally_block items0)).
  { unfold finally_block. apply ends_bind; [intros s; discriminate|].
    intros s0. apply ends_bind; [apply ends_perform|].
    intros _. apply ends_perform. }
  intros s. unfold try_except_finally. specialize (Hbody s).
  destruct (try_body _ _ _ _ _ _ _ _ s) as [[w s'] [[[]|e]|]].
  - specialize (Hfinal s'). destruct (finally_block items0 s') as [[w' s''] r].
    exact Hfinal.
  - assert (Hh : ends (except_handler e ;; finally_block items0)).
    { apply ends_bind; [|intros _; exact Hfinal].
      apply ends_bind; [apply ends_modify|intros _; apply ends_perform]. }
    specialize (Hh s').
    destruct ((except_handler e ;; finally_block items0) s') as [[w' s''] r].
    exact Hh.
  - exfalso. apply Hbody. reflexivity.
Qed.

Lemma ends_loop (its : list DownloadItem) :
  forall idx : nat,
    (forall i, (idx <= i < idx + List.length its)%nat ->
               child (env i) <> hangs) ->
    ends (loop check_bracketed_netloc executable items0 cookie_text0
            base_dir env idx its).
Proof.
  induction its as [|item rest IH]; intros idx Hc.
  - apply ends_ret.
  - cbn [loop]. destruct (stop_is_set (env idx)); [apply ends_ret|].
    apply ends_bind.
    + apply ends_pass, Hc. cbn [List.length]. lia.
    + intros _. apply IH. intros i Hi. apply Hc. cbn [List.length]. lia.
Qed.

End EndsRun.

(** X23. The worker ends: unless a child process never exits (with the
    stop flag never set meanwhile), [run] returns, and it returns
    normally: no exception leaves it, whatever fails inside. *)
Theorem run_ends_unless_a_child_hangs
    (cb : string -> bool) (executable : string) (yt_dlp : bool)
    (items0 : list DownloadItem) (cookie_text0 base_dir : string)
    (env : nat -> item_env) :
  (forall i, (1 <= i <= List.length items0)%nat -> child (env i) <> hangs) ->
  snd (run cb executable yt_dlp items0 cookie_text0 base_dir env
         (init items0))
  = Some (Ok tt).
Proof.
  intros Hc. unfold run. destruct (negb yt_dlp); [reflexivity|].
  unfold mbind at 1. unfold io_bind.
  pose proof (ends_loop cb executable items0 cookie_text0 base_dir env
                items0 1 ltac:(intros i Hi; apply Hc; lia) (init items0))
    as Hends.
  pose proof (loop_effect cb executable items0 cookie_text0 base_dir env
                items0 1 (init items0)) as Heff.
  destruct (loop _ _ _ _ _ _ 1 items0 (init items0)) as [[w s] r].
  cbn [snd] in Hends.
  destruct Heff as (_ & _ & _ & _ & _ & Hr).
  destruct r as [r|]; [|congruence].
  destruct Hr as (-> & _). reflexivity.
Qed.

Lemma run_ends_unless_a_child_hangs_witness :
  let item := mkDownloadItem "Auto Detect" "URL" "http://[bad" None None in
  let env := fun i : nat =>
    mkitem_env false (Nat.eqb i 2) (fun _ => false)
      (if Nat.eqb i 3 then popen_raises else killed None) in
  snd (run (fun _ => true) "python" true [item; item; item; item] ""
         "/base" env (init [item; item; item; item]))
  = Some (Ok tt).
Proof.
  intros item env.
  apply (run_ends_unless_a_child_hangs (fun _ => true) "python" true
           [item; item; item; item] "" "/base" env).
  intros i _. unfold env. cbn [child]. destruct (Nat.eqb i 3); discriminate.
Defined.

(** ** The counters shown *)

Section LabelFacts.

Lemma labels_after_app (w w' : list effect) (l : labels) :
  labels_after (w ++ w') l = labels_after w' (labels_after w l).
Proof. apply List.fold_left_app. Qed.

Lemma labels_after_no_tally (w : list effect) (l : labels) :
  tally w = [] -> labels_after w l = l.
Proof.
  revert l. induction w as [|e w IH]; intros l H; [reflexivity|].
  destruct e as [[m|p|m|t o f|]| | |]; try discriminate; apply IH, H.
Qed.

Lemma labels_after_progress (w : list effect) (l : labels) (p : Z) :
  tally w = [progress p] -> labels_after w l = l.
Proof.
  revert l. induction w as [|e w IH]; intros l H; [discriminate|].
  destruct e as [[m|p'|m|t' o' f'|]| | |]; try discriminate;
    try (apply IH, H).
  cbn in H. injection H as _ H.
  apply (labels_after_no_tally w l H).
Qed.

Lemma labels_after_pair (w : list effect) (l : labels) (t o f p : Z) :
  tally w = [counts t o f; progress p] ->
  labels_after w l = _update_counts t o f.
Proof.
  revert l. induction w as [|e w IH]; intros l H; [discriminate|].
  destruct e as [[m|p'|m|t' o' f'|]| | |]; try (apply IH, H);
    try discriminate.
  cbn in H. injection H as -> -> -> H.
  apply (labels_after_progress w (_update_counts t o f) p H).
Qed.

Variable check_bracketed_netloc : string -> bool.
Variable executable : string.
Variable items0 : list DownloadItem.
Variable cookie_text0 : string.
Variable base_dir : string.
Variable env : nat -> item_env.

(** After the loop the labels show the counters, once an item has been
    dealt with. *)
Lemma loop_labels (its : list DownloadItem) :
  forall (idx : nat) (s : wstate),
    match loop check_bracketed_netloc executable items0 cookie_text0
            base_dir env idx its s with
    | (w, s', _) =>
        (tally w = [] /\ ok s' = ok s /\ fail s' = fail s)
        \/ ((ok s + fail s < ok s' + fail s')%Z
            /\ forall l, labels_after w l
                         = _update_counts (total items0) (ok s') (fail s'))
    end.
Proof.
  induction its as [|item rest IH]; intros idx s.
  - left. simpl. auto.
  - cbn [loop]. destruct (stop_is_set (env idx)); [left; simpl; auto|].
    unfold mbind at 1. unfold io_bind.
    pose proof (item_pass check_bracketed_netloc executable items0
                  cookie_text0 base_dir env idx item s) as Hi.
    destruct (try_except_finally _ _ _ s) as [[w s1] [r1|]];
      destruct Hi as (_ & _ & Hi).
    + destruct Hi as (-> & Hone & Ht1).
      specialize (IH (S idx) s1).
      destruct (loop _ _ _ _ _ _ (S idx) rest s1) as [[w2 s2] r2].
      assert (Hsum : (ok s1 + fail s1 = ok s + fail s + 1)%Z)
        by (destruct Hone as [[? ?]|[? ?]]; lia).
      right. destruct IH as [(Ht2 & Ho & Hf)|(Hlt & Hl)].
      * split; [lia|]. intros l. rewrite labels_after_app.
        rewrite (labels_after_no_tally w2 _ Ht2), Ho, Hf.
        apply (labels_after_pair w l _ _ _ _ Ht1).
      * split; [lia|]. intros l. rewrite labels_after_app. apply Hl.
    + left. exact Hi.
Qed.

End LabelFacts.

(** X24. The window shows the worker's counters: once the signals of a
    run are delivered, the three labels read the total and the values of
    [ok] and [fail] the worker ends with (or is stuck with, when a child
    hangs), as soon as one item has been dealt with, that is as soon as
    [ok + fail] is not zero; while no item has been dealt with they are
    as they were. *)
Theorem labels_show_counters
    (cb : string -> bool) (executable : string) (yt_dlp : bool)
    (items0 : list DownloadItem) (cookie_text0 base_dir : string)
    (env : nat -> item_env) (l : labels) :
  match run cb executable yt_dlp items0 cookie_text0 base_dir env
          (init items0) with
  | (w, s, _) =>
      labels_after w l
      = if (0 <? ok s + fail s)%Z
        then _update_counts (total items0) (ok s) (fail s)
        else l
  end.
Proof.
  unfold run. destruct (negb yt_dlp); [reflexivity|].
  unfold mbind at 1. unfold io_bind.
  pose proof (loop_labels cb executable items0 cookie_text0 base_dir env
                items0 1 (init items0)) as H.
  destruct (loop _ _ _ _ _ _ 1 items0 (init items0)) as [[w s] r].
  cbn [init ok fail] in H.
  assert (Hd : labels_after (w ++ [Emit done]) l = labels_after w l)
    by (rewrite labels_after_app; reflexivity).
  assert (Hw : labels_after w l
               = if (0 <? ok s + fail s)%Z
                 then _update_counts (total items0) (ok s) (fail s)
                 else l).
  { destruct H as [(Ht & -> & ->)|(Hlt & Hl)].
    - apply labels_after_no_tally, Ht.
    - replace (0 <? ok s + fail s)%Z with true
        by (symmetry; apply Z.ltb_lt; lia).
      apply Hl. }
  destruct r as [[[]|e]|]; unfold emit, perform; rewrite ?Hd; exact Hw.
Qed.

(** X24, an instance: three items, the second of which fails. *)
Lemma labels_show_counters_witness :
  let item := mkDownloadItem "YouTube" "URL" "https://youtu.be/x" None None in
  let env := fun i : nat =>
    mkitem_env false false (fun _ => false)
      (exits (if Nat.eqb i 2 then 1 else 0)) in
  labels_after
    (fst (fst (run (fun _ => true) "python" true [item; item; item] ""
                 "/base" env (init [item; item; item]))))
    new_labels
  = mklabels "Total: 3" "Success: 2" "Failed: 1".
Proof.
  intros item env.
  pose proof (labels_show_counters (fun _ => true) "python" true
                [item; item; item] "" "/base" env new_labels) as H.
  destruct (run _ _ _ _ _ _ _ _) as [[w s] r] eqn:E.
  assert (Hs : (ok s, fail s) = (2, 1)%Z).
  { apply (f_equal (fun x => (ok (snd (fst x)), fail (snd (fst x))))) in E.
    cbn [fst snd] in E. rewrite <- E. vm_compute. reflexivity. }
  injection Hs as Ho Hf. rewrite Ho, Hf in H. exact H.
Defined.
